(** * SocialConnect: the messaging service, its store and the realtime gateway

    A shallow embedding of
    - [backend/src/utils/validation.ts]       ([sanitizeString]),
    - [backend/src/services/message.service.ts] ([MessageService]),
    - [backend/src/api/validators/message.validator.ts],
    - [backend/src/socket/handlers.ts]        ([initializeSocketHandlers]),
    together with the properties of the design document that concern them.

    Conventions of the embedding.
    - A JavaScript string that the code inspects (message content) is the list
      of its UTF-16 code units; identifiers and emoji, which the code only
      compares, are opaque [string]s.
    - [new Date()] and the database clock are one explicit argument [now]
      (milliseconds) per request, and the identifiers that the database
      generates for new rows are explicit arguments too.
    - A table is the list of its rows in insertion order; a query without
      [orderBy] answers in that order.
    - A Prisma call is a computation over the store that either returns or
      throws; what was written before a throw stays written. *)

From stdpp Require Import gmap strings list sorting.
From Stdlib Require Import ZArith NArith Lia.

Open Scope Z_scope.

(** ** Typed errors ([utils/errors], [errorHandler.ts]) *)

Inductive AppError : Type :=
  | ValidationError (message : string)
  | NotFoundError (message : string)
  | ForbiddenError (message : string)
  | PrismaClientKnownRequestError (code : string)
  | PrismaClientValidationError.

Global Instance AppError_eq_dec : EqDecision AppError.
Proof. solve_decision. Defined.

(** ** JavaScript strings and [utils/validation.ts] *)

Module Validation.

Abbreviation JsString := (list N).

(** Code units of an ASCII literal. *)
Fixpoint js (s : string) : JsString :=
  match s with
  | EmptyString => []
  | String a s' => Ascii.N_of_ascii a :: js s'
  end.

(** ECMAScript [WhiteSpace] and [LineTerminator]: what [String.prototype.trim]
    strips and what the class [\s] matches. *)
Definition isWhiteSpace (c : N) : bool :=
  ((9 <=? c) && (c <=? 13) || (c =? 32) || (c =? 160) || (c =? 5760)
   || (8192 <=? c) && (c <=? 8202) || (c =? 8232) || (c =? 8233)
   || (c =? 8239) || (c =? 8287) || (c =? 12288) || (c =? 65279))%N.

Definition SPACE : N := 32%N.

Fixpoint trimStart (s : JsString) : JsString :=
  match s with
  | [] => []
  | c :: s' => if isWhiteSpace c then trimStart s' else s
  end.

Definition trimEnd (s : JsString) : JsString :=
  reverse (trimStart (reverse s)).

(** [input.trim()] *)
Definition trim (s : JsString) : JsString := trimEnd (trimStart s).

(** [s.replace(/\s+/g, ' ')]: scanning left to right, each maximal run of
    white space is one match and becomes one space.  [inRun] tells that
    the previous code unit belonged to the match being replaced. *)
Fixpoint replaceRuns (inRun : bool) (s : JsString) : JsString :=
  match s with
  | [] => []
  | c :: s' =>
      if isWhiteSpace c
      then (if inRun then replaceRuns true s' else SPACE :: replaceRuns true s')
      else c :: replaceRuns false s'
  end.

(** [sanitizeString = input.trim().replace(/\s+/g, ' ')] *)
Definition sanitizeString (input : JsString) : JsString :=
  replaceRuns false (trim input).

End Validation.
Export Validation.

(** ** The store

    The rows that [MessageService] reads and writes.  User rows belong to the
    authentication subsystem; the service holds their ids only. *)

Module Conversation.
Record t : Type := mk { id : string; updatedAt : Z }.
End Conversation.

Module Participant.
Record t : Type := mk {
  id : string; conversationId : string; userId : string; lastReadAt : Z }.
Definition setLastReadAt (now : Z) (p : t) : t :=
  mk (id p) (conversationId p) (userId p) now.

(** [update({ where: { id }, data: { lastReadAt } })], seen from one row. *)
Definition updateWhere (id' : string) (lastReadAt' : Z) (p : t) : t :=
  if decide (id p = id') then setLastReadAt lastReadAt' p else p.
End Participant.

Module Message.
Record t : Type := mk {
  id : string; content : JsString; conversationId : string;
  senderId : string; createdAt : Z; isEdited : bool; editedAt : option Z }.
End Message.

Module Reaction.
Record t : Type := mk {
  id : string; messageId : string; userId : string; emoji : string }.
End Reaction.

Global Instance Conversation_eq_dec : EqDecision Conversation.t.
Proof. solve_decision. Defined.
Global Instance Participant_eq_dec : EqDecision Participant.t.
Proof. solve_decision. Defined.
Global Instance Message_eq_dec : EqDecision Message.t.
Proof. solve_decision. Defined.
Global Instance Reaction_eq_dec : EqDecision Reaction.t.
Proof. solve_decision. Defined.

Record DB : Type := mkDB {
  conversations : list Conversation.t;
  participants : list Participant.t;
  messages : list Message.t;
  reactions : list Reaction.t }.

Global Instance DB_eq_dec : EqDecision DB.
Proof. solve_decision. Defined.

Definition emptyDB : DB := mkDB [] [] [] [].

(** ** Prisma calls as store computations *)

Definition Prisma (A : Type) : Type := DB → (AppError + A) * DB.

Definition ret {A} (a : A) : Prisma A := λ db, (inr a, db).
Definition throw {A} (e : AppError) : Prisma A := λ db, (inl e, db).
Definition bind {A B} (m : Prisma A) (k : A → Prisma B) : Prisma B :=
  λ db, match m db with
        | (inl e, db') => (inl e, db')
        | (inr a, db') => k a db'
        end.
Definition gets {A} (f : DB → A) : Prisma A := λ db, (inr (f db), db).

Declare Scope prisma_scope.
Delimit Scope prisma_scope with prisma.
Notation "'let*' x ':=' m 'in' k" := (bind m (λ x, k))
  (at level 10, x name, m at level 200, k at level 200) : prisma_scope.
Open Scope prisma_scope.

(** ** The Prisma client calls used by the service

    The schema file [prisma/schema.prisma], which fixes the columns, their
    defaults and the referential actions, is not among the sources.  The
    columns are those the service and the gateway read and write.  Ids are
    generated primary keys: a second row with the same key is refused with
    [P2002], and [update] or [delete] of a missing row fails with [P2025],
    the two codes that [errorHandler.ts] translates.  What else the schema
    decides is marked where it is used. *)

Module prisma.

Definition P2002 : AppError := PrismaClientKnownRequestError "P2002".
Definition P2025 : AppError := PrismaClientKnownRequestError "P2025".

(** [findFirst]/[findUnique]: the first row, in table order, that satisfies
    the [where] clause. *)
Definition findFirst {A} (P : A → Prop) `{!∀ x, Decision (P x)}
    (table : list A) : option A := head (filter P table).

(** [participants: { some: { userId } }] on a conversation. *)
Definition someParticipant (db : DB) (userId conversationId : string) : Prop :=
  Exists (λ p, Participant.conversationId p = conversationId
               ∧ Participant.userId p = userId) (participants db).

Global Instance someParticipant_dec db u c : Decision (someParticipant db u c).
Proof. unfold someParticipant. apply _. Defined.

(** [AND: [{ participants: { some: { userId: user1Id } } },
           { participants: { some: { userId: user2Id } } }]] *)
Definition between (db : DB) (user1Id user2Id : string) (c : Conversation.t)
    : Prop :=
  someParticipant db user1Id (Conversation.id c)
  ∧ someParticipant db user2Id (Conversation.id c).

Global Instance between_dec db u1 u2 c : Decision (between db u1 u2 c).
Proof. unfold between. apply _. Defined.

Module conversation.
Definition findFirstBetween (user1Id user2Id : string)
    : Prisma (option Conversation.t) :=
  gets (λ db, findFirst (between db user1Id user2Id) (conversations db)).

Definition findUnique (id : string) : Prisma (option Conversation.t) :=
  gets (λ db, findFirst (λ c, Conversation.id c = id) (conversations db)).

(** Modelled from the spec: the column defaults of the missing schema.  A
    participant is "created with the conversation", and the timestamps that
    the service does not supply ([updatedAt], [lastReadAt]) take the time of
    the insert.  [create] with the nested
    [participants: { create: [..., ...] }] is one statement with three
    generated ids. *)
Definition create (id pid1 pid2 : string) (now : Z) (user1Id user2Id : string)
    : Prisma Conversation.t :=
  λ db,
    if decide (id ∈ Conversation.id <$> conversations db
               ∨ pid1 = pid2
               ∨ pid1 ∈ Participant.id <$> participants db
               ∨ pid2 ∈ Participant.id <$> participants db)
    then (inl P2002, db)
    else
      let c := Conversation.mk id now in
      (inr c,
       mkDB (conversations db ++ [c])
            (participants db ++ [Participant.mk pid1 id user1Id now;
                                 Participant.mk pid2 id user2Id now])
            (messages db) (reactions db)).

Definition update (id : string) (updatedAt : Z) : Prisma unit :=
  λ db,
    if decide (id ∈ Conversation.id <$> conversations db)
    then (inr tt,
          mkDB ((λ c, if decide (Conversation.id c = id)
                      then Conversation.mk id updatedAt else c)
                  <$> conversations db)
               (participants db) (messages db) (reactions db))
    else (inl P2025, db).

(** Modelled from the spec: the referential actions of the missing schema.
    "Deleting a conversation is all-or-nothing and removes all dependent
    messages/reactions/participants atomically"; the service says the same
    ("cascades to messages, reactions, participants"). *)
Definition delete (id : string) : Prisma unit :=
  λ db,
    if decide (id ∈ Conversation.id <$> conversations db)
    then
      let gone := Message.id <$>
                    filter (λ m, Message.conversationId m = id) (messages db) in
      (inr tt,
       mkDB (filter (λ c, Conversation.id c ≠ id) (conversations db))
            (filter (λ p, Participant.conversationId p ≠ id) (participants db))
            (filter (λ m, Message.conversationId m ≠ id) (messages db))
            (filter (λ r, Reaction.messageId r ∉ gone) (reactions db)))
    else (inl P2025, db).
End conversation.

Module conversationParticipant.
Definition findFirst (conversationId userId : string)
    : Prisma (option Participant.t) :=
  gets (λ db, prisma.findFirst
    (λ p, Participant.conversationId p = conversationId
          ∧ Participant.userId p = userId) (participants db)).

Definition update (id : string) (lastReadAt : Z) : Prisma unit :=
  λ db,
    if decide (id ∈ Participant.id <$> participants db)
    then (inr tt,
          mkDB (conversations db)
               (Participant.updateWhere id lastReadAt <$> participants db)
               (messages db) (reactions db))
    else (inl P2025, db).
End conversationParticipant.

Module message.
Definition findUnique (id : string) : Prisma (option Message.t) :=
  gets (λ db, findFirst (λ m, Message.id m = id) (messages db)).

(** Modelled from the spec: the column defaults of the missing schema.  A
    new message is not edited and its creation time is the time of the
    insert. *)
Definition create (id : string) (now : Z) (content : JsString)
    (conversationId senderId : string) : Prisma Message.t :=
  λ db,
    if decide (id ∈ Message.id <$> messages db)
    then (inl P2002, db)
    else
      let m := Message.mk id content conversationId senderId now false None in
      (inr m,
       mkDB (conversations db) (participants db) (messages db ++ [m])
            (reactions db)).

(** [update] with [data: { content, isEdited: true, editedAt }]. *)
Definition edited (content : JsString) (editedAt : Z) (m : Message.t) : Message.t :=
  Message.mk (Message.id m) content (Message.conversationId m)
             (Message.senderId m) (Message.createdAt m) true (Some editedAt).

Definition update (id : string) (content : JsString) (editedAt : Z)
    : Prisma Message.t :=
  λ db,
    match findFirst (λ m, Message.id m = id) (messages db) with
    | Some m =>
        (inr (edited content editedAt m),
         mkDB (conversations db) (participants db)
              ((λ m', if decide (Message.id m' = id)
                      then edited content editedAt m' else m')
                 <$> messages db)
              (reactions db))
    | None => (inl P2025, db)
    end.

(** Modelled from the spec: the referential action of the missing schema.
    A message is "removed entirely by delete (hard delete, not tombstone) —
    cascades its reactions"; the service says "cascades to reactions". *)
Definition delete (id : string) : Prisma unit :=
  λ db,
    if decide (id ∈ Message.id <$> messages db)
    then (inr tt,
          mkDB (conversations db) (participants db)
               (filter (λ m, Message.id m ≠ id) (messages db))
               (filter (λ r, Reaction.messageId r ≠ id) (reactions db)))
    else (inl P2025, db).

(** [findMany({ where: { conversationId }, skip, take,
                orderBy: { createdAt: 'desc' } })].
    A negative [skip] is refused; a negative [take] pages backwards: the
    window is cut from the end of the ordering and returned in the
    ordering. *)
Definition newerFirst (a b : Message.t) : Prop :=
  Message.createdAt b ≤ Message.createdAt a.

Global Instance newerFirst_dec a b : Decision (newerFirst a b).
Proof. unfold newerFirst. apply _. Defined.

Definition window {A} (skip take : Z) (rows : list A) : list A :=
  if decide (0 ≤ take)
  then list.take (Z.to_nat take) (drop (Z.to_nat skip) rows)
  else reverse (list.take (Z.to_nat (- take))
                  (drop (Z.to_nat skip) (reverse rows))).

Definition findManyDesc (conversationId : string) (skip take : Z)
    : Prisma (list Message.t) :=
  λ db,
    if decide (skip < 0) then (inl PrismaClientValidationError, db)
    else
      (inr (window skip take
              (merge_sort newerFirst
                 (filter (λ m, Message.conversationId m = conversationId)
                         (messages db)))),
       db).
End message.

Module reaction.
(** [findUnique({ where: { messageId_userId_emoji } })] *)
Definition findUnique (messageId userId emoji : string)
    : Prisma (option Reaction.t) :=
  gets (λ db, findFirst
    (λ r, Reaction.messageId r = messageId ∧ Reaction.userId r = userId
          ∧ Reaction.emoji r = emoji) (reactions db)).

(** [create]; the key and the triple [messageId_userId_emoji] are unique. *)
Definition create (id messageId userId emoji : string) : Prisma Reaction.t :=
  λ db,
    if decide (id ∈ Reaction.id <$> reactions db
               ∨ Exists (λ r, Reaction.messageId r = messageId
                              ∧ Reaction.userId r = userId
                              ∧ Reaction.emoji r = emoji) (reactions db))
    then (inl P2002, db)
    else
      let r := Reaction.mk id messageId userId emoji in
      (inr r,
       mkDB (conversations db) (participants db) (messages db)
            (reactions db ++ [r])).

Definition delete (id : string) : Prisma unit :=
  λ db,
    if decide (id ∈ Reaction.id <$> reactions db)
    then (inr tt,
          mkDB (conversations db) (participants db) (messages db)
               (filter (λ r, Reaction.id r ≠ id) (reactions db)))
    else (inl P2025, db).
End reaction.

End prisma.

(** ** [MessageService] ([services/message.service.ts]) *)

(** The ids the database generates for a new conversation and its two
    participant rows. *)
Record ConversationIds : Type := mkConversationIds {
  newConversationId : string;
  newParticipantId1 : string;
  newParticipantId2 : string }.

Inductive ReactionAction : Type := added | removed.

Global Instance ReactionAction_eq_dec : EqDecision ReactionAction.
Proof. solve_decision. Defined.

Module MessageService.
Import prisma.

Definition getOrCreateConversation (ids : ConversationIds) (now : Z)
    (user1Id user2Id : string) : Prisma Conversation.t :=
  if decide (user1Id = user2Id)
  then throw (ValidationError "Cannot create conversation with yourself")
  else
    let* existingConversation := conversation.findFirstBetween user1Id user2Id in
    match existingConversation with
    | Some c => ret c
    | None =>
        conversation.create (newConversationId ids) (newParticipantId1 ids)
          (newParticipantId2 ids) now user1Id user2Id
    end.

Definition getMessages (now : Z) (conversationId userId : string)
    (page limit : Z) : Prisma (list Message.t) :=
  let* participant := conversationParticipant.findFirst conversationId userId in
  match participant with
  | None => throw (ForbiddenError "You are not a participant in this conversation")
  | Some participant =>
      let skip := (page - 1) * limit in
      let* messages := message.findManyDesc conversationId skip limit in
      let* _ := conversationParticipant.update (Participant.id participant) now in
      ret (reverse messages)
  end.

Definition sendMessage (ids : ConversationIds) (messageId : string) (now : Z)
    (senderId recipientId : string) (content : JsString)
    : Prisma (Message.t * string) :=
  let* conversation := getOrCreateConversation ids now senderId recipientId in
  let* message := message.create messageId now (sanitizeString content)
                    (Conversation.id conversation) senderId in
  let* _ := conversation.update (Conversation.id conversation) now in
  ret (message, Conversation.id conversation).

Definition editMessage (now : Z) (messageId userId : string) (content : JsString)
    : Prisma Message.t :=
  let* message := message.findUnique messageId in
  match message with
  | None => throw (NotFoundError "Message not found")
  | Some message =>
      if decide (Message.senderId message ≠ userId)
      then throw (ForbiddenError "You can only edit your own messages")
      else message.update messageId (sanitizeString content) now
  end.

(** [message.conversation.participants.some((p) => p.userId === userId)] *)
Definition isParticipant (db : DB) (conversationId userId : string) : Prop :=
  someParticipant db userId conversationId.

Definition deleteMessage (messageId userId : string) : Prisma string :=
  let* message := message.findUnique messageId in
  match message with
  | None => throw (NotFoundError "Message not found")
  | Some message =>
      let* isParticipant :=
        gets (λ db, bool_decide
                      (isParticipant db (Message.conversationId message) userId)) in
      if negb isParticipant
      then throw (ForbiddenError "You cannot delete this message")
      else
        let* _ := message.delete messageId in
        ret (Message.conversationId message)
  end.

Definition addReaction (reactionId : string) (messageId userId emoji : string)
    : Prisma (ReactionAction * Reaction.t) :=
  let* message := message.findUnique messageId in
  match message with
  | None => throw (NotFoundError "Message not found")
  | Some message =>
      let* isParticipant :=
        gets (λ db, bool_decide
                      (isParticipant db (Message.conversationId message) userId)) in
      if negb isParticipant
      then throw (ForbiddenError "You are not a participant in this conversation")
      else
        let* existingReaction := reaction.findUnique messageId userId emoji in
        match existingReaction with
        | Some existingReaction =>
            let* _ := reaction.delete (Reaction.id existingReaction) in
            ret (removed, existingReaction)
        | None =>
            let* reaction := reaction.create reactionId messageId userId emoji in
            ret (added, reaction)
        end
  end.

Definition deleteConversation (conversationId userId : string)
    : Prisma (list string) :=
  let* conversation := conversation.findUnique conversationId in
  match conversation with
  | None => throw (NotFoundError "Conversation not found")
  | Some conversation =>
      let* participants :=
        gets (λ db, filter (λ p, Participant.conversationId p = conversationId)
                           (participants db)) in
      if negb (bool_decide (Exists (λ p, Participant.userId p = userId) participants))
      then throw (ForbiddenError "You are not a participant in this conversation")
      else
        let* _ := conversation.delete conversationId in
        ret (Participant.userId <$> participants)
  end.

Definition markAsRead (now : Z) (conversationId userId : string) : Prisma unit :=
  let* participant := conversationParticipant.findFirst conversationId userId in
  match participant with
  | None => throw (ForbiddenError "You are not a participant in this conversation")
  | Some participant =>
      conversationParticipant.update (Participant.id participant) now
  end.

End MessageService.

(** ** The realtime gateway ([socket/handlers.ts])

    The process-wide [onlineUsers] map and the handlers that the connection
    callback installs.  A handler run yields the new server state and the
    events it emitted, in order. *)

Module Socket.
(** An authenticated socket: the transport's [socket.id] and the [userId]
    bound by the authentication middleware. *)
Record t : Type := mk { id : string; userId : string }.
End Socket.

Inductive Payload : Type :=
  | UserPayload (userId : string)
  | MessagePayload (message : Message.t)
  | ConversationUpdatePayload (conversationId : string) (lastMessage : Message.t).

Inductive Ack : Type :=
  | AckSuccess (data : Message.t)
  | AckFailure (error : string).

Inductive Emit : Type :=
  (** [socket.broadcast.emit(event, payload)] *)
  | BroadcastFrom (socketId : string) (event : string) (payload : Payload)
  (** [io.to(target).emit(event, payload)], the target a room or a socket id *)
  | EmitTo (target : string) (event : string) (payload : Payload)
  (** [callback(ack)] *)
  | Callback (socketId : string) (ack : Ack).

Record Server : Type := mkServer {
  onlineUsers : gmap string string;   (* userId -> socketId *)
  db : DB }.

(** [error.message] *)
Definition errorMessage (e : AppError) : string :=
  match e with
  | ValidationError m | NotFoundError m | ForbiddenError m => m
  | PrismaClientKnownRequestError code => code
  | PrismaClientValidationError => "Invalid data provided"
  end.

Definition room (conversationId : string) : string :=
  "conversation:" +:+ conversationId.

Module Handlers.

(** [io.on('connection', ...)] up to the installation of the handlers. *)
Definition connection (socket : Socket.t) (srv : Server) : Server * list Emit :=
  let userId := Socket.userId socket in
  (mkServer (<[userId := Socket.id socket]> (onlineUsers srv)) (db srv),
   [BroadcastFrom (Socket.id socket) "user:online" (UserPayload userId)]).

(** [socket.on('disconnect', ...)] *)
Definition disconnect (socket : Socket.t) (srv : Server) : Server * list Emit :=
  let userId := Socket.userId socket in
  (mkServer (delete userId (onlineUsers srv)) (db srv),
   [BroadcastFrom (Socket.id socket) "user:offline" (UserPayload userId)]).

(** [socket.on('message:send', ...)]; [callback] tells whether the client
    supplied an acknowledgment callback.  [if (recipientSocketId)] holds
    for a registered, non-empty socket id. *)
Definition messageSend (socket : Socket.t) (ids : ConversationIds)
    (messageId : string) (now : Z) (recipientId : string) (content : JsString)
    (callback : bool) (srv : Server) : Server * list Emit :=
  let userId := Socket.userId socket in
  match MessageService.sendMessage ids messageId now userId recipientId content
          (db srv) with
  | (inr (message, conversationId), db') =>
      (mkServer (onlineUsers srv) db',
       [EmitTo (room conversationId) "message:new" (MessagePayload message)]
       ++ match onlineUsers srv !! recipientId with
          | Some recipientSocketId =>
              if decide (recipientSocketId = EmptyString) then []
              else [EmitTo recipientSocketId "conversation:update"
                      (ConversationUpdatePayload conversationId message)]
          | None => []
          end
       ++ (if callback then [Callback (Socket.id socket) (AckSuccess message)]
           else []))
  | (inl error, db') =>
      (mkServer (onlineUsers srv) db',
       if callback then [Callback (Socket.id socket) (AckFailure (errorMessage error))]
       else [])
  end.

End Handlers.

(** ** Request validators ([utils/validation.ts],
    [api/validators/message.validator.ts])

    A field of the request body is absent ([None], JavaScript's
    [undefined]) or holds a string. *)

Definition MAX_MESSAGE_LENGTH : Z := 10000.

(** [!value || (typeof value === 'string' && value.trim() === '')] *)
Definition blank (value : option JsString) : Prop :=
  match value with
  | None => True
  | Some v => v = [] ∨ trim v = []
  end.

Global Instance blank_dec (value : option JsString) : Decision (blank value).
Proof. destruct value; simpl; apply _. Defined.

(** [validateRequired(fields)]: the fields come in the order of the object
    literal; the names of the blank ones are joined with [', ']. *)
Definition validateRequired (fields : list (string * option JsString))
    : option AppError :=
  let missing := fst <$> filter (λ field, blank field.2) fields in
  if decide (0 < length missing)%nat
  then Some (ValidationError
               ("Missing required fields: " +:+ String.concat ", " missing))
  else None.

(** The two checks that both message validators make after
    [validateRequired]: [content.trim().length === 0] and
    [content.length > 10000]. *)
Definition validateSendMessage (content recipientId : option JsString)
    : option AppError :=
  match validateRequired [("content", content); ("recipientId", recipientId)] with
  | Some error => Some error
  | None =>
      match content with
      | Some content =>
          if decide (length (trim content) = 0%nat)
          then Some (ValidationError "Message content cannot be empty")
          else if decide (MAX_MESSAGE_LENGTH < Z.of_nat (length content))
          then Some (ValidationError
                       "Message content cannot exceed 10000 characters")
          else None
      | None => None   (* not reached: [validateRequired] refuses it *)
      end
  end.


(** ** Requests to the service, for statements about every operation *)

Inductive Request : Type :=
  | GetOrCreateConversation (ids : ConversationIds) (user1Id user2Id : string)
  | GetMessages (conversationId userId : string) (page limit : Z)
  | SendMessage (ids : ConversationIds) (messageId : string)
      (senderId recipientId : string) (content : JsString)
  | EditMessage (messageId userId : string) (content : JsString)
  | DeleteMessage (messageId userId : string)
  | AddReaction (reactionId messageId userId emoji : string)
  | DeleteConversation (conversationId userId : string)
  | MarkAsRead (conversationId userId : string).

(** The store after the service has served a request at time [now],
    whether it returned or threw. *)
Definition serve (now : Z) (r : Request) (db : DB) : DB :=
  match r with
  | GetOrCreateConversation ids u1 u2 =>
      (MessageService.getOrCreateConversation ids now u1 u2 db).2
  | GetMessages c u page limit => (MessageService.getMessages now c u page limit db).2
  | SendMessage ids m s r content =>
      (MessageService.sendMessage ids m now s r content db).2
  | EditMessage m u content => (MessageService.editMessage now m u content db).2
  | DeleteMessage m u => (MessageService.deleteMessage m u db).2
  | AddReaction r m u e => (MessageService.addReaction r m u e db).2
  | DeleteConversation c u => (MessageService.deleteConversation c u db).2
  | MarkAsRead c u => (MessageService.markAsRead now c u db).2
  end.

(** ** White-space normalisation, as the design document words it

    The input cut at every white-space code unit, the empty pieces dropped
    (so that leading and trailing white space disappears and a run counts
    once), and the remaining words joined by single spaces. *)

Fixpoint fields (s : JsString) : JsString * list JsString :=
  match s with
  | [] => ([], [])
  | c :: s' =>
      let '(w, ws) := fields s' in
      if isWhiteSpace c then ([], w :: ws) else (c :: w, ws)
  end.

Definition words (s : JsString) : list JsString :=
  filter (λ w, w ≠ []) ((fields s).1 :: (fields s).2).

Fixpoint unwords (ws : list JsString) : JsString :=
  match ws with
  | [] => []
  | w :: ws' =>
      match ws' with
      | [] => w
      | _ :: _ => w ++ SPACE :: unwords ws'
      end
  end.

Definition collapseWhitespace (s : JsString) : JsString := unwords (words s).

(** What [unwords] puts after a first word. *)
Definition tailWords (rest : list JsString) : JsString :=
  match rest with
  | [] => []
  | _ :: _ => SPACE :: unwords rest
  end.

(** ** Freshness of generated ids *)

Definition freshConversationIds (ids : ConversationIds) (db : DB) : Prop :=
  (newConversationId ids ∉ Conversation.id <$> conversations db)
  ∧ newParticipantId1 ids ≠ newParticipantId2 ids
  ∧ (newParticipantId1 ids ∉ Participant.id <$> participants db)
  ∧ (newParticipantId2 ids ∉ Participant.id <$> participants db).

Global Instance freshConversationIds_dec ids db : Decision (freshConversationIds ids db).
Proof. unfold freshConversationIds. apply _. Defined.

(** ** The presence registry as the design document describes it *)

(** The entry is removed only if it maps to the disconnecting socket. *)
Definition unregisterIsGuarded : Prop :=
  ∀ (socket : Socket.t) (srv : Server),
    onlineUsers srv !! Socket.userId socket ≠ Some (Socket.id socket) →
    onlineUsers (Handlers.disconnect socket srv).1 !! Socket.userId socket
    = onlineUsers srv !! Socket.userId socket.

(** ** Reading a deleted conversation, as the design document describes it *)

(** After a successful [deleteConversation], asking for the messages of that
    conversation id yields the empty list or [NotFoundError]. *)
Definition deletedReadsEmptyOrNotFound : Prop :=
  ∀ (conversationId actor : string) (db db' : DB) (notified : list string),
    MessageService.deleteConversation conversationId actor db
    = (inr notified, db') →
    ∀ (now : Z) (userId : string) (page limit : Z),
      (MessageService.getMessages now conversationId userId page limit db').1
      = inr []
      ∨ ∃ message : string,
          (MessageService.getMessages now conversationId userId page limit db').1
          = inl (NotFoundError message).

(** ** Reading a conversation *)

Global Instance newerFirst_total : Total prisma.message.newerFirst.
Proof. intros a b. unfold prisma.message.newerFirst. lia. Qed.

Global Instance newerFirst_transitive : Transitive prisma.message.newerFirst.
Proof. intros a b c. unfold prisma.message.newerFirst. lia. Qed.


Definition messagesOf (db : DB) (conversationId : string) : list Message.t :=
  filter (λ m, Message.conversationId m = conversationId) (messages db).

(** ** Membership: conversations and their participant rows *)

Definition conversationIds (db : DB) : list string :=
  Conversation.id <$> conversations db.

(** The store after the watermark of the participant row [id] was set. *)
Definition markedRead (id : string) (now : Z) (db : DB) : DB :=
  mkDB (conversations db) (Participant.updateWhere id now <$> participants db)
       (messages db) (reactions db).

(** What serving one request can do to the membership tables. *)
Inductive MembershipStep (now : Z) (before : DB) : DB → Prop :=
  | membership_same after :
      conversationIds after = conversationIds before →
      participants after = participants before →
      MembershipStep now before after
  | membership_read after (id : string) :
      conversationIds after = conversationIds before →
      participants after = Participant.updateWhere id now <$> participants before →
      MembershipStep now before after
  | membership_created after (conversationId pid1 pid2 user1Id user2Id : string) :
      user1Id ≠ user2Id →
      conversationId ∉ conversationIds before →
      pid1 ≠ pid2 →
      pid1 ∉ Participant.id <$> participants before →
      pid2 ∉ Participant.id <$> participants before →
      conversationIds after = conversationIds before ++ [conversationId] →
      participants after
      = participants before
        ++ [Participant.mk pid1 conversationId user1Id now;
            Participant.mk pid2 conversationId user2Id now] →
      MembershipStep now before after
  | membership_deleted after (conversationId : string) :
      conversationIds after
      = filter (λ id, id ≠ conversationId) (conversationIds before) →
      participants after
      = filter (λ p, Participant.conversationId p ≠ conversationId)
               (participants before) →
      MembershipStep now before after.

(** Every participant row belongs to a stored conversation. *)
Definition referentialIntegrity (db : DB) : Prop :=
  ∀ p, p ∈ participants db → Participant.conversationId p ∈ conversationIds db.

(** No conversation has two participant rows for one user: no conversation
    of a user with themself. *)
Definition noSelfConversation (db : DB) : Prop :=
  ∀ p q, p ∈ participants db → q ∈ participants db →
         Participant.conversationId p = Participant.conversationId q →
         Participant.userId p = Participant.userId q →
         Participant.id p = Participant.id q.

Definition wellFormed (db : DB) : Prop :=
  referentialIntegrity db ∧ noSelfConversation db.

(** The store after a history of requests, each with the time it was
    served at, starting from [db]. *)
Definition run (history : list (Z * Request)) (db : DB) : DB :=
  foldl (λ db '(now, request), serve now request db) db history.


(** ** Sanitised strings *)

(** A string in the form [sanitizeString] produces: its only white space is
    single spaces, and those stand between two other code units. *)
Definition sanitised (s : JsString) : Prop :=
  Forall (λ c, isWhiteSpace c = true → c = SPACE) s
  ∧ (∀ c, head s = Some c → isWhiteSpace c = false)
  ∧ (∀ c, last s = Some c → isWhiteSpace c = false)
  ∧ ∀ i c d, s !! i = Some c → s !! S i = Some d →
             ¬ (isWhiteSpace c = true ∧ isWhiteSpace d = true).

(** A list of words as [words] yields them. *)
Definition properWords (ws : list JsString) : Prop :=
  Forall (λ w, w ≠ [] ∧ Forall (λ c, isWhiteSpace c = false) w) ws.


(** An executable check of [sanitised]: the first code unit is not white,
    and every white code unit is a space followed by a code unit that is
    not white. *)
Fixpoint wellSpaced (s : JsString) : bool :=
  match s with
  | [] => true
  | c :: s' =>
      (if isWhiteSpace c
       then (c =? SPACE)%N
            && match s' with
               | [] => false
               | d :: _ => negb (isWhiteSpace d)
               end
       else true)
      && wellSpaced s'
  end.

Definition isSanitised (s : JsString) : bool :=
  match s with
  | [] => true
  | c :: _ => negb (isWhiteSpace c)
  end && wellSpaced s.


(** ** Outcome of a request *)

(** The error a request ends with, if it throws. *)
Definition thrown (now : Z) (r : Request) (db : DB) : option AppError :=
  let failure {A} (result : (AppError + A) * DB) : option AppError :=
    match result.1 with inl e => Some e | inr _ => None end in
  match r with
  | GetOrCreateConversation ids u1 u2 =>
      failure (MessageService.getOrCreateConversation ids now u1 u2 db)
  | GetMessages c u page limit =>
      failure (MessageService.getMessages now c u page limit db)
  | SendMessage ids m s r content =>
      failure (MessageService.sendMessage ids m now s r content db)
  | EditMessage m u content => failure (MessageService.editMessage now m u content db)
  | DeleteMessage m u => failure (MessageService.deleteMessage m u db)
  | AddReaction r m u e => failure (MessageService.addReaction r m u e db)
  | DeleteConversation c u => failure (MessageService.deleteConversation c u db)
  | MarkAsRead c u => failure (MessageService.markAsRead now c u db)
  end.


(** ** Consistency of the store *)

Definition participantsOf (db : DB) (conversationId : string)
    : list Participant.t :=
  filter (λ p, Participant.conversationId p = conversationId) (participants db).

(** Every stored conversation has exactly two participant rows, of two
    different users. *)
Definition twoParty (db : DB) : Prop :=
  ∀ conversationId, conversationId ∈ conversationIds db →
    ∃ p q, participantsOf db conversationId = [p; q]
           ∧ Participant.userId p ≠ Participant.userId q.

(** The sender of every stored message takes part in its conversation. *)
Definition sendersTakePart (db : DB) : Prop :=
  ∀ m, m ∈ messages db →
       prisma.someParticipant db (Message.senderId m) (Message.conversationId m).

(** Every stored reaction is on a stored message, by a user who takes part
    in that message's conversation. *)
Definition reactionsAttached (db : DB) : Prop :=
  ∀ r, r ∈ reactions db →
       ∃ m, m ∈ messages db ∧ Message.id m = Reaction.messageId r
            ∧ prisma.someParticipant db (Reaction.userId r)
                (Message.conversationId m).


(** Who takes part in a conversation before still does after. *)
Definition keepsParticipants (before after : DB) : Prop :=
  ∀ userId conversationId,
    prisma.someParticipant before userId conversationId →
    prisma.someParticipant after userId conversationId.

(** What serving one request can do to the store as a whole. *)
Inductive StoreStep (before : DB) : DB → Prop :=
  | store_quiet after :
      keepsParticipants before after →
      messages after = messages before →
      reactions after = reactions before →
      StoreStep before after
  | store_sent after (m : Message.t) :
      keepsParticipants before after →
      prisma.someParticipant after (Message.senderId m) (Message.conversationId m) →
      messages after = messages before ++ [m] →
      reactions after = reactions before →
      StoreStep before after
  | store_edited after (f : Message.t → Message.t) :
      (∀ m, Message.id (f m) = Message.id m
            ∧ Message.conversationId (f m) = Message.conversationId m
            ∧ Message.senderId (f m) = Message.senderId m) →
      keepsParticipants before after →
      messages after = f <$> messages before →
      reactions after = reactions before →
      StoreStep before after
  | store_message_deleted after (messageId : string) :
      keepsParticipants before after →
      messages after = filter (λ m, Message.id m ≠ messageId) (messages before) →
      reactions after
      = filter (λ r, Reaction.messageId r ≠ messageId) (reactions before) →
      StoreStep before after
  | store_reacted after (r : Reaction.t) (m : Message.t) :
      keepsParticipants before after →
      m ∈ messages before →
      Message.id m = Reaction.messageId r →
      prisma.someParticipant before (Reaction.userId r) (Message.conversationId m) →
      messages after = messages before →
      reactions after = reactions before ++ [r] →
      StoreStep before after
  | store_unreacted after (reactionId : string) :
      keepsParticipants before after →
      messages after = messages before →
      reactions after = filter (λ r, Reaction.id r ≠ reactionId) (reactions before) →
      StoreStep before after
  | store_conversation_deleted after (conversationId : string) :
      participants after
      = filter (λ p, Participant.conversationId p ≠ conversationId)
               (participants before) →
      messages after
      = filter (λ m, Message.conversationId m ≠ conversationId) (messages before) →
      reactions after
      = filter (λ r, Reaction.messageId r
                     ∉ Message.id <$>
                         filter (λ m, Message.conversationId m = conversationId)
                                (messages before))
               (reactions before) →
      StoreStep before after.


(** ** [getUserConversations] *)

Module ConversationSummary.
(** One entry of the conversation list.  [otherUser] stands for the user row
    of the other participant, which the service returns by reference. *)
Record t : Type := mk {
  id : string;
  otherUser : option string;
  lastMessage : option Message.t;
  lastReadAt : option Z;
  updatedAt : Z }.
End ConversationSummary.

(** [orderBy: { updatedAt: 'desc' }] *)
Definition updatedFirst (a b : Conversation.t) : Prop :=
  Conversation.updatedAt b ≤ Conversation.updatedAt a.

Global Instance updatedFirst_dec a b : Decision (updatedFirst a b).
Proof. unfold updatedFirst. apply _. Defined.

Global Instance updatedFirst_total : Total updatedFirst.
Proof. intros a b. unfold updatedFirst. lia. Qed.

Global Instance updatedFirst_transitive : Transitive updatedFirst.
Proof. intros a b c. unfold updatedFirst. lia. Qed.

(** The transformation of one conversation with its includes:
    [participants] and [messages: { orderBy: desc, take: 1 }]. *)
Definition summarise (db : DB) (userId : string) (conv : Conversation.t)
    : ConversationSummary.t :=
  let participants := participantsOf db (Conversation.id conv) in
  let otherParticipant :=
    prisma.findFirst (λ p, Participant.userId p ≠ userId) participants in
  let currentParticipant :=
    prisma.findFirst (λ p, Participant.userId p = userId) participants in
  ConversationSummary.mk (Conversation.id conv)
    (Participant.userId <$> otherParticipant)
    (head (merge_sort prisma.message.newerFirst
             (messagesOf db (Conversation.id conv))))
    (Participant.lastReadAt <$> currentParticipant)
    (Conversation.updatedAt conv).

Definition getUserConversations (userId : string)
    : Prisma (list ConversationSummary.t) :=
  gets (λ db,
    summarise db userId <$>
      merge_sort updatedFirst
        (filter (λ c, prisma.someParticipant db userId (Conversation.id c))
                (conversations db))).


(** ** The other handlers of the gateway

    [message:edit], [message:delete], [message:react], [conversation:delete]
    and the typing indicators, with the payloads they emit. *)

Inductive Notice : Type :=
  | MessageEdited (message : Message.t)
  | MessageDeleted (messageId conversationId : string)
  | MessageReaction (messageId : string) (action : ReactionAction)
      (reaction : Reaction.t)
  | ConversationDeleted (conversationId : string)
  | Typing (userId conversationId : string).

Inductive Reply : Type :=
  (** [{ success: true }] *)
  | Succeeded
  (** [{ success: true, data: message }] *)
  | SucceededWithMessage (data : Message.t)
  (** [{ success: true, data: { action, reaction } }] *)
  | SucceededWithReaction (action : ReactionAction) (reaction : Reaction.t)
  (** [{ success: false, error }] *)
  | Failed (error : string).

Inductive Outbound : Type :=
  (** [io.to(target).emit(event, notice)], the target a room or a socket id *)
  | Announce (target : string) (event : string) (notice : Notice)
  (** [socket.to(room).emit(event, notice)]: the room without the sender *)
  | AnnounceToOthers (socketId : string) (room : string) (event : string)
      (notice : Notice)
  (** [callback(reply)] *)
  | Acknowledge (socketId : string) (reply : Reply).

Definition acknowledge (callback : bool) (socket : Socket.t) (reply : Reply)
    : list Outbound :=
  if callback then [Acknowledge (Socket.id socket) reply] else [].

Module Gateway.

(** [socket.on('message:edit', ...)] *)
Definition messageEdit (socket : Socket.t) (now : Z) (messageId : string)
    (content : JsString) (callback : bool) (srv : Server)
    : Server * list Outbound :=
  match MessageService.editMessage now messageId (Socket.userId socket) content
          (db srv) with
  | (inr message, db') =>
      (mkServer (onlineUsers srv) db',
       [Announce (room (Message.conversationId message)) "message:edited"
          (MessageEdited message)]
       ++ acknowledge callback socket (SucceededWithMessage message))
  | (inl error, db') =>
      (mkServer (onlineUsers srv) db',
       acknowledge callback socket (Failed (errorMessage error)))
  end.

(** [socket.on('message:delete', ...)] *)
Definition messageDelete (socket : Socket.t) (messageId : string)
    (callback : bool) (srv : Server) : Server * list Outbound :=
  match MessageService.deleteMessage messageId (Socket.userId socket) (db srv) with
  | (inr conversationId, db') =>
      (mkServer (onlineUsers srv) db',
       [Announce (room conversationId) "message:deleted"
          (MessageDeleted messageId conversationId)]
       ++ acknowledge callback socket Succeeded)
  | (inl error, db') =>
      (mkServer (onlineUsers srv) db',
       acknowledge callback socket (Failed (errorMessage error)))
  end.

(** [socket.on('message:react', ...)]: the conversation is looked up again
    after the toggle, and the room is told only if the message is found. *)
Definition messageReact (socket : Socket.t) (reactionId messageId emoji : string)
    (callback : bool) (srv : Server) : Server * list Outbound :=
  match MessageService.addReaction reactionId messageId (Socket.userId socket)
          emoji (db srv) with
  | (inr (action, reaction), db') =>
      (mkServer (onlineUsers srv) db',
       match (prisma.message.findUnique messageId db').1 with
       | inr (Some message) =>
           [Announce (room (Message.conversationId message)) "message:reaction"
              (MessageReaction messageId action reaction)]
       | _ => []
       end
       ++ acknowledge callback socket (SucceededWithReaction action reaction))
  | (inl error, db') =>
      (mkServer (onlineUsers srv) db',
       acknowledge callback socket (Failed (errorMessage error)))
  end.

(** The same handler with its two [await]s apart.  While it waits for
    [addReaction] and for the second lookup, other handlers run;
    [meanwhile] is what they have done to the store by the time
    [prisma.message.findUnique] reads it. *)
Definition messageReactAfter (meanwhile : DB → DB) (socket : Socket.t)
    (reactionId messageId emoji : string) (callback : bool) (srv : Server)
    : Server * list Outbound :=
  match MessageService.addReaction reactionId messageId (Socket.userId socket)
          emoji (db srv) with
  | (inr (action, reaction), db') =>
      let db'' := meanwhile db' in
      (mkServer (onlineUsers srv) db'',
       match (prisma.message.findUnique messageId db'').1 with
       | inr (Some message) =>
           [Announce (room (Message.conversationId message)) "message:reaction"
              (MessageReaction messageId action reaction)]
       | _ => []
       end
       ++ acknowledge callback socket (SucceededWithReaction action reaction))
  | (inl error, db') =>
      (mkServer (onlineUsers srv) db',
       acknowledge callback socket (Failed (errorMessage error)))
  end.

(** [socket.on('conversation:delete', ...)]: each participant who is online
    is told on the socket registered for them. *)
Definition conversationDelete (socket : Socket.t) (conversationId : string)
    (callback : bool) (srv : Server) : Server * list Outbound :=
  match MessageService.deleteConversation conversationId (Socket.userId socket)
          (db srv) with
  | (inr participantIds, db') =>
      (mkServer (onlineUsers srv) db',
       (participantIds ≫= λ participantId,
          match onlineUsers srv !! participantId with
          | Some participantSocketId =>
              if decide (participantSocketId = EmptyString) then []
              else [Announce participantSocketId "conversation:deleted"
                      (ConversationDeleted conversationId)]
          | None => []
          end)
       ++ acknowledge callback socket Succeeded)
  | (inl error, db') =>
      (mkServer (onlineUsers srv) db',
       acknowledge callback socket (Failed (errorMessage error)))
  end.

(** [socket.on('typing:start', ...)] and [socket.on('typing:stop', ...)] *)
Definition typingStart (socket : Socket.t) (conversationId : string)
    (srv : Server) : Server * list Outbound :=
  (srv, [AnnounceToOthers (Socket.id socket) (room conversationId) "typing:start"
           (Typing (Socket.userId socket) conversationId)]).

Definition typingStop (socket : Socket.t) (conversationId : string)
    (srv : Server) : Server * list Outbound :=
  (srv, [AnnounceToOthers (Socket.id socket) (room conversationId) "typing:stop"
           (Typing (Socket.userId socket) conversationId)]).

End Gateway.

(** A request of a connected client to one of these handlers. *)
Inductive Intent : Type :=
  | EditIntent (now : Z) (messageId : string) (content : JsString)
  | DeleteIntent (messageId : string)
  | ReactIntent (reactionId messageId emoji : string)
  | DeleteConversationIntent (conversationId : string).

Definition handle (socket : Socket.t) (intent : Intent) (callback : bool)
    (srv : Server) : Server * list Outbound :=
  match intent with
  | EditIntent now messageId content =>
      Gateway.messageEdit socket now messageId content callback srv
  | DeleteIntent messageId => Gateway.messageDelete socket messageId callback srv
  | ReactIntent reactionId messageId emoji =>
      Gateway.messageReact socket reactionId messageId emoji callback srv
  | DeleteConversationIntent conversationId =>
      Gateway.conversationDelete socket conversationId callback srv
  end.

(** The request to the service that an intent of [socket] amounts to. *)
Definition requestOf (socket : Socket.t) (intent : Intent) : Z * Request :=
  match intent with
  | EditIntent now messageId content =>
      (now, EditMessage messageId (Socket.userId socket) content)
  | DeleteIntent messageId => (0, DeleteMessage messageId (Socket.userId socket))
  | ReactIntent reactionId messageId emoji =>
      (0, AddReaction reactionId messageId (Socket.userId socket) emoji)
  | DeleteConversationIntent conversationId =>
      (0, DeleteConversation conversationId (Socket.userId socket))
  end.

Definition isAcknowledge (o : Outbound) : Prop :=
  match o with Acknowledge _ _ => True | _ => False end.

Global Instance isAcknowledge_dec o : Decision (isAcknowledge o).
Proof. destruct o; simpl; apply _. Defined.


(** * The social feed ([PostService], [services/post.service.ts])

    The rows that [PostService] reads and writes, with the columns the
    service names.  The values the database supplies for a new row, its id
    and its [createdAt], are arguments of the calls that insert. *)

Module Post.
Record t : Type := mk {
  id : string; content : JsString; imageUrl : option string;
  authorId : string; createdAt : Z }.
Definition setContent (content' : JsString) (p : t) : t :=
  mk (id p) content' (imageUrl p) (authorId p) (createdAt p).
End Post.

Module Like.
Record t : Type := mk { id : string; postId : string; userId : string }.
End Like.

Module Comment.
Record t : Type := mk {
  id : string; content : JsString; postId : string; authorId : string;
  createdAt : Z }.
Definition setContent (content' : JsString) (c : t) : t :=
  mk (id c) content' (postId c) (authorId c) (createdAt c).
End Comment.

Global Instance Post_eq_dec : EqDecision Post.t.
Proof. solve_decision. Defined.
Global Instance Like_eq_dec : EqDecision Like.t.
Proof. solve_decision. Defined.
Global Instance Comment_eq_dec : EqDecision Comment.t.
Proof. solve_decision. Defined.

Record FeedDB : Type := mkFeedDB {
  posts : list Post.t;
  likes : list Like.t;
  comments : list Comment.t }.

Definition emptyFeedDB : FeedDB := mkFeedDB [] [] [].

Definition Feed (A : Type) : Type := FeedDB → (AppError + A) * FeedDB.

(** A post with [_count: { select: { likes: true, comments: true } }]. *)
Module PostView.
Record t : Type := mk { post : Post.t; likeCount : nat; commentCount : nat }.
End PostView.

(** An entry of the feed: the post, its counts and the [isLiked] flag. *)
Module FeedItem.
Record t : Type := mk { view : PostView.t; isLiked : bool }.
Definition post (item : t) : Post.t := PostView.post (view item).
End FeedItem.

(** The result of [getPost]: a feed entry with the post's comments. *)
Module PostDetail.
Record t : Type := mk { item : FeedItem.t; comments : list Comment.t }.
End PostDetail.

(** [orderBy: { createdAt: 'desc' }] on posts and
    [orderBy: { createdAt: 'asc' }] on comments. *)
Definition postNewerFirst (a b : Post.t) : Prop :=
  Post.createdAt b ≤ Post.createdAt a.

Global Instance postNewerFirst_dec a b : Decision (postNewerFirst a b).
Proof. unfold postNewerFirst. apply _. Defined.

Global Instance postNewerFirst_total : Total postNewerFirst.
Proof. intros a b. unfold postNewerFirst. lia. Qed.

Global Instance postNewerFirst_transitive : Transitive postNewerFirst.
Proof. intros a b c. unfold postNewerFirst. lia. Qed.

Definition commentOlderFirst (a b : Comment.t) : Prop :=
  Comment.createdAt a ≤ Comment.createdAt b.

Global Instance commentOlderFirst_dec a b : Decision (commentOlderFirst a b).
Proof. unfold commentOlderFirst. apply _. Defined.

Global Instance commentOlderFirst_total : Total commentOlderFirst.
Proof. intros a b. unfold commentOlderFirst. lia. Qed.

Global Instance commentOlderFirst_transitive : Transitive commentOlderFirst.
Proof. intros a b c. unfold commentOlderFirst. lia. Qed.

(** What the database answers to
    [prisma.post.findMany({ skip, take, orderBy: { createdAt: 'desc' } })].
    Two things are in no source and are left to it: the order it gives to
    posts with the same [createdAt], which may differ from one query to the
    next, and its answer to a negative [skip] or [take].  [ordered] is the
    table in the order the database uses for this query, [outside] its
    answer off the domain [0 ≤ skip], [0 ≤ take]. *)
Module FindMany.
Record t : Type := mk {
  ordered : list Post.t;
  outside : Z → Z → AppError + list Post.t }.

Definition run (database : t) (skip take : Z) : AppError + list Post.t :=
  if decide (0 ≤ skip ∧ 0 ≤ take)
  then inr (list.take (Z.to_nat take) (drop (Z.to_nat skip) (ordered database)))
  else outside database skip take.
End FindMany.

(** [rows] is the posts table in an order that [orderBy: { createdAt:
    'desc' }] allows. *)
Definition newestFirstOf (db : FeedDB) (rows : list Post.t) : Prop :=
  rows ≡ₚ posts db ∧ StronglySorted postNewerFirst rows.

Module PostService.

Definition findPost (postId : string) (db : FeedDB) : option Post.t :=
  prisma.findFirst (λ p, Post.id p = postId) (posts db).

Definition findComment (commentId : string) (db : FeedDB) : option Comment.t :=
  prisma.findFirst (λ c, Comment.id c = commentId) (comments db).

(** [findUnique({ where: { postId_userId: { postId, userId } } })] *)
Definition findLike (postId userId : string) (db : FeedDB) : option Like.t :=
  prisma.findFirst (λ l, Like.postId l = postId ∧ Like.userId l = userId)
    (likes db).

Definition counted (db : FeedDB) (post : Post.t) : PostView.t :=
  PostView.mk post
    (length (filter (λ l, Like.postId l = Post.id post) (likes db)))
    (length (filter (λ c, Comment.postId c = Post.id post) (comments db))).

(** [likes: userId ? { where: { userId }, select: { id: true } } : false]
    followed by
    [isLiked: userId && Array.isArray(post.likes) ? post.likes.length > 0 : false]:
    an absent and an empty [userId] are both falsy. *)
Definition isLiked (db : FeedDB) (userId : option string) (post : Post.t) : bool :=
  match userId with
  | Some u =>
      if decide (u = EmptyString) then false
      else bool_decide
             (0 < length (filter (λ l, Like.postId l = Post.id post
                                       ∧ Like.userId l = u) (likes db)))%nat
  | None => false
  end.

Definition transformed (db : FeedDB) (userId : option string) (post : Post.t)
    : FeedItem.t :=
  FeedItem.mk (counted db post) (isLiked db userId post).

Definition createPost (id : string) (createdAt : Z) (userId : string)
    (content : JsString) (imageUrl : option string) : Feed PostView.t :=
  λ db,
    if decide (id ∈ Post.id <$> posts db) then (inl prisma.P2002, db)
    else
      let post := Post.mk id (sanitizeString content) imageUrl userId createdAt in
      let db' := mkFeedDB (posts db ++ [post]) (likes db) (comments db) in
      (inr (counted db' post), db').

(** [getFeed(userId, page = 1, limit = 20)]; an argument left out takes its
    default.  The posts are those that [findMany] answers, transformed. *)
Definition getFeed (database : FindMany.t) (userId : option string)
    (page limit : option Z) : Feed (list FeedItem.t) :=
  λ db,
    let page := default 1 page in
    let limit := default 20 limit in
    let skip := (page - 1) * limit in
    match FindMany.run database skip limit with
    | inr posts => (inr (transformed db userId <$> posts), db)
    | inl error => (inl error, db)
    end.

Definition getPost (postId : string) (userId : option string)
    : Feed PostDetail.t :=
  λ db,
    match findPost postId db with
    | None => (inl (NotFoundError "Post not found"), db)
    | Some post =>
        (inr (PostDetail.mk (transformed db userId post)
                (merge_sort commentOlderFirst
                   (filter (λ c, Comment.postId c = Post.id post) (comments db)))),
         db)
    end.

Definition updatePost (postId userId : string) (content : JsString)
    : Feed PostView.t :=
  λ db,
    match findPost postId db with
    | None => (inl (NotFoundError "Post not found"), db)
    | Some post =>
        if decide (Post.authorId post ≠ userId)
        then (inl (ForbiddenError "You can only edit your own posts"), db)
        else
          let updatedPost := Post.setContent (sanitizeString content) post in
          let db' :=
            mkFeedDB ((λ p, if decide (Post.id p = postId)
                            then Post.setContent (sanitizeString content) p
                            else p) <$> posts db)
                     (likes db) (comments db) in
          (inr (counted db' updatedPost), db')
    end.

(** [toggleLike]; [likeId] is the id of the row that [like.create] inserts.
    [create] refuses a second row with the same id or the same
    [postId_userId]; [delete] removes the row with the given id. *)
Definition toggleLike (likeId postId userId : string) : Feed bool :=
  λ db,
    match findPost postId db with
    | None => (inl (NotFoundError "Post not found"), db)
    | Some _ =>
        match findLike postId userId db with
        | Some existingLike =>
            if decide (Like.id existingLike ∈ Like.id <$> likes db)
            then (inr false,
                  mkFeedDB (posts db)
                    (filter (λ l, Like.id l ≠ Like.id existingLike) (likes db))
                    (comments db))
            else (inl prisma.P2025, db)
        | None =>
            if decide (likeId ∈ Like.id <$> likes db
                       ∨ Exists (λ l, Like.postId l = postId
                                      ∧ Like.userId l = userId) (likes db))
            then (inl prisma.P2002, db)
            else (inr true,
                  mkFeedDB (posts db)
                    (likes db ++ [Like.mk likeId postId userId]) (comments db))
        end
    end.

Definition addComment (commentId : string) (createdAt : Z)
    (postId userId : string) (content : JsString) : Feed Comment.t :=
  λ db,
    match findPost postId db with
    | None => (inl (NotFoundError "Post not found"), db)
    | Some _ =>
        if decide (commentId ∈ Comment.id <$> comments db)
        then (inl prisma.P2002, db)
        else
          let comment :=
            Comment.mk commentId (sanitizeString content) postId userId
              createdAt in
          (inr comment,
           mkFeedDB (posts db) (likes db) (comments db ++ [comment]))
    end.

Definition updateComment (commentId userId : string) (content : JsString)
    : Feed Comment.t :=
  λ db,
    match findComment commentId db with
    | None => (inl (NotFoundError "Comment not found"), db)
    | Some comment =>
        if decide (Comment.authorId comment ≠ userId)
        then (inl (ForbiddenError "You can only edit your own comments"), db)
        else
          (inr (Comment.setContent (sanitizeString content) comment),
           mkFeedDB (posts db) (likes db)
             ((λ c, if decide (Comment.id c = commentId)
                    then Comment.setContent (sanitizeString content) c
                    else c) <$> comments db))
    end.

Definition deleteComment (commentId userId : string) : Feed unit :=
  λ db,
    match findComment commentId db with
    | None => (inl (NotFoundError "Comment not found"), db)
    | Some comment =>
        if decide (Comment.authorId comment ≠ userId)
        then (inl (ForbiddenError "You can only delete your own comments"), db)
        else
          (inr tt,
           mkFeedDB (posts db) (likes db)
             (filter (λ c, Comment.id c ≠ commentId) (comments db)))
    end.

End PostService.

(** The writes of [PostService], for statements about every one of them.
    ([deletePost] is left out: what becomes of the post's likes and comments
    is decided by the schema, which is not among the sources.) *)
Inductive FeedRequest : Type :=
  | CreatePost (id : string) (createdAt : Z) (userId : string)
      (content : JsString) (imageUrl : option string)
  | UpdatePost (postId userId : string) (content : JsString)
  | ToggleLike (likeId postId userId : string)
  | AddComment (commentId : string) (createdAt : Z) (postId userId : string)
      (content : JsString)
  | UpdateComment (commentId userId : string) (content : JsString)
  | DeleteComment (commentId userId : string).

Definition requester (r : FeedRequest) : string :=
  match r with
  | CreatePost _ _ userId _ _ | UpdatePost _ userId _ | ToggleLike _ _ userId
  | AddComment _ _ _ userId _ | UpdateComment _ userId _
  | DeleteComment _ userId => userId
  end.

(** The store after [PostService] has served a request, whether it returned
    or threw. *)
Definition serveFeed (r : FeedRequest) (db : FeedDB) : FeedDB :=
  match r with
  | CreatePost id createdAt u content imageUrl =>
      (PostService.createPost id createdAt u content imageUrl db).2
  | UpdatePost p u content => (PostService.updatePost p u content db).2
  | ToggleLike l p u => (PostService.toggleLike l p u db).2
  | AddComment c createdAt p u content =>
      (PostService.addComment c createdAt p u content db).2
  | UpdateComment c u content => (PostService.updateComment c u content db).2
  | DeleteComment c u => (PostService.deleteComment c u db).2
  end.

Definition runFeed (requests : list FeedRequest) (db : FeedDB) : FeedDB :=
  foldl (λ db r, serveFeed r db) db requests.

(** The keys of the feed's tables: ids, and [postId_userId] on likes. *)
Definition feedKeys (db : FeedDB) : Prop :=
  NoDup (Post.id <$> posts db)
  ∧ NoDup (Like.id <$> likes db)
  ∧ NoDup ((λ l, (Like.postId l, Like.userId l)) <$> likes db)
  ∧ NoDup (Comment.id <$> comments db).

(** ** The HTTP controllers' paging
    ([api/controllers/message.controller.ts], [post.controller.ts]) *)

(** [parseInt(query) || fallback]: [None] stands for [NaN], the result of
    [parseInt] on a missing or non-numeric parameter; [NaN] and [0] are
    falsy. *)
Definition orElse (parsed : option Z) (fallback : Z) : Z :=
  match parsed with
  | Some n => if decide (n = 0) then fallback else n
  | None => fallback
  end.

Record Pagination : Type := mkPagination {
  page : Z; limit : Z; hasMore : bool }.

Module MessageController.

(** [GET /api/conversations/:id/messages]; an error of the service goes
    to the error handler. *)
Definition getMessages (now : Z) (id userId : string)
    (pageQuery limitQuery : option Z)
    : Prisma (list Message.t * Pagination) :=
  let page := orElse pageQuery 1 in
  let limit := orElse limitQuery 50 in
  let* messages := MessageService.getMessages now id userId page limit in
  ret (messages,
       mkPagination page limit
         (bool_decide (Z.of_nat (length messages) = limit))).

End MessageController.

Module PostController.

(** [GET /api/posts] *)
Definition getFeed (database : FindMany.t) (userId : option string)
    (pageQuery limitQuery : option Z) : Feed (list FeedItem.t * Pagination) :=
  λ db,
    let page := orElse pageQuery 1 in
    let limit := orElse limitQuery 20 in
    match PostService.getFeed database userId (Some page) (Some limit) db with
    | (inr posts, db') =>
        (inr (posts,
              mkPagination page limit
                (bool_decide (Z.of_nat (length posts) = limit))), db')
    | (inl error, db') => (inl error, db')
    end.

End PostController.


(** * The client's chat store ([store/useChatStore.ts])

    The state that the client keeps of its conversations, with the fields
    of [types.ts] that the store reads or writes; the other fields of a
    conversation or message are carried along unchanged. *)

Module ChatMessage.
Record t : Type := mk {
  id : string; content : string; senderId : string;
  conversationId : string; createdAt : string }.
End ChatMessage.

Module ChatConversation.
Record t : Type := mk {
  id : string; participants : list string;
  messages : list ChatMessage.t; lastMessageAt : string }.
End ChatConversation.

Global Instance ChatMessage_eq_dec : EqDecision ChatMessage.t.
Proof. solve_decision. Defined.
Global Instance ChatConversation_eq_dec : EqDecision ChatConversation.t.
Proof. solve_decision. Defined.

Module ChatState.
Record t : Type := mk {
  conversations : list ChatConversation.t;
  activeConversationId : option string;
  onlineUsers : list string;
  typingUsers : gmap string (list string) }.
End ChatState.

(** The property names that every plain object inherits from
    [Object.prototype] (ECMAScript 2023, 20.1.3 and B.2.2). *)
Definition inheritedKeys : list string :=
  ["constructor"; "hasOwnProperty"; "isPrototypeOf"; "propertyIsEnumerable";
   "toLocaleString"; "toString"; "valueOf"; "__proto__";
   "__defineGetter__"; "__defineSetter__";
   "__lookupGetter__"; "__lookupSetter__"].

(** What reading a property of the object [typingUsers] gives. *)
Inductive JsProperty : Type :=
  | OwnArray (userIds : list string)
  | Inherited
  | Undefined.

(** [[...new Set(l)]]: a [Set] keeps the first insertion of each value, in
    insertion order. *)
Definition fromSet (l : list string) : list string :=
  foldl (λ seen x, if decide (x ∈ seen) then seen else seen ++ [x]) [] l.

Module useChatStore.

Definition initial : ChatState.t := ChatState.mk [] None [] ∅.

Definition setConversations (conversations : list ChatConversation.t)
    (state : ChatState.t) : ChatState.t :=
  ChatState.mk conversations (ChatState.activeConversationId state)
    (ChatState.onlineUsers state) (ChatState.typingUsers state).

Definition setActiveConversation (id : option string) (state : ChatState.t)
    : ChatState.t :=
  ChatState.mk (ChatState.conversations state) id
    (ChatState.onlineUsers state) (ChatState.typingUsers state).

Definition addMessage (message : ChatMessage.t) (state : ChatState.t)
    : ChatState.t :=
  ChatState.mk
    ((λ c,
        if decide (ChatConversation.id c = ChatMessage.conversationId message)
        then
          if decide (Exists (λ m, ChatMessage.id m = ChatMessage.id message)
                       (ChatConversation.messages c))
          then c
          else ChatConversation.mk (ChatConversation.id c)
                 (ChatConversation.participants c)
                 (ChatConversation.messages c ++ [message])
                 (ChatMessage.createdAt message)
        else c) <$> ChatState.conversations state)
    (ChatState.activeConversationId state)
    (ChatState.onlineUsers state) (ChatState.typingUsers state).

Definition updateMessage (message : ChatMessage.t) (state : ChatState.t)
    : ChatState.t :=
  ChatState.mk
    ((λ c,
        if decide (ChatConversation.id c = ChatMessage.conversationId message)
        then ChatConversation.mk (ChatConversation.id c)
               (ChatConversation.participants c)
               ((λ m, if decide (ChatMessage.id m = ChatMessage.id message)
                      then message else m) <$> ChatConversation.messages c)
               (ChatConversation.lastMessageAt c)
        else c) <$> ChatState.conversations state)
    (ChatState.activeConversationId state)
    (ChatState.onlineUsers state) (ChatState.typingUsers state).

Definition removeMessage (messageId conversationId : string)
    (state : ChatState.t) : ChatState.t :=
  ChatState.mk
    ((λ c,
        if decide (ChatConversation.id c = conversationId)
        then ChatConversation.mk (ChatConversation.id c)
               (ChatConversation.participants c)
               (filter (λ m, ChatMessage.id m ≠ messageId)
                  (ChatConversation.messages c))
               (ChatConversation.lastMessageAt c)
        else c) <$> ChatState.conversations state)
    (ChatState.activeConversationId state)
    (ChatState.onlineUsers state) (ChatState.typingUsers state).

Definition removeConversation (conversationId : string) (state : ChatState.t)
    : ChatState.t :=
  ChatState.mk
    (filter (λ c, ChatConversation.id c ≠ conversationId)
       (ChatState.conversations state))
    (if decide (ChatState.activeConversationId state = Some conversationId)
     then None else ChatState.activeConversationId state)
    (ChatState.onlineUsers state) (ChatState.typingUsers state).

(** [state.typingUsers[conversationId]].  [typingUsers] is a plain object:
    a name that it does not hold itself is looked up on [Object.prototype],
    where the names of [inheritedKeys] yield a function or the prototype
    object, and every other name [undefined]. *)
Definition typingIn (state : ChatState.t) (conversationId : string)
    : JsProperty :=
  match ChatState.typingUsers state !! conversationId with
  | Some userIds => OwnArray userIds
  | None =>
      if decide (conversationId ∈ inheritedKeys) then Inherited else Undefined
  end.

(** [setTyping]; [None] stands for the [TypeError] that the update function
    throws, upon which [set] stores nothing.  With
    [state.typingUsers[conversationId] || []] an inherited value, which is
    truthy, becomes [currentTyping]; it cannot be spread into an array and
    has no [filter]. *)
Definition setTyping (conversationId userId : string) (isTyping : bool)
    (state : ChatState.t) : option ChatState.t :=
  let store (currentTyping : list string) : ChatState.t :=
    let newTyping :=
      if isTyping then fromSet (currentTyping ++ [userId])
      else filter (λ id, id ≠ userId) currentTyping in
    ChatState.mk (ChatState.conversations state)
      (ChatState.activeConversationId state) (ChatState.onlineUsers state)
      (<[conversationId := newTyping]> (ChatState.typingUsers state)) in
  match typingIn state conversationId with
  | OwnArray currentTyping => Some (store currentTyping)
  | Undefined => Some (store [])
  | Inherited => None
  end.

Definition setOnlineUsers (userIds : list string) (state : ChatState.t)
    : ChatState.t :=
  ChatState.mk (ChatState.conversations state)
    (ChatState.activeConversationId state) userIds
    (ChatState.typingUsers state).

End useChatStore.

(** A typing event as the client receives it: conversation, user, and
    whether it is [typing:start]. *)
Record TypingEvent : Type := mkTypingEvent {
  typingConversation : string; typingUser : string; typingStarted : bool }.

(** The state after the event: an update that throws leaves it as it was. *)
Definition applyTyping (state : ChatState.t) (e : TypingEvent) : ChatState.t :=
  default state
    (useChatStore.setTyping (typingConversation e) (typingUser e)
       (typingStarted e) state).


(** * Properties *)

Ltac prisma_unfold :=
  unfold bind, ret, throw, gets in *.

(** A decidable closed proposition, settled by evaluating its decision. *)
Ltac by_decision :=
  refine (bool_decide_unpack _ _); vm_compute; exact I.


(** ** Presence registry *)

(** C1 (as stated) fails: a socket superseded by a newer connection of the
    same user evicts the newer session's entry when it disconnects. *)
Lemma stale_disconnect_evicts_newer_session : ¬ unregisterIsGuarded.
Proof.
  intros guarded.
  pose (older := Socket.mk "socket-1" "alice").
  pose (newer := Socket.mk "socket-2" "alice").
  pose (srv := (Handlers.connection newer
                  (Handlers.connection older (mkServer ∅ emptyDB)).1).1).
  assert (superseded :
            onlineUsers srv !! Socket.userId older ≠ Some (Socket.id older))
    by (vm_compute; intros [=]).
  specialize (guarded older srv superseded).
  vm_compute in guarded. discriminate guarded.
Qed.

(** C1 (amended): a disconnect removes the registry entry of the
    disconnecting socket's user whatever handle it maps to, leaves every other
    user's entry and the store as they were, and announces [user:offline]. *)
Theorem disconnect_unregisters_unconditionally :
  ∀ (socket : Socket.t) (srv : Server) (userId : string),
    onlineUsers (Handlers.disconnect socket srv).1 !! userId
    = (if decide (userId = Socket.userId socket) then None
       else onlineUsers srv !! userId)
    ∧ db (Handlers.disconnect socket srv).1 = db srv
    ∧ (Handlers.disconnect socket srv).2
      = [BroadcastFrom (Socket.id socket) "user:offline"
           (UserPayload (Socket.userId socket))].
Proof.
  intros socket srv userId. simpl. split; [|done].
  case_decide as Hu.
  - subst. apply lookup_delete_eq.
  - apply lookup_delete_ne. congruence.
Qed.

(** ** Sending over the realtime channel *)

(** C2 (the code departs from it): [message:send] hands the content to the
    service unchecked.  Content that [validateSendMessage] refuses, empty or
    longer than the limit, is persisted, broadcast to the room, pushed to the
    recipient and acknowledged as a success. *)
Theorem messageSend_persists_invalid_content :
  let socket := Socket.mk "socket-1" "alice" in
  let ids := mkConversationIds "c1" "p1" "p2" in
  let srv := mkServer {[ "bob" := "socket-2" ]} emptyDB in
  let stored content :=
    Message.mk "m1" content "c1" "alice" 1000 false None in
  let after content :=
    mkServer {[ "bob" := "socket-2" ]}
      (mkDB [Conversation.mk "c1" 1000]
            [Participant.mk "p1" "c1" "alice" 1000;
             Participant.mk "p2" "c1" "bob" 1000]
            [stored content] []) in
  let emitted content :=
    [EmitTo "conversation:c1" "message:new" (MessagePayload (stored content));
     EmitTo "socket-2" "conversation:update"
       (ConversationUpdatePayload "c1" (stored content));
     Callback "socket-1" (AckSuccess (stored content))] in
  let long := replicate (Z.to_nat 10001) 97%N in
  validateSendMessage (Some []) (Some (js "bob"))
    = Some (ValidationError "Missing required fields: content")
  ∧ Handlers.messageSend socket ids "m1" 1000 "bob" [] true srv
    = (after [], emitted [])
  ∧ validateSendMessage (Some long) (Some (js "bob"))
    = Some (ValidationError "Message content cannot exceed 10000 characters")
  ∧ Handlers.messageSend socket ids "m1" 1000 "bob" long true srv
    = (after long, emitted long).
Proof. vm_compute. repeat split; reflexivity. Qed.

(** ** Editing *)



(** ** Facts about [findFirst] *)

Section findFirst.
Context {A : Type}.
Implicit Types (P Q : A → Prop) (l : list A).

Lemma findFirst_ext P Q `{!∀ x, Decision (P x), !∀ x, Decision (Q x)} l :
  (∀ x, x ∈ l → P x ↔ Q x) → prisma.findFirst P l = prisma.findFirst Q l.
Proof.
  unfold prisma.findFirst. intros same.
  induction l as [|x l IH]; [reflexivity|].
  assert (rest : ∀ y, y ∈ l → P y ↔ Q y)
    by (intros y Hy; apply same; now right).
  rewrite !filter_cons.
  destruct (decide (P x)) as [HP|HP], (decide (Q x)) as [HQ|HQ]; simpl.
  - reflexivity.
  - exfalso. apply HQ, same; [left | exact HP].
  - exfalso. apply HP, same; [left | exact HQ].
  - now apply IH.
Qed.

Lemma findFirst_None P `{!∀ x, Decision (P x)} l :
  prisma.findFirst P l = None ↔ ∀ x, x ∈ l → ¬ P x.
Proof.
  unfold prisma.findFirst. rewrite head_None. split.
  - intros empty x Hx HP. eapply filter_nil_not_elem_of; eauto.
  - intros none. induction l as [|x l IH]; [reflexivity|].
    rewrite filter_cons_False by (apply none; left).
    apply IH. intros y Hy. apply none. now right.
Qed.

Lemma findFirst_app_None P `{!∀ x, Decision (P x)} l1 l2 :
  prisma.findFirst P l1 = None →
  prisma.findFirst P (l1 ++ l2) = prisma.findFirst P l2.
Proof.
  unfold prisma.findFirst. rewrite head_None, filter_app.
  now intros ->.
Qed.

Lemma findFirst_Some P `{!∀ x, Decision (P x)} l x :
  prisma.findFirst P l = Some x → x ∈ l ∧ P x.
Proof.
  unfold prisma.findFirst. intros found.
  assert (x ∈ filter P l) as [? ?]%list_elem_of_filter; [|done].
  destruct (filter P l); simplify_eq/=. left.
Qed.
End findFirst.

(** ** Conversations: find or create *)

(** The rows a new conversation adds do not change which older
    conversations a user takes part in. *)
Lemma someParticipant_create db ids now user1Id user2Id userId conversationId :
  conversationId ≠ newConversationId ids →
  prisma.someParticipant
    (mkDB (conversations db ++ [Conversation.mk (newConversationId ids) now])
       (participants db ++
          [Participant.mk (newParticipantId1 ids) (newConversationId ids) user1Id now;
           Participant.mk (newParticipantId2 ids) (newConversationId ids) user2Id now])
       (messages db) (reactions db)) userId conversationId
  ↔ prisma.someParticipant db userId conversationId.
Proof.
  intros other. unfold prisma.someParticipant. simpl.
  rewrite Exists_app, !Exists_cons, Exists_nil. simpl.
  intuition congruence.
Qed.

(** C3: for distinct users, once [getOrCreateConversation] has returned a
    conversation, that conversation is stored with both users as its
    participants: it is the one that existed between them, with the store
    untouched, or else the one the call has created with its two
    participant rows.  A second call with the two users in either order
    finds it: it returns that same conversation and leaves the store as it
    is, so nothing is created twice.  The first call does return when the
    ids generated for the rows it may have to create are fresh. *)
Theorem getOrCreateConversation_twice :
  ∀ (ids : ConversationIds) (now : Z) (userA userB : string) (db : DB),
    userA ≠ userB →
    (freshConversationIds ids db →
     ∃ (conversation : Conversation.t) (db1 : DB),
       MessageService.getOrCreateConversation ids now userA userB db
       = (inr conversation, db1))
    ∧ ∀ (conversation : Conversation.t) (db1 : DB),
        MessageService.getOrCreateConversation ids now userA userB db
        = (inr conversation, db1) →
        conversation ∈ conversations db1
        ∧ prisma.between db1 userA userB conversation
        ∧ match prisma.findFirst (prisma.between db userA userB)
                  (conversations db) with
          | Some existing => conversation = existing ∧ db1 = db
          | None =>
              conversation = Conversation.mk (newConversationId ids) now
              ∧ db1 = mkDB (conversations db ++ [conversation])
                        (participants db
                         ++ [Participant.mk (newParticipantId1 ids)
                               (newConversationId ids) userA now;
                             Participant.mk (newParticipantId2 ids)
                               (newConversationId ids) userB now])
                        (messages db) (reactions db)
          end
        ∧ ∀ (ids' : ConversationIds) (now' : Z),
            MessageService.getOrCreateConversation ids' now' userA userB db1
            = (inr conversation, db1)
            ∧ MessageService.getOrCreateConversation ids' now' userB userA db1
              = (inr conversation, db1).
Proof.
  intros ids now userA userB db distinct.
  assert (swap : ∀ db0 l,
             prisma.findFirst (prisma.between db0 userB userA) l
             = prisma.findFirst (prisma.between db0 userA userB) l).
  { intros db0 l. apply findFirst_ext. unfold prisma.between. tauto. }
  assert (lookup : ∀ ids0 now0 db0 c,
             prisma.findFirst (prisma.between db0 userA userB) (conversations db0)
             = Some c →
             MessageService.getOrCreateConversation ids0 now0 userA userB db0
             = (inr c, db0)
             ∧ MessageService.getOrCreateConversation ids0 now0 userB userA db0
               = (inr c, db0)).
  { intros ids0 now0 db0 c found.
    unfold MessageService.getOrCreateConversation,
      prisma.conversation.findFirstBetween.
    rewrite (decide_False (P := userA = userB)) by done.
    rewrite (decide_False (P := userB = userA)) by congruence.
    prisma_unfold. rewrite swap, found. done. }
  destruct (prisma.findFirst (prisma.between db userA userB) (conversations db))
    as [existing|] eqn:found.
  - destruct (lookup ids now db existing found) as [first _].
    split; [intros _; now exists existing, db|].
    intros conversation db1. rewrite first. intros [= <- <-].
    pose proof (findFirst_Some _ _ _ found) as [stored both].
    split; [exact stored|]. split; [exact both|]. split; [now split|].
    intros ids' now'. now apply lookup.
  - set (created := Conversation.mk (newConversationId ids) now).
    set (db1 := mkDB (conversations db ++ [created])
           (participants db ++
              [Participant.mk (newParticipantId1 ids) (newConversationId ids) userA now;
               Participant.mk (newParticipantId2 ids) (newConversationId ids) userB now])
           (messages db) (reactions db)).
    assert (first : MessageService.getOrCreateConversation ids now userA userB db
                    = if decide (freshConversationIds ids db)
                      then (inr created, db1) else (inl prisma.P2002, db)).
    { unfold MessageService.getOrCreateConversation,
        prisma.conversation.findFirstBetween.
      rewrite (decide_False (P := userA = userB)) by done.
      prisma_unfold. rewrite found.
      unfold prisma.conversation.create, freshConversationIds.
      destruct (decide (_ ∨ _)) as [clash|free];
        [rewrite decide_False by tauto | rewrite decide_True by tauto];
        reflexivity. }
    rewrite first. split.
    + intros fresh. rewrite decide_True by exact fresh. now exists created, db1.
    + intros conversation db1'.
      destruct (decide (freshConversationIds ids db))
        as [(freshC & _)|]; [|discriminate].
      intros [= <- <-].
      assert (both : prisma.between db1 userA userB created).
      { subst db1 created.
        unfold prisma.between, prisma.someParticipant. simpl.
        rewrite !Exists_app, !Exists_cons. simpl. split.
        - right. now left.
        - right. right. now left. }
      split; [subst db1; simpl; apply elem_of_app; right; left|].
      split; [exact both|]. split; [now split|].
      intros ids' now'. apply lookup.
      subst db1 created. simpl. rewrite findFirst_app_None.
      * unfold prisma.findFirst. rewrite filter_cons_True; [reflexivity|].
        exact both.
      * apply findFirst_None. intros c Hc.
        assert (Conversation.id c ≠ newConversationId ids) as other.
        { intros same. apply freshC. rewrite <- same.
          now apply list_elem_of_fmap_2. }
        unfold prisma.between. rewrite !someParticipant_create by done.
        exact (proj1 (findFirst_None (prisma.between db userA userB)
                        (conversations db)) found c Hc).
Qed.

Lemma getOrCreateConversation_twice_witness :
  let ids := mkConversationIds "c1" "p1" "p2" in
  let conversation := Conversation.mk "c1" 1000 in
  let db1 := mkDB [conversation]
               [Participant.mk "p1" "c1" "alice" 1000;
                Participant.mk "p2" "c1" "bob" 1000] [] [] in
  MessageService.getOrCreateConversation ids 1000 "alice" "bob" emptyDB
  = (inr conversation, db1)
  ∧ conversation ∈ conversations db1
  ∧ prisma.between db1 "alice" "bob" conversation
  ∧ ∀ (ids' : ConversationIds) (now' : Z),
      MessageService.getOrCreateConversation ids' now' "alice" "bob" db1
      = (inr conversation, db1)
      ∧ MessageService.getOrCreateConversation ids' now' "bob" "alice" db1
        = (inr conversation, db1).
Proof.
  intros ids conversation db1.
  assert (distinct : "alice" ≠ "bob") by (intros [=]).
  destruct (getOrCreateConversation_twice ids 1000 "alice" "bob" emptyDB distinct)
    as [returns again].
  destruct returns as (c & db' & first); [by_decision|].
  destruct (again c db' first) as (stored & both & (-> & ->) & second).
  split; [exact first|]. split; [exact stored|]. split; [exact both|].
  exact second.
Defined.

(** ** Reactions *)

Lemma filter_all {A} (P : A → Prop) `{!∀ x, Decision (P x)} (l : list A) :
  (∀ x, x ∈ l → P x) → filter P l = l.
Proof.
  induction l as [|x l IH]; intros all; [reflexivity|].
  rewrite filter_cons_True by (apply all; left).
  f_equal. apply IH. intros y Hy. apply all. now right.
Qed.

Lemma filter_none {A} (P : A → Prop) `{!∀ x, Decision (P x)} (l : list A) :
  (∀ x, x ∈ l → ¬ P x) → filter P l = [].
Proof.
  induction l as [|x l IH]; intros none; [reflexivity|].
  rewrite filter_cons_False by (apply none; left).
  apply IH. intros y Hy. apply none. now right.
Qed.



(** ** Deleting a conversation *)

(** C4 (as stated) fails: after the deletion no participant row is left, so
    [getMessages] answers [ForbiddenError] to everyone, the former
    participants included; it neither returns the empty list nor
    [NotFoundError]. *)
Lemma deleted_conversation_reads_forbidden : ¬ deletedReadsEmptyOrNotFound.
Proof.
  intros claim.
  pose (db := mkDB [Conversation.mk "c1" 10]
                [Participant.mk "p1" "c1" "alice" 10;
                 Participant.mk "p2" "c1" "bob" 10]
                [Message.mk "m1" (js "hello") "c1" "alice" 10 false None]
                [Reaction.mk "r1" "m1" "bob" "+1"]).
  assert (deleted : MessageService.deleteConversation "c1" "bob" db
                    = (inr ["alice"; "bob"], emptyDB))
    by (vm_compute; reflexivity).
  destruct (claim "c1" "bob" db emptyDB ["alice"; "bob"] deleted 20 "alice" 1 50)
    as [empty | [message notFound]].
  - vm_compute in empty. discriminate empty.
  - vm_compute in notFound. discriminate notFound.
Qed.

(** C4 (amended): [deleteConversation] writes all or nothing.  If it throws,
    the store is as before.  For an existing conversation and an actor who
    takes part in it, it returns the participants' user ids, and afterwards
    the conversation, its participant rows, its messages and the reactions on
    them are gone, every other row is kept, and [getMessages] on that
    conversation id fails with [ForbiddenError] for every user. *)
Theorem deleteConversation_all_or_nothing :
  ∀ (conversationId userId : string) (db : DB),
    (∀ (e : AppError) (db' : DB),
        MessageService.deleteConversation conversationId userId db = (inl e, db') →
        db' = db)
    ∧ ∀ conversation : Conversation.t,
        (prisma.conversation.findUnique conversationId db).1
        = inr (Some conversation) →
        MessageService.isParticipant db conversationId userId →
        ∃ db' : DB,
          MessageService.deleteConversation conversationId userId db
          = (inr (Participant.userId <$>
                    filter (λ p, Participant.conversationId p = conversationId)
                           (participants db)), db')
          ∧ (∀ c, c ∈ conversations db'
                  ↔ c ∈ conversations db ∧ Conversation.id c ≠ conversationId)
          ∧ (∀ p, p ∈ participants db'
                  ↔ p ∈ participants db
                    ∧ Participant.conversationId p ≠ conversationId)
          ∧ (∀ m, m ∈ messages db'
                  ↔ m ∈ messages db ∧ Message.conversationId m ≠ conversationId)
          ∧ (∀ r, r ∈ reactions db'
                  ↔ r ∈ reactions db
                    ∧ ¬ ∃ m, m ∈ messages db
                             ∧ Message.id m = Reaction.messageId r
                             ∧ Message.conversationId m = conversationId)
          ∧ ∀ (now : Z) (reader : string) (page limit : Z),
              MessageService.getMessages now conversationId reader page limit db'
              = (inl (ForbiddenError
                        "You are not a participant in this conversation"), db').
Proof.
  intros conversationId userId db. split.
  - intros e db'.
    unfold MessageService.deleteConversation, prisma.conversation.findUnique,
      prisma.conversation.delete.
    prisma_unfold.
    destruct (prisma.findFirst _ (conversations db)); [|now intros [= _ <-]].
    destruct (negb _); [now intros [= _ <-]|].
    destruct (decide _); [discriminate|now intros [= _ <-]].
  - intros conversation found member.
    unfold prisma.conversation.findUnique in found.
    prisma_unfold. simpl in found. injection found as found.
    apply findFirst_Some in found as [stored sameId].
    unfold MessageService.deleteConversation, prisma.conversation.findUnique,
      prisma.conversation.delete.
    prisma_unfold.
    destruct (prisma.findFirst _ (conversations db)) as [c|] eqn:again.
    2:{ exfalso. exact (proj1 (findFirst_None _ _) again _ stored sameId). }
    rewrite bool_decide_eq_true_2.
    2:{ unfold MessageService.isParticipant, prisma.someParticipant in member.
        apply Exists_exists in member as (p & Hp & Hc & Hu).
        apply Exists_exists. exists p. split; [|exact Hu].
        apply list_elem_of_filter. now split. }
    simpl. rewrite decide_True
      by (rewrite <- sameId; now apply list_elem_of_fmap_2).
    eexists. split; [reflexivity|]. simpl.
    split; [intros c'; rewrite list_elem_of_filter; tauto|].
    split; [intros p; rewrite list_elem_of_filter; tauto|].
    split; [intros m; rewrite list_elem_of_filter; tauto|].
    split.
    + intros r. rewrite list_elem_of_filter, list_elem_of_fmap.
      setoid_rewrite list_elem_of_filter.
      split.
      * intros [gone Hr]. split; [exact Hr|].
        intros (m & Hm & Hid & Hc). apply gone. exists m. now rewrite Hid.
      * intros [Hr kept]. split; [|exact Hr].
        intros (m & Hid & Hc & Hm). apply kept. exists m. now rewrite Hid.
    + intros now reader page limit.
      unfold MessageService.getMessages, prisma.conversationParticipant.findFirst.
      prisma_unfold. simpl.
      replace (prisma.findFirst _ _) with (@None Participant.t); [reflexivity|].
      symmetry. apply findFirst_None.
      intros p [Hp _]%list_elem_of_filter [Hc _]. contradiction.
Qed.

Lemma deleteConversation_all_or_nothing_witness :
  let db := mkDB [Conversation.mk "c1" 10]
                 [Participant.mk "p1" "c1" "alice" 10;
                  Participant.mk "p2" "c1" "bob" 10]
                 [Message.mk "m1" (js "hello") "c1" "alice" 10 false None]
                 [Reaction.mk "r1" "m1" "bob" "+1"] in
  ∃ db' : DB,
    MessageService.deleteConversation "c1" "bob" db = (inr ["alice"; "bob"], db')
    ∧ ∀ (now : Z) (reader : string) (page limit : Z),
        MessageService.getMessages now "c1" reader page limit db'
        = (inl (ForbiddenError
                  "You are not a participant in this conversation"), db').
Proof.
  intros db.
  destruct (proj2 (deleteConversation_all_or_nothing "c1" "bob" db)
              (Conversation.mk "c1" 10))
    as (db' & deleted & _ & _ & _ & _ & forbidden).
  - vm_compute. reflexivity.
  - by_decision.
  - exists db'. split; [exact deleted | exact forbidden].
Defined.

(** ** Reading messages *)


Lemma StronglySorted_take {A} (R : relation A) (n : nat) (l : list A) :
  StronglySorted R l → StronglySorted R (take n l).
Proof.
  intros sorted. rewrite <- (take_drop n l) in sorted.
  now apply StronglySorted_app_1_l in sorted.
Qed.

Lemma StronglySorted_drop {A} (R : relation A) (n : nat) (l : list A) :
  StronglySorted R l → StronglySorted R (drop n l).
Proof.
  intros sorted. rewrite <- (take_drop n l) in sorted.
  now apply StronglySorted_app_1_r in sorted.
Qed.





(** ** The read watermark *)

(** ** Membership steps *)

Lemma conversationIds_update (id : string) (updatedAt : Z)
    (l : list Conversation.t) :
  Conversation.id <$>
    ((λ c, if decide (Conversation.id c = id)
           then Conversation.mk id updatedAt else c) <$> l)
  = Conversation.id <$> l.
Proof.
  rewrite <- list_fmap_compose. apply list_fmap_ext.
  intros _ c _. simpl. now destruct (decide (Conversation.id c = id)).
Qed.

Lemma conversationIds_delete (id : string) (l : list Conversation.t) :
  Conversation.id <$> filter (λ c, Conversation.id c ≠ id) l
  = filter (λ i, i ≠ id) (Conversation.id <$> l).
Proof.
  induction l as [|c l IH]; [reflexivity|].
  rewrite filter_cons. destruct (decide (Conversation.id c ≠ id)).
  - rewrite !fmap_cons, filter_cons_True by done. now rewrite IH.
  - rewrite fmap_cons, filter_cons_False by done. exact IH.
Qed.

(** A step followed by writes that leave the membership tables alone. *)
Lemma MembershipStep_then now before middle after :
  MembershipStep now before middle →
  conversationIds after = conversationIds middle →
  participants after = participants middle →
  MembershipStep now before after.
Proof.
  intros step sameC sameP.
  destruct step; rewrite <- ?sameC, <- ?sameP in *.
  - now apply membership_same.
  - now apply membership_read with id.
  - now apply membership_created
      with conversationId pid1 pid2 user1Id user2Id.
  - now apply membership_deleted with conversationId.
Qed.

Lemma getOrCreateConversation_membership ids now user1Id user2Id db :
  MembershipStep now db
    (MessageService.getOrCreateConversation ids now user1Id user2Id db).2.
Proof.
  unfold MessageService.getOrCreateConversation,
    prisma.conversation.findFirstBetween, prisma.conversation.create.
  prisma_unfold.
  destruct (decide (user1Id = user2Id)) as [|distinct];
    [now apply membership_same|].
  destruct (prisma.findFirst _ (conversations db));
    [now apply membership_same|].
  destruct (decide _) as [|fresh]; [now apply membership_same|].
  apply membership_created
    with (newConversationId ids) (newParticipantId1 ids) (newParticipantId2 ids)
         user1Id user2Id; unfold conversationIds; try tauto.
  cbn [conversations snd]. now rewrite fmap_app.
Qed.

Lemma serve_membership now request db :
  MembershipStep now db (serve now request db).
Proof.
  destruct request; simpl.
  - apply getOrCreateConversation_membership.
  - unfold MessageService.getMessages, prisma.conversationParticipant.findFirst,
      prisma.message.findManyDesc, prisma.conversationParticipant.update.
    prisma_unfold.
    repeat (case_match || case_decide); simplify_eq/=;
      try (now apply membership_same).
    now eapply membership_read.
  - unfold MessageService.sendMessage, bind.
    pose proof (getOrCreateConversation_membership ids now senderId recipientId db)
      as step.
    destruct (MessageService.getOrCreateConversation ids now senderId recipientId db)
      as [[e|c] db1]; simpl in *; [exact step|].
    apply MembershipStep_then with db1; [exact step|..];
      unfold prisma.message.create, prisma.conversation.update, ret,
        conversationIds;
      repeat (case_match || case_decide); simplify_eq/=;
      rewrite ?conversationIds_update; reflexivity.
  - unfold MessageService.editMessage, prisma.message.findUnique,
      prisma.message.update.
    prisma_unfold.
    repeat (case_match || case_decide); simplify_eq/=; now apply membership_same.
  - unfold MessageService.deleteMessage, prisma.message.findUnique,
      prisma.message.delete.
    prisma_unfold.
    repeat (case_match || case_decide); simplify_eq/=; now apply membership_same.
  - unfold MessageService.addReaction, prisma.message.findUnique,
      prisma.reaction.findUnique, prisma.reaction.create, prisma.reaction.delete.
    prisma_unfold.
    repeat (case_match || case_decide); simplify_eq/=; now apply membership_same.
  - unfold MessageService.deleteConversation, prisma.conversation.findUnique,
      prisma.conversation.delete.
    prisma_unfold.
    repeat (case_match || case_decide); simplify_eq/=;
      try (now apply membership_same).
    apply membership_deleted with conversationId; [|reflexivity].
    apply conversationIds_delete.
  - unfold MessageService.markAsRead, prisma.conversationParticipant.findFirst,
      prisma.conversationParticipant.update.
    prisma_unfold.
    repeat (case_match || case_decide); simplify_eq/=;
      try (now apply membership_same).
    now eapply membership_read.
Qed.

Lemma participant_unique_id (l : list Participant.t) (p q : Participant.t) :
  NoDup (Participant.id <$> l) → p ∈ l → q ∈ l →
  Participant.id p = Participant.id q → p = q.
Proof.
  induction l as [|x l IH]; simpl; intros unique Hp Hq same;
    [now apply not_elem_of_nil in Hp|].
  apply NoDup_cons in unique as [fresh unique].
  apply elem_of_cons in Hp as [->|Hp], Hq as [->|Hq].
  - reflexivity.
  - exfalso. apply fresh. rewrite same. now apply list_elem_of_fmap_2.
  - exfalso. apply fresh. rewrite <- same. now apply list_elem_of_fmap_2.
  - now apply IH.
Qed.

Lemma updateWhere_id (id : string) (now : Z) (p : Participant.t) :
  Participant.id (Participant.updateWhere id now p) = Participant.id p
  ∧ Participant.conversationId (Participant.updateWhere id now p)
    = Participant.conversationId p
  ∧ Participant.userId (Participant.updateWhere id now p) = Participant.userId p.
Proof.
  unfold Participant.updateWhere.
  now destruct (decide (Participant.id p = id)).
Qed.

(** Primary keys stay unique: the hypothesis of the next theorem is an
    invariant of the service. *)
Lemma serve_unique_participant_ids now request db :
  NoDup (Participant.id <$> participants db) →
  NoDup (Participant.id <$> participants (serve now request db)).
Proof.
  intros unique.
  destruct (serve_membership now request db)
    as [after _ ->|after id _ ->
       |after c pid1 pid2 u1 u2 _ _ distinct fresh1 fresh2 _ ->|after c _ ->].
  - exact unique.
  - rewrite <- list_fmap_compose.
    erewrite list_fmap_ext; [exact unique|].
    intros _ p _. simpl. apply updateWhere_id.
  - rewrite fmap_app. apply NoDup_app. split; [exact unique|]. split.
    + intros x Hx. simpl. rewrite !elem_of_cons.
      intros [->|[->|Hnil]]; [contradiction..|].
      now apply not_elem_of_nil in Hnil.
    + simpl. apply NoDup_cons. split.
      * rewrite list_elem_of_singleton. exact distinct.
      * apply NoDup_singleton.
  - apply (NoDup_fmap_2_strong Participant.id); [|now apply NoDup_filter,
      (NoDup_fmap_1 Participant.id)].
    intros p q [_ Hp]%list_elem_of_filter [_ Hq]%list_elem_of_filter.
    now apply participant_unique_id with (l := participants db).
Qed.

(** C8: served at time [now], no request lowers a participant's
    [lastReadAt] as long as the clock has not fallen behind it: the row that
    carries the participant's id afterwards holds either the old watermark or
    [now]. *)
Theorem lastReadAt_never_decreases :
  ∀ (now : Z) (request : Request) (db : DB) (p p' : Participant.t),
    NoDup (Participant.id <$> participants db) →
    p ∈ participants db →
    Participant.lastReadAt p ≤ now →
    p' ∈ participants (serve now request db) →
    Participant.id p' = Participant.id p →
    (Participant.lastReadAt p' = Participant.lastReadAt p
     ∨ Participant.lastReadAt p' = now)
    ∧ Participant.lastReadAt p ≤ Participant.lastReadAt p'.
Proof.
  intros now request db p p' unique Hp clock Hp' same.
  assert (kept : p' ∈ participants db → p' = p)
    by (intros old; now apply participant_unique_id with (l := participants db)).
  destruct (serve_membership now request db)
    as [after _ table|after id _ table
       |after c pid1 pid2 u1 u2 _ _ distinct fresh1 fresh2 _ table
       |after c _ table];
    rewrite table in Hp'; clear table.
  - rewrite (kept Hp'). split; [now left | lia].
  - apply list_elem_of_fmap in Hp' as (q & -> & Hq).
    assert (q = p) as ->.
    { apply participant_unique_id with (l := participants db); try done.
      rewrite <- same. symmetry. apply updateWhere_id. }
    unfold Participant.updateWhere.
    destruct (decide (Participant.id p = id)); simpl.
    + split; [now right | exact clock].
    + split; [now left | lia].
  - apply elem_of_app in Hp' as [old|new].
    + rewrite (kept old). split; [now left | lia].
    + exfalso.
      assert (known : Participant.id p ∈ Participant.id <$> participants db)
        by now apply list_elem_of_fmap_2.
      rewrite <- same in known.
      rewrite !elem_of_cons in new.
      destruct new as [->|[->|Hnil]]; [contradiction..|].
      now apply not_elem_of_nil in Hnil.
  - apply list_elem_of_filter in Hp' as [_ old].
    rewrite (kept old). split; [now left | lia].
Qed.

Lemma lastReadAt_never_decreases_witness :
  let db := mkDB [Conversation.mk "c1" 10]
                 [Participant.mk "p1" "c1" "alice" 10;
                  Participant.mk "p2" "c1" "bob" 10] [] [] in
  let p := Participant.mk "p1" "c1" "alice" 10 in
  let p' := Participant.mk "p1" "c1" "alice" 100 in
  (Participant.lastReadAt p' = Participant.lastReadAt p
   ∨ Participant.lastReadAt p' = 100)
  ∧ Participant.lastReadAt p ≤ Participant.lastReadAt p'.
Proof.
  intros db p p'.
  apply (lastReadAt_never_decreases 100 (MarkAsRead "c1" "alice") db p p').
  - by_decision.
  - by_decision.
  - simpl. lia.
  - by_decision.
  - reflexivity.
Defined.

(** ** Sanitised content *)

Lemma unwords_cons (w : JsString) (rest : list JsString) :
  unwords (w :: rest) = w ++ tailWords rest.
Proof. destruct rest; simpl; [now rewrite app_nil_r | reflexivity]. Qed.

Lemma trimStart_snoc (l : JsString) (c : N) :
  trimStart (l ++ [c])
  = match trimStart l with
    | [] => if isWhiteSpace c then [] else [c]
    | _ :: _ => trimStart l ++ [c]
    end.
Proof.
  induction l as [|x l IH]; simpl; [reflexivity|].
  destruct (isWhiteSpace x); [exact IH | reflexivity].
Qed.

Lemma trimEnd_cons (c : N) (s : JsString) :
  trimEnd (c :: s)
  = match trimEnd s with
    | [] => if isWhiteSpace c then [] else [c]
    | _ :: _ => c :: trimEnd s
    end.
Proof.
  unfold trimEnd. rewrite reverse_cons, trimStart_snoc.
  destruct (trimStart (reverse s)) as [|y t] eqn:cut.
  - simpl. now destruct (isWhiteSpace c).
  - rewrite reverse_app. simpl.
    destruct (reverse (y :: t)) eqn:flipped; [|reflexivity].
    apply (f_equal length) in flipped. rewrite length_reverse in flipped.
    discriminate flipped.
Qed.

Lemma trimEnd_nil : trimEnd [] = [].
Proof. reflexivity. Qed.

Lemma words_trimStart (s : JsString) : words (trimStart s) = words s.
Proof.
  induction s as [|c s IH]; [reflexivity|]. simpl.
  destruct (isWhiteSpace c) eqn:white; [|reflexivity].
  rewrite IH. unfold words. simpl. destruct (fields s) as [w ws].
  rewrite white. simpl.
  now rewrite (filter_cons_False _ []) by (intros nonempty; now apply nonempty).
Qed.

Lemma trimEnd_cons_white (c : N) (s : JsString) :
  isWhiteSpace c = true →
  trimEnd (c :: s) = if decide (trimEnd s = []) then [] else c :: trimEnd s.
Proof.
  intros white. rewrite trimEnd_cons, white.
  destruct (trimEnd s); [now rewrite decide_True | now rewrite decide_False].
Qed.

Lemma trimEnd_cons_black (c : N) (s : JsString) :
  isWhiteSpace c = false → trimEnd (c :: s) = c :: trimEnd s.
Proof.
  intros black. rewrite trimEnd_cons, black. now destruct (trimEnd s).
Qed.

Lemma replaceRuns_white (inRun : bool) (c : N) (s : JsString) :
  isWhiteSpace c = true →
  replaceRuns inRun (c :: s)
  = if inRun then replaceRuns true s else SPACE :: replaceRuns true s.
Proof. intros white. simpl. now rewrite white. Qed.

Lemma replaceRuns_black (inRun : bool) (c : N) (s : JsString) :
  isWhiteSpace c = false →
  replaceRuns inRun (c :: s) = c :: replaceRuns false s.
Proof. intros black. simpl. now rewrite black. Qed.

Lemma filter_nonempty_nil (ws : list JsString) :
  filter (λ w : JsString, w ≠ []) ([] :: ws) = filter (λ w : JsString, w ≠ []) ws.
Proof. apply filter_cons_False. intros nonempty. now apply nonempty. Qed.

(** [replace] after [trimEnd], against the words of the string. *)
Lemma replaceRuns_trimEnd (s : JsString) :
  replaceRuns false (trimEnd s)
  = (fields s).1 ++ tailWords (filter (λ w, w ≠ []) (fields s).2)
  ∧ replaceRuns true (trimEnd s) = unwords (words s)
  ∧ (trimEnd s = [] ↔ words s = []).
Proof.
  unfold words.
  induction s as [|c s (IHfalse & IHtrue & IHempty)].
  - simpl. now rewrite filter_nonempty_nil, filter_nil.
  - simpl fields. destruct (fields s) as [w ws]. simpl in IHfalse, IHtrue, IHempty.
    destruct (isWhiteSpace c) eqn:white; simpl fst; simpl snd.
    + rewrite trimEnd_cons_white, filter_nonempty_nil by exact white.
      destruct (decide (trimEnd s = [])) as [cut|cut].
      * rewrite (proj1 IHempty cut). now simpl.
      * rewrite !replaceRuns_white, IHtrue by exact white.
        assert (filter (λ w : JsString, w ≠ []) (w :: ws) ≠ []) as some
          by (intros none; now apply IHempty in none).
        destruct (filter (λ w : JsString, w ≠ []) (w :: ws)) as [|v vs];
          [contradiction|].
        repeat split; try reflexivity; intros; discriminate.
    + rewrite trimEnd_cons_black, !replaceRuns_black, IHfalse by exact white.
      rewrite (filter_cons_True _ (c :: w)) by discriminate.
      rewrite unwords_cons.
      repeat split; try reflexivity; intros; discriminate.
Qed.

Lemma trimStart_head (s : JsString) :
  trimStart s = [] ∨ ∃ c t, trimStart s = c :: t ∧ isWhiteSpace c = false.
Proof.
  induction s as [|c s IH]; simpl; [now left|].
  destruct (isWhiteSpace c) eqn:white; [exact IH|].
  right. now exists c, s.
Qed.

(** The pieces that [fields] cuts hold the non-white code units of the
    input, in order, and nothing else. *)
Lemma fields_spec (s : JsString) :
  Forall (λ c, isWhiteSpace c = false) (fields s).1
  ∧ Forall (Forall (λ c, isWhiteSpace c = false)) (fields s).2
  ∧ (fields s).1 ++ concat (fields s).2
    = filter (λ c, isWhiteSpace c = false) s.
Proof.
  induction s as [|c s (first & others & all)]; [now repeat constructor|].
  simpl. destruct (fields s) as [w ws]. simpl in *.
  destruct (isWhiteSpace c) eqn:white; simpl.
  - rewrite filter_cons_False by (rewrite white; discriminate).
    repeat split; [constructor | now constructor | exact all].
  - rewrite filter_cons_True by exact white.
    repeat split; [now constructor | exact others | now rewrite all].
Qed.

(** The words are non-empty, free of white space, and together they are
    the non-white code units of the input, in order. *)
Lemma words_spec (s : JsString) :
  Forall (λ w, w ≠ [] ∧ Forall (λ c, isWhiteSpace c = false) w) (words s)
  ∧ concat (words s) = filter (λ c, isWhiteSpace c = false) s.
Proof.
  destruct (fields_spec s) as (first & others & all).
  unfold words. rewrite <- all.
  assert (pieces : Forall (Forall (λ c, isWhiteSpace c = false))
                     ((fields s).1 :: (fields s).2)) by now constructor.
  change ((fields s).1 ++ concat (fields s).2)
    with (concat ((fields s).1 :: (fields s).2)).
  clear first others all.
  induction pieces as [|w ws clean _ [IHwords IHconcat]];
    [now split|].
  rewrite filter_cons. destruct (decide (w ≠ [])) as [some|none].
  - split; [now constructor|]. simpl. now rewrite IHconcat.
  - apply dec_stable in none as ->. now split.
Qed.

(** [sanitizeString] computes the normalisation of the design document. *)
Lemma sanitizeString_collapses (input : JsString) :
  sanitizeString input = collapseWhitespace input.
Proof.
  unfold sanitizeString, collapseWhitespace, trim.
  rewrite <- words_trimStart.
  destruct (replaceRuns_trimEnd (trimStart input)) as (_ & inRun & _).
  rewrite <- inRun.
  destruct (trimStart_head input) as [-> | (c & t & -> & black)];
    [reflexivity|].
  now rewrite trimEnd_cons_black, !replaceRuns_black.
Qed.

Example sanitizeString_example :
  sanitizeString (js "  hello 	 world  ") = js "hello world".
Proof. vm_compute. reflexivity. Qed.

(** C10: the content that [sendMessage] stores and hands to the gateway for
    the [message:new] broadcast, and the content that [editMessage] stores
    and the gateway broadcasts as [message:edited], is the caller's input
    normalised: leading and trailing white space removed and every inner
    run of white space (line breaks and tabs included) replaced by one
    space.  Both calls do store: [sendMessage] between two different users
    when the generated ids are fresh, [editMessage] whenever the sender
    edits a stored message; after an edit no stored message with that id
    holds anything else. *)
Theorem stored_content_is_sanitised :
  ∀ content : JsString,
    sanitizeString content = collapseWhitespace content
    ∧ (∀ ids messageId now senderId recipientId db message conversationId db',
          MessageService.sendMessage ids messageId now senderId recipientId
            content db = (inr (message, conversationId), db') →
          Message.content message = collapseWhitespace content
          ∧ message ∈ messages db'
          ∧ ∀ socket callback online,
              Socket.userId socket = senderId →
              head (Handlers.messageSend socket ids messageId now recipientId
                      content callback (mkServer online db)).2
              = Some (EmitTo (room conversationId) "message:new"
                        (MessagePayload message)))
    ∧ (∀ ids messageId now senderId recipientId db,
          senderId ≠ recipientId →
          freshConversationIds ids db →
          messageId ∉ Message.id <$> messages db →
          ∃ message conversationId db',
            MessageService.sendMessage ids messageId now senderId recipientId
              content db = (inr (message, conversationId), db'))
    ∧ (∀ now messageId userId db message db',
          MessageService.editMessage now messageId userId content db
          = (inr message, db') →
          Message.content message = collapseWhitespace content
          ∧ message ∈ messages db'
          ∧ (∀ m, m ∈ messages db' → Message.id m = messageId →
                  Message.content m = collapseWhitespace content)
          ∧ ∀ socket callback online,
              Socket.userId socket = userId →
              head (Gateway.messageEdit socket now messageId content callback
                      (mkServer online db)).2
              = Some (Announce (room (Message.conversationId message))
                        "message:edited" (MessageEdited message)))
    ∧ (∀ now messageId db original,
          prisma.findFirst (λ m, Message.id m = messageId) (messages db)
          = Some original →
          ∃ message db',
            MessageService.editMessage now messageId (Message.senderId original)
              content db = (inr message, db')).
Proof.
  intros content. split; [apply sanitizeString_collapses|].
  split; [|split; [|split]].
  - intros ids messageId now senderId recipientId db message conversationId db' sent.
    assert (run := sent).
    unfold MessageService.sendMessage, bind in run.
    destruct (MessageService.getOrCreateConversation ids now senderId recipientId db)
      as [[e|c] db1]; [discriminate|].
    unfold prisma.message.create, prisma.conversation.update, ret in run.
    repeat (case_decide; try discriminate). simpl in run.
    inversion run; subst; clear run. simpl.
    split; [apply sanitizeString_collapses|]. split.
    + apply elem_of_app. right. left.
    + intros socket callback online <-.
      unfold Handlers.messageSend. simpl. now rewrite sent.
  - intros ids messageId now senderId recipientId db distinct fresh unused.
    assert (found : ∃ c db1,
              MessageService.getOrCreateConversation ids now senderId recipientId db
              = (inr c, db1)
              ∧ c ∈ conversations db1 ∧ messages db1 = messages db).
    { unfold MessageService.getOrCreateConversation,
        prisma.conversation.findFirstBetween, prisma.conversation.create.
      prisma_unfold. rewrite decide_False by exact distinct.
      destruct (prisma.findFirst _ (conversations db)) as [existing|] eqn:found.
      - exists existing, db. split; [reflexivity|]. split; [|reflexivity].
        now apply findFirst_Some in found as [stored _].
      - unfold freshConversationIds in fresh.
        rewrite decide_False by tauto.
        eexists _, _. split; [reflexivity|]. split; [|reflexivity].
        simpl. apply elem_of_app. right. left. }
    destruct found as (c & db1 & first & stored & same).
    unfold MessageService.sendMessage, bind. rewrite first.
    unfold prisma.message.create, prisma.conversation.update, ret.
    rewrite same, decide_False by exact unused. simpl.
    rewrite decide_True by now apply list_elem_of_fmap_2.
    now eexists _, _, _.
  - intros now messageId userId db message db' edit.
    assert (run := edit).
    unfold MessageService.editMessage, prisma.message.findUnique,
      prisma.message.update in run.
    prisma_unfold.
    destruct (prisma.findFirst _ (messages db)) as [original|] eqn:found;
      [|discriminate].
    case_decide; [discriminate|].
    rewrite found in run. injection run as <- <-. simpl.
    split; [apply sanitizeString_collapses|]. split; [|split].
    + apply findFirst_Some in found as [stored sameId].
      apply list_elem_of_fmap. exists original.
      now rewrite decide_True.
    + intros m (m0 & -> & Hm0)%list_elem_of_fmap.
      destruct (decide (Message.id m0 = messageId)) as [same|other].
      * intros _. apply sanitizeString_collapses.
      * intros same. contradiction.
    + intros socket callback online <-.
      unfold Gateway.messageEdit. simpl. now rewrite edit.
  - intros now messageId db original found.
    unfold MessageService.editMessage, prisma.message.findUnique,
      prisma.message.update.
    prisma_unfold. rewrite found.
    rewrite decide_False by (intros differs; now apply differs).
    rewrite found. now eexists _, _.
Qed.

Lemma stored_content_is_sanitised_witness :
  let ids := mkConversationIds "c1" "p1" "p2" in
  let content := js "  hello 	 world  " in
  let message := Message.mk "m1" (js "hello world") "c1" "alice" 1000 false None in
  let db' := mkDB [Conversation.mk "c1" 1000]
               [Participant.mk "p1" "c1" "alice" 1000;
                Participant.mk "p2" "c1" "bob" 1000] [message] [] in
  let edited :=
    Message.mk "m1" (js "bye now") "c1" "alice" 1000 true (Some 2000) in
  (Message.content message = collapseWhitespace content
   ∧ message ∈ messages db'
   ∧ ∀ socket callback online,
       Socket.userId socket = "alice" →
       head (Handlers.messageSend socket ids "m1" 1000 "bob" content callback
               (mkServer online emptyDB)).2
       = Some (EmitTo (room "c1") "message:new" (MessagePayload message)))
  ∧ (Message.content edited = collapseWhitespace (js " bye   now ")
     ∧ (∀ m, m ∈ [edited] → Message.id m = "m1" →
             Message.content m = collapseWhitespace (js " bye   now "))
     ∧ ∀ socket callback online,
         Socket.userId socket = "alice" →
         head (Gateway.messageEdit socket 2000 "m1" (js " bye   now ") callback
                 (mkServer online db')).2
         = Some (Announce (room "c1") "message:edited" (MessageEdited edited))).
Proof.
  intros ids content message db' edited. split.
  - apply (proj1 (proj2 (stored_content_is_sanitised content))
             ids "m1" 1000 "alice" "bob" emptyDB message "c1" db').
    vm_compute. reflexivity.
  - destruct (proj1 (proj2 (proj2 (proj2
                (stored_content_is_sanitised (js " bye   now ")))))
                2000 "m1" "alice" db' edited
                (mkDB (conversations db') (participants db') [edited] []))
      as (clean & _ & all & announced).
    + vm_compute. reflexivity.
    + split; [exact clean|]. split; [exact all | exact announced].
Defined.

(** ** No conversation with oneself *)

Lemma serve_wellFormed now request db :
  wellFormed db → wellFormed (serve now request db).
Proof.
  intros [integrity distinct]. unfold wellFormed, referentialIntegrity,
    noSelfConversation.
  destruct (serve_membership now request db)
    as [after -> ->|after id -> ->
       |after c pid1 pid2 u1 u2 users freshC pids fresh1 fresh2 -> ->
       |after c -> ->].
  - now split.
  - split.
    + intros p (q & -> & Hq)%list_elem_of_fmap.
      rewrite (proj1 (proj2 (updateWhere_id id now q))). now apply integrity.
    + intros p' q' (p & -> & Hp)%list_elem_of_fmap (q & -> & Hq)%list_elem_of_fmap.
      destruct (updateWhere_id id now p) as (-> & -> & ->).
      destruct (updateWhere_id id now q) as (-> & -> & ->).
      now apply distinct.
  - assert (old : ∀ p, p ∈ participants db → Participant.conversationId p ≠ c).
    { intros p Hp same. apply freshC. rewrite <- same. now apply integrity. }
    split.
    + intros p [Hp|Hp]%elem_of_app; apply elem_of_app.
      * left. now apply integrity.
      * right. apply list_elem_of_singleton. rewrite !elem_of_cons in Hp.
        destruct Hp as [->|[->|Hnil]]; [reflexivity..|].
        now apply not_elem_of_nil in Hnil.
    + intros p q [Hp|Hp]%elem_of_app [Hq|Hq]%elem_of_app sameC sameU.
      * now apply distinct.
      * exfalso. apply (old p Hp). rewrite sameC.
        rewrite !elem_of_cons in Hq.
        destruct Hq as [->|[->|Hnil]]; [reflexivity..|].
        now apply not_elem_of_nil in Hnil.
      * exfalso. apply (old q Hq). rewrite <- sameC.
        rewrite !elem_of_cons in Hp.
        destruct Hp as [->|[->|Hnil]]; [reflexivity..|].
        now apply not_elem_of_nil in Hnil.
      * rewrite !elem_of_cons in Hp, Hq.
        destruct Hp as [->|[->|Hnil]], Hq as [->|[->|Hnil']];
          try (now apply not_elem_of_nil in Hnil);
          try (now apply not_elem_of_nil in Hnil');
          simpl in *; congruence.
  - split.
    + intros p [other Hp]%list_elem_of_filter.
      apply list_elem_of_filter. split; [exact other | now apply integrity].
    + intros p q [_ Hp]%list_elem_of_filter [_ Hq]%list_elem_of_filter.
      now apply distinct.
Qed.

(** Whatever requests were served since the store was empty, no conversation
    holds two participant rows of one user. *)
Lemma run_wellFormed (history : list (Z * Request)) (db : DB) :
  wellFormed db → wellFormed (run history db).
Proof.
  unfold run. revert db.
  induction history as [|[now request] history IH]; intros db wf; [exact wf|].
  simpl. now apply IH, serve_wellFormed.
Qed.

Lemma emptyDB_wellFormed : wellFormed emptyDB.
Proof.
  split.
  - intros p Hp. now apply not_elem_of_nil in Hp.
  - intros p q Hp. now apply not_elem_of_nil in Hp.
Qed.

(** C9: asking for a conversation of a user with themself always fails with
    [ValidationError] and leaves the store as it was; so does sending a
    message to oneself, which goes through the same check first.  Hence,
    whatever requests the service has served since the store was empty, no
    conversation holds two participant rows of one user. *)
Theorem getOrCreateConversation_rejects_self :
  (∀ (ids : ConversationIds) (now : Z) (userId : string) (db : DB),
      MessageService.getOrCreateConversation ids now userId userId db
      = (inl (ValidationError "Cannot create conversation with yourself"), db)
      ∧ ∀ (messageId : string) (content : JsString),
          MessageService.sendMessage ids messageId now userId userId content db
          = (inl (ValidationError "Cannot create conversation with yourself"), db))
  ∧ ∀ history : list (Z * Request), noSelfConversation (run history emptyDB).
Proof.
  split.
  - intros ids now userId db.
    assert (self : MessageService.getOrCreateConversation ids now userId userId db
                   = (inl (ValidationError "Cannot create conversation with yourself"),
                      db)).
    { unfold MessageService.getOrCreateConversation.
      destruct (decide (userId = userId)); [reflexivity | congruence]. }
    split; [exact self|].
    intros messageId content. unfold MessageService.sendMessage, bind.
    now rewrite self.
  - intros history. apply run_wellFormed, emptyDB_wellFormed.
Qed.

(** * Further properties of the code *)

(** ** [sanitizeString] *)

Lemma fields_word (w rest : JsString) :
  Forall (λ c, isWhiteSpace c = false) w →
  fields (w ++ SPACE :: rest) = (w, (fields rest).1 :: (fields rest).2).
Proof.
  induction 1 as [|c w black _ IH]; simpl.
  - now destruct (fields rest).
  - now rewrite IH, black.
Qed.

Lemma fields_single (w : JsString) :
  Forall (λ c, isWhiteSpace c = false) w → fields w = (w, []).
Proof.
  induction 1 as [|c w black _ IH]; simpl; [reflexivity|].
  now rewrite IH, black.
Qed.

Lemma words_unwords (ws : list JsString) :
  properWords ws → words (unwords ws) = ws.
Proof.
  induction 1 as [|w ws [some clean] proper IH]; [reflexivity|].
  destruct ws as [|w' ws].
  - simpl. unfold words. rewrite fields_single by exact clean. simpl.
    now rewrite filter_cons_True.
  - change (unwords (w :: w' :: ws)) with (w ++ SPACE :: unwords (w' :: ws)).
    unfold words in *. rewrite fields_word by exact clean. cbn [fst snd].
    rewrite filter_cons_True by exact some. now rewrite IH.
Qed.

Lemma words_proper (s : JsString) : properWords (words s).
Proof. apply words_spec. Qed.

(** X1: sanitising twice is sanitising once. *)
Theorem sanitizeString_idempotent :
  ∀ input : JsString,
    sanitizeString (sanitizeString input) = sanitizeString input.
Proof.
  intros input. rewrite !sanitizeString_collapses.
  unfold collapseWhitespace. now rewrite words_unwords by apply words_proper.
Qed.

Lemma isSanitised_sound (s : JsString) : isSanitised s = true → sanitised s.
Proof.
  unfold isSanitised, sanitised. intros [first spaced]%andb_prop.
  split; [|split; [|split]].
  - clear first. induction s as [|c s IH]; [constructor|].
    simpl in spaced. apply andb_prop in spaced as [here rest].
    constructor; [|now apply IH].
    intros white. rewrite white in here.
    apply andb_prop in here as [space _]. now apply N.eqb_eq.
  - destruct s as [|c s]; [discriminate|]. intros ? [= <-].
    now apply negb_true_iff.
  - clear first. induction s as [|c s IH]; [discriminate|].
    simpl in spaced. apply andb_prop in spaced as [here rest].
    destruct s as [|d s].
    + intros ? [= <-]. destruct (isWhiteSpace c); [|reflexivity].
      now rewrite andb_false_r in here.
    + intros e Hlast. now apply IH.
  - clear first. induction s as [|c s IH]; intros i x y Hx Hy; [discriminate|].
    simpl in spaced. apply andb_prop in spaced as [here rest].
    destruct i as [|i].
    + simpl in Hx, Hy. injection Hx as <-.
      destruct s as [|d s]; [discriminate|]. simpl in Hy. injection Hy as <-.
      intros [white white']. rewrite white in here.
      apply andb_prop in here as [_ after]. rewrite white' in after.
      discriminate after.
    + now apply (IH rest i x y).
Qed.

Lemma wellSpaced_word (w rest : JsString) :
  Forall (λ c, isWhiteSpace c = false) w →
  wellSpaced (w ++ rest) = wellSpaced rest.
Proof.
  induction 1 as [|c w black _ IH]; simpl; [reflexivity|].
  now rewrite black, IH.
Qed.

Lemma unwords_head (w : JsString) (ws : list JsString) :
  properWords (w :: ws) →
  ∃ c t, unwords (w :: ws) = c :: t ∧ isWhiteSpace c = false.
Proof.
  intros [[some clean] _]%Forall_cons. rewrite unwords_cons.
  destruct w as [|c w]; [contradiction|].
  exists c, (w ++ tailWords ws). split; [reflexivity|].
  now apply Forall_cons in clean as [black _].
Qed.

Lemma unwords_wellSpaced (ws : list JsString) :
  properWords ws → wellSpaced (unwords ws) = true.
Proof.
  induction 1 as [|w ws [some clean] proper IH]; [reflexivity|].
  rewrite unwords_cons, wellSpaced_word by exact clean.
  destruct ws as [|w' ws]; [reflexivity|].
  destruct (unwords_head w' ws proper) as (c & t & next & black).
  unfold tailWords. rewrite next in IH |- *.
  change (wellSpaced (SPACE :: c :: t))
    with (true && negb (isWhiteSpace c) && wellSpaced (c :: t)).
  now rewrite IH, black.
Qed.

Lemma sanitizeString_isSanitised (input : JsString) :
  isSanitised (sanitizeString input) = true.
Proof.
  rewrite sanitizeString_collapses. unfold collapseWhitespace, isSanitised.
  pose proof (words_proper input) as proper.
  rewrite unwords_wellSpaced by exact proper.
  destruct (words input) as [|w ws]; [reflexivity|].
  destruct (unwords_head w ws proper) as (c & t & -> & ->). reflexivity.
Qed.

(** X2: what [sanitizeString] returns has no white space but single spaces
    between two code units that are not white: nothing at either end, no
    tab or line break, no two spaces in a row. *)
Theorem sanitizeString_sanitised :
  ∀ input : JsString, sanitised (sanitizeString input).
Proof. intros input. apply isSanitised_sound, sanitizeString_isSanitised. Qed.

Lemma replaceRuns_length (inRun : bool) (s : JsString) :
  (length (replaceRuns inRun s) ≤ length s)%nat.
Proof.
  revert inRun. induction s as [|c s IH]; intros inRun; simpl; [lia|].
  pose proof (IH true). pose proof (IH false).
  destruct (isWhiteSpace c), inRun; simpl; lia.
Qed.

Lemma trimStart_length (s : JsString) : (length (trimStart s) ≤ length s)%nat.
Proof.
  induction s as [|c s IH]; simpl; [lia|].
  destruct (isWhiteSpace c); simpl; lia.
Qed.

Lemma trim_length (s : JsString) : (length (trim s) ≤ length s)%nat.
Proof.
  unfold trim, trimEnd. rewrite length_reverse.
  etransitivity; [apply trimStart_length|].
  rewrite length_reverse. apply trimStart_length.
Qed.

Lemma unwords_black (ws : list JsString) :
  properWords ws →
  filter (λ c, isWhiteSpace c = false) (unwords ws) = concat ws.
Proof.
  induction 1 as [|w ws [_ clean] proper IH]; [reflexivity|].
  rewrite unwords_cons, filter_app. simpl. f_equal.
  - apply filter_all. now apply Forall_forall.
  - destruct ws as [|w' ws]; [reflexivity|].
    unfold tailWords. now rewrite filter_cons_False by (intros [=]).
Qed.

Lemma sanitizeString_text :
  ∀ input : JsString,
    filter (λ c, isWhiteSpace c = false) (sanitizeString input)
    = filter (λ c, isWhiteSpace c = false) input
    ∧ (length (sanitizeString input) ≤ length input)%nat
    ∧ (sanitizeString input = [] ↔ Forall (λ c, isWhiteSpace c = true) input).
Proof.
  intros input.
  assert (kept : filter (λ c, isWhiteSpace c = false) (sanitizeString input)
                 = filter (λ c, isWhiteSpace c = false) input).
  { rewrite sanitizeString_collapses. unfold collapseWhitespace.
    rewrite unwords_black by apply words_proper. apply words_spec. }
  split; [exact kept|]. split.
  - unfold sanitizeString.
    etransitivity; [apply replaceRuns_length | apply trim_length].
  - split.
    + intros empty. rewrite empty in kept. apply Forall_forall. intros c Hc.
      destruct (isWhiteSpace c) eqn:white; [reflexivity|].
      assert (c ∈ filter (λ c, isWhiteSpace c = false) input) as absurd
        by now apply list_elem_of_filter.
      rewrite <- kept in absurd. now apply not_elem_of_nil in absurd.
    + intros white.
      pose proof (isSanitised_sound _ (sanitizeString_isSanitised input))
        as (_ & first & _).
      destruct (sanitizeString input) as [|c t] eqn:result; [reflexivity|].
      specialize (first c eq_refl).
      assert (c ∈ filter (λ c, isWhiteSpace c = false) (c :: t)) as present
        by (apply list_elem_of_filter; split; [exact first | left]).
      rewrite kept in present.
      apply list_elem_of_filter in present as [black Hc].
      rewrite Forall_forall in white. rewrite (white c Hc) in black.
      discriminate black.
Qed.

(** X3: [sanitizeString] keeps every code unit that is not white space, in
    order, and adds none; its result is never longer than the input, and it
    is the empty string exactly when the input is white space only. *)
Theorem sanitizeString_keeps_text :
  ∀ input : JsString,
    filter (λ c, isWhiteSpace c = false) (sanitizeString input)
    = filter (λ c, isWhiteSpace c = false) input
    ∧ (length (sanitizeString input) ≤ length input)%nat
    ∧ (sanitizeString input = [] ↔ Forall (λ c, isWhiteSpace c = true) input).
Proof. exact sanitizeString_text. Qed.

(** ** The message validators *)









(** ** [deleteMessage] *)

Lemma findUnique_message_gone (messageId : string) (l : list Message.t) :
  prisma.findFirst (λ m, Message.id m = messageId)
    (filter (λ m, Message.id m ≠ messageId) l) = None.
Proof.
  apply findFirst_None. now intros m [other _]%list_elem_of_filter.
Qed.

(** X5: any participant of the conversation, the sender or the other one,
    can delete a message.  The message and the reactions on it are removed,
    every other row stays, the conversation id is returned, and the message
    id is unknown afterwards: editing it, reacting to it or deleting it
    again fails with [NotFoundError]. *)
Theorem deleteMessage_by_participant :
  ∀ (messageId userId : string) (db : DB) (message : Message.t),
    (prisma.message.findUnique messageId db).1 = inr (Some message) →
    MessageService.isParticipant db (Message.conversationId message) userId →
    ∃ db' : DB,
      MessageService.deleteMessage messageId userId db
      = (inr (Message.conversationId message), db')
      ∧ conversations db' = conversations db
      ∧ participants db' = participants db
      ∧ (∀ m, m ∈ messages db' ↔ m ∈ messages db ∧ Message.id m ≠ messageId)
      ∧ (∀ r, r ∈ reactions db'
              ↔ r ∈ reactions db ∧ Reaction.messageId r ≠ messageId)
      ∧ (∀ now actor content,
            MessageService.editMessage now messageId actor content db'
            = (inl (NotFoundError "Message not found"), db'))
      ∧ (∀ reactionId actor emoji,
            MessageService.addReaction reactionId messageId actor emoji db'
            = (inl (NotFoundError "Message not found"), db'))
      ∧ ∀ actor,
          MessageService.deleteMessage messageId actor db'
          = (inl (NotFoundError "Message not found"), db').
Proof.
  intros messageId userId db message found member.
  unfold prisma.message.findUnique, gets in found. simpl in found.
  injection found as found.
  pose proof (findFirst_Some _ _ _ found) as [stored sameId].
  eexists. split.
  - unfold MessageService.deleteMessage, prisma.message.findUnique,
      prisma.message.delete.
    prisma_unfold. rewrite found.
    rewrite bool_decide_eq_true_2 by exact member. simpl.
    rewrite decide_True by (rewrite <- sameId; now apply list_elem_of_fmap_2).
    reflexivity.
  - simpl. split; [reflexivity|]. split; [reflexivity|].
    split; [intros m; rewrite list_elem_of_filter; tauto|].
    split; [intros r; rewrite list_elem_of_filter; tauto|].
    split; [|split].
    + intros now actor content.
      unfold MessageService.editMessage, prisma.message.findUnique.
      prisma_unfold. simpl. now rewrite findUnique_message_gone.
    + intros reactionId actor emoji.
      unfold MessageService.addReaction, prisma.message.findUnique.
      prisma_unfold. simpl. now rewrite findUnique_message_gone.
    + intros actor.
      unfold MessageService.deleteMessage, prisma.message.findUnique.
      prisma_unfold. simpl. now rewrite findUnique_message_gone.
Qed.

Lemma deleteMessage_by_participant_witness :
  let db := mkDB [Conversation.mk "c1" 10]
                 [Participant.mk "p1" "c1" "alice" 10;
                  Participant.mk "p2" "c1" "bob" 10]
                 [Message.mk "m1" (js "hello") "c1" "alice" 10 false None]
                 [Reaction.mk "r1" "m1" "bob" "+1"] in
  ∃ db' : DB,
    MessageService.deleteMessage "m1" "bob" db = (inr "c1", db')
    ∧ ∀ actor,
        MessageService.deleteMessage "m1" actor db'
        = (inl (NotFoundError "Message not found"), db').
Proof.
  intros db.
  destruct (deleteMessage_by_participant "m1" "bob" db
              (Message.mk "m1" (js "hello") "c1" "alice" 10 false None))
    as (db' & deleted & _ & _ & _ & _ & _ & _ & again).
  - vm_compute. reflexivity.
  - by_decision.
  - exists db'. split; [exact deleted | exact again].
Defined.

(** ** Failing requests *)

Lemma getOrCreateConversation_throws ids now user1Id user2Id db e db' :
  MessageService.getOrCreateConversation ids now user1Id user2Id db = (inl e, db') →
  db' = db.
Proof.
  unfold MessageService.getOrCreateConversation,
    prisma.conversation.findFirstBetween, prisma.conversation.create.
  prisma_unfold.
  repeat (case_match || case_decide); simplify_eq/=; congruence.
Qed.

Lemma getOrCreateConversation_returns ids now user1Id user2Id db c db1 :
  MessageService.getOrCreateConversation ids now user1Id user2Id db = (inr c, db1) →
  c ∈ conversations db1
  ∧ (db1 = db
     ∨ db1 = mkDB (conversations db ++ [Conversation.mk (newConversationId ids) now])
               (participants db
                ++ [Participant.mk (newParticipantId1 ids)
                      (newConversationId ids) user1Id now;
                    Participant.mk (newParticipantId2 ids)
                      (newConversationId ids) user2Id now])
               (messages db) (reactions db)).
Proof.
  unfold MessageService.getOrCreateConversation,
    prisma.conversation.findFirstBetween, prisma.conversation.create.
  prisma_unfold.
  destruct (decide (user1Id = user2Id)); [discriminate|].
  destruct (prisma.findFirst _ (conversations db)) as [existing|] eqn:found.
  - intros [= <- <-]. split; [|now left].
    now apply findFirst_Some in found as [stored _].
  - destruct (decide _); [discriminate|]. intros [= <- <-]. split; [|now right].
    simpl. apply elem_of_app. right. left.
Qed.

Lemma thrown_request_facts :
  ∀ (now : Z) (request : Request) (db : DB) (e : AppError),
    thrown now request db = Some e →
    serve now request db = db
    ∨ ∃ ids messageId senderId recipientId content,
        request = SendMessage ids messageId senderId recipientId content
        ∧ serve now request db
          = mkDB (conversations db ++ [Conversation.mk (newConversationId ids) now])
                 (participants db
                  ++ [Participant.mk (newParticipantId1 ids)
                        (newConversationId ids) senderId now;
                      Participant.mk (newParticipantId2 ids)
                        (newConversationId ids) recipientId now])
                 (messages db) (reactions db).
Proof.
  intros now request db e.
  destruct request; simpl.
  - destruct (MessageService.getOrCreateConversation _ _ _ _ _)
      as [[e'|c] db'] eqn:run; [|discriminate].
    intros _. left. simpl. eapply getOrCreateConversation_throws, run.
  - unfold MessageService.getMessages, prisma.conversationParticipant.findFirst,
      prisma.message.findManyDesc, prisma.conversationParticipant.update.
    prisma_unfold.
    repeat (case_match || case_decide); simplify_eq/=;
      try (intros [=]); auto.
  - unfold MessageService.sendMessage, bind.
    destruct (MessageService.getOrCreateConversation ids now senderId recipientId db)
      as [[e'|c] db1] eqn:run.
    + intros _. left. simpl. eapply getOrCreateConversation_throws, run.
    + apply getOrCreateConversation_returns in run as [stored written].
      unfold prisma.message.create, prisma.conversation.update, ret.
      destruct (decide (messageId ∈ Message.id <$> messages db1)); simpl.
      * intros _. destruct written as [-> | ->]; [now left|].
        right. now exists ids, messageId, senderId, recipientId, content.
      * rewrite decide_True by now apply list_elem_of_fmap_2.
        discriminate.
  - unfold MessageService.editMessage, prisma.message.findUnique,
      prisma.message.update.
    prisma_unfold.
    repeat (case_match || case_decide); simplify_eq/=;
      try (intros [=]); auto.
  - unfold MessageService.deleteMessage, prisma.message.findUnique,
      prisma.message.delete.
    prisma_unfold.
    repeat (case_match || case_decide); simplify_eq/=;
      try (intros [=]); auto.
  - unfold MessageService.addReaction, prisma.message.findUnique,
      prisma.reaction.findUnique, prisma.reaction.create, prisma.reaction.delete.
    prisma_unfold.
    repeat (case_match || case_decide); simplify_eq/=;
      try (intros [=]); auto.
  - unfold MessageService.deleteConversation, prisma.conversation.findUnique,
      prisma.conversation.delete.
    prisma_unfold.
    repeat (case_match || case_decide); simplify_eq/=;
      try (intros [=]); auto.
  - unfold MessageService.markAsRead, prisma.conversationParticipant.findFirst,
      prisma.conversationParticipant.update.
    prisma_unfold.
    repeat (case_match || case_decide); simplify_eq/=;
      try (intros [=]); auto.
Qed.

(** X6: a request that throws has written nothing, with one exception:
    [sendMessage] that creates the conversation and then fails to store the
    message leaves the new conversation, with its two participant rows and
    nothing else, behind. *)
Theorem thrown_request_writes :
  ∀ (now : Z) (request : Request) (db : DB) (e : AppError),
    thrown now request db = Some e →
    serve now request db = db
    ∨ ∃ ids messageId senderId recipientId content,
        request = SendMessage ids messageId senderId recipientId content
        ∧ serve now request db
          = mkDB (conversations db ++ [Conversation.mk (newConversationId ids) now])
                 (participants db
                  ++ [Participant.mk (newParticipantId1 ids)
                        (newConversationId ids) senderId now;
                      Participant.mk (newParticipantId2 ids)
                        (newConversationId ids) recipientId now])
                 (messages db) (reactions db).
Proof. exact thrown_request_facts. Qed.

Lemma thrown_request_writes_witness :
  let db := mkDB [Conversation.mk "c1" 10]
                 [Participant.mk "p1" "c1" "alice" 10;
                  Participant.mk "p2" "c1" "bob" 10]
                 [Message.mk "m1" (js "hello") "c1" "alice" 10 false None] [] in
  let request := DeleteMessage "m1" "carol" in
  serve 20 request db = db
  ∨ ∃ ids messageId senderId recipientId content,
      request = SendMessage ids messageId senderId recipientId content
      ∧ serve 20 request db
        = mkDB (conversations db ++ [Conversation.mk (newConversationId ids) 20])
               (participants db
                ++ [Participant.mk (newParticipantId1 ids)
                      (newConversationId ids) senderId 20;
                    Participant.mk (newParticipantId2 ids)
                      (newConversationId ids) recipientId 20])
               (messages db) (reactions db).
Proof.
  intros db request.
  apply (thrown_request_writes 20 request db
           (ForbiddenError "You cannot delete this message")).
  vm_compute. reflexivity.
Defined.

(** ** [editMessage] by the sender *)

(** X7: when the sender edits a message, the new content is stored
    sanitised, the message is flagged as edited at [now], and its id,
    conversation, sender and creation time stay.  No message is added,
    removed or moved, and the other tables are untouched.  Editing an
    unknown message id fails with [NotFoundError]. *)
Theorem editMessage_by_sender :
  ∀ (now : Z) (messageId userId : string) (content : JsString) (db : DB),
    ((prisma.message.findUnique messageId db).1 = inr None →
     MessageService.editMessage now messageId userId content db
     = (inl (NotFoundError "Message not found"), db))
    ∧ ∀ message : Message.t,
        (prisma.message.findUnique messageId db).1 = inr (Some message) →
        Message.senderId message = userId →
        ∃ (updated : Message.t) (db' : DB),
          MessageService.editMessage now messageId userId content db
          = (inr updated, db')
          ∧ updated ∈ messages db'
          ∧ Message.content updated = sanitizeString content
          ∧ Message.isEdited updated = true
          ∧ Message.editedAt updated = Some now
          ∧ Message.id updated = Message.id message
          ∧ Message.conversationId updated = Message.conversationId message
          ∧ Message.senderId updated = Message.senderId message
          ∧ Message.createdAt updated = Message.createdAt message
          ∧ Message.id <$> messages db' = Message.id <$> messages db
          ∧ (∀ m, Message.id m ≠ messageId → m ∈ messages db' ↔ m ∈ messages db)
          ∧ conversations db' = conversations db
          ∧ participants db' = participants db
          ∧ reactions db' = reactions db.
Proof.
  intros now messageId userId content db.
  unfold prisma.message.findUnique at 1 2. unfold gets. simpl. split.
  - intros [= none].
    unfold MessageService.editMessage, prisma.message.findUnique.
    prisma_unfold. now rewrite none.
  - intros message [= found] own.
    pose proof (findFirst_Some _ _ _ found) as [stored sameId].
    eexists _, _. split.
    + unfold MessageService.editMessage, prisma.message.findUnique,
        prisma.message.update.
      prisma_unfold. rewrite found.
      rewrite decide_False by (intros other; now apply other).
      rewrite found. reflexivity.
    + simpl. repeat split; try reflexivity.
      * apply list_elem_of_fmap. exists message. now rewrite decide_True.
      * rewrite <- list_fmap_compose. apply list_fmap_ext.
        intros _ m _. simpl. now destruct (decide (Message.id m = messageId)).
      * intros (m' & -> & Hm')%list_elem_of_fmap.
        destruct (decide (Message.id m' = messageId)) as [same|_];
          [|exact Hm'].
        exfalso. simpl in H. congruence.
      * intros Hm. apply list_elem_of_fmap. exists m.
        now rewrite decide_False.
Qed.

Lemma editMessage_by_sender_witness :
  let db := mkDB [Conversation.mk "c1" 10]
                 [Participant.mk "p1" "c1" "alice" 10;
                  Participant.mk "p2" "c1" "bob" 10]
                 [Message.mk "m1" (js "hello") "c1" "alice" 10 false None] [] in
  ∃ (updated : Message.t) (db' : DB),
    MessageService.editMessage 20 "m1" "alice" (js " hi  there ") db
    = (inr updated, db')
    ∧ Message.content updated = js "hi there"
    ∧ Message.createdAt updated = 10.
Proof.
  intros db.
  destruct (proj2 (editMessage_by_sender 20 "m1" "alice" (js " hi  there ") db)
              (Message.mk "m1" (js "hello") "c1" "alice" 10 false None))
    as (updated & db' & run & _ & content & _ & _ & _ & _ & _ & created & _).
  - vm_compute. reflexivity.
  - reflexivity.
  - exists updated, db'. split; [exact run|]. split.
    + rewrite content. vm_compute. reflexivity.
    + exact created.
Defined.

(** ** [markAsRead] *)

Lemma findFirst_fmap {A} (P : A → Prop) `{!∀ x, Decision (P x)}
    (f : A → A) (l : list A) :
  (∀ x, P (f x) ↔ P x) →
  prisma.findFirst P (f <$> l) = f <$> prisma.findFirst P l.
Proof.
  intros same. unfold prisma.findFirst.
  induction l as [|x l IH]; [reflexivity|].
  rewrite fmap_cons, !filter_cons.
  destruct (decide (P (f x))) as [yes|no], (decide (P x)) as [yes'|no'];
    simpl; try reflexivity; try exact IH.
  - exfalso. now apply no', same.
  - exfalso. now apply no, same.
Qed.




(** ** What [sendMessage] stores *)

Lemma getOrCreateConversation_between ids now user1Id user2Id db c db1 :
  MessageService.getOrCreateConversation ids now user1Id user2Id db = (inr c, db1) →
  user1Id ≠ user2Id ∧ prisma.between db1 user1Id user2Id c.
Proof.
  unfold MessageService.getOrCreateConversation,
    prisma.conversation.findFirstBetween, prisma.conversation.create.
  prisma_unfold.
  destruct (decide (user1Id = user2Id)) as [|distinct]; [discriminate|].
  destruct (prisma.findFirst _ (conversations db)) as [existing|] eqn:found.
  - intros [= <- <-]. split; [exact distinct|].
    now apply findFirst_Some in found as [_ both].
  - destruct (decide _); [discriminate|]. intros [= <- <-].
    split; [exact distinct|].
    unfold prisma.between, prisma.someParticipant. simpl.
    rewrite !Exists_app, !Exists_cons. simpl. split.
    + right. now left.
    + right. right. now left.
Qed.

Lemma sendMessage_stores_facts :
  ∀ (ids : ConversationIds) (messageId : string) (now : Z)
    (senderId recipientId : string) (content : JsString) (db db' : DB)
    (message : Message.t) (conversationId : string),
    MessageService.sendMessage ids messageId now senderId recipientId content db
    = (inr (message, conversationId), db') →
    message
    = Message.mk messageId (sanitizeString content) conversationId senderId
        now false None
    ∧ messages db' = messages db ++ [message]
    ∧ reactions db' = reactions db
    ∧ senderId ≠ recipientId
    ∧ MessageService.isParticipant db' conversationId senderId
    ∧ MessageService.isParticipant db' conversationId recipientId
    ∧ Conversation.mk conversationId now ∈ conversations db'
    ∧ ∀ c, c ∈ conversations db' → Conversation.id c = conversationId →
           Conversation.updatedAt c = now.
Proof.
  intros ids messageId now senderId recipientId content db db' message
    conversationId.
  unfold MessageService.sendMessage, bind.
  destruct (MessageService.getOrCreateConversation ids now senderId recipientId db)
    as [[e|c] db1] eqn:run; [discriminate|].
  pose proof (getOrCreateConversation_between _ _ _ _ _ _ _ run)
    as (distinct & sender & recipient).
  apply getOrCreateConversation_returns in run as [stored written].
  unfold prisma.message.create, prisma.conversation.update, ret.
  destruct (decide (messageId ∈ Message.id <$> messages db1)); [discriminate|].
  simpl. rewrite decide_True by now apply list_elem_of_fmap_2.
  intros [= <- <- <-]. simpl.
  split; [reflexivity|]. split.
  { destruct written as [-> | ->]; reflexivity. }
  split.
  { destruct written as [-> | ->]; reflexivity. }
  split; [exact distinct|]. split; [exact sender|]. split; [exact recipient|].
  split.
  - apply list_elem_of_fmap. exists c. now rewrite decide_True.
  - intros c' (c0 & -> & Hc0)%list_elem_of_fmap same.
    destruct (decide (Conversation.id c0 = Conversation.id c)) as [|other];
      [reflexivity | contradiction].
Qed.

(** X9: a successful [sendMessage] appends exactly one message, unedited,
    created at [now], with the sanitised content, the sender and the
    conversation it returns.  Sender and recipient are two different users
    and both take part in that conversation, the conversation is stored with
    [updatedAt] equal to [now], and no reaction is touched. *)
Theorem sendMessage_stores :
  ∀ (ids : ConversationIds) (messageId : string) (now : Z)
    (senderId recipientId : string) (content : JsString) (db db' : DB)
    (message : Message.t) (conversationId : string),
    MessageService.sendMessage ids messageId now senderId recipientId content db
    = (inr (message, conversationId), db') →
    message
    = Message.mk messageId (sanitizeString content) conversationId senderId
        now false None
    ∧ messages db' = messages db ++ [message]
    ∧ reactions db' = reactions db
    ∧ senderId ≠ recipientId
    ∧ MessageService.isParticipant db' conversationId senderId
    ∧ MessageService.isParticipant db' conversationId recipientId
    ∧ Conversation.mk conversationId now ∈ conversations db'
    ∧ ∀ c, c ∈ conversations db' → Conversation.id c = conversationId →
           Conversation.updatedAt c = now.
Proof. exact sendMessage_stores_facts. Qed.

Lemma sendMessage_stores_witness :
  let ids := mkConversationIds "c1" "p1" "p2" in
  let message := Message.mk "m1" (js "hi") "c1" "alice" 1000 false None in
  let db' := mkDB [Conversation.mk "c1" 1000]
               [Participant.mk "p1" "c1" "alice" 1000;
                Participant.mk "p2" "c1" "bob" 1000] [message] [] in
  MessageService.isParticipant db' "c1" "alice"
  ∧ MessageService.isParticipant db' "c1" "bob"
  ∧ Conversation.mk "c1" 1000 ∈ conversations db'.
Proof.
  intros ids message db'.
  destruct (sendMessage_stores ids "m1" 1000 "alice" "bob" (js " hi ") emptyDB db'
              message "c1")
    as (_ & _ & _ & _ & sender & recipient & stored & _).
  - vm_compute. reflexivity.
  - repeat split; assumption.
Defined.

(** ** Consistency of the store *)

Lemma filter_fmap_commute {A} (P : A → Prop) `{!∀ x, Decision (P x)}
    (f : A → A) (l : list A) :
  (∀ x, P (f x) ↔ P x) → filter P (f <$> l) = f <$> filter P l.
Proof.
  intros same. induction l as [|x l IH]; [reflexivity|].
  rewrite fmap_cons, !filter_cons.
  destruct (decide (P (f x))) as [yes|no], (decide (P x)) as [yes'|no'].
  - now rewrite fmap_cons, IH.
  - exfalso. now apply no', same.
  - exfalso. now apply no, same.
  - exact IH.
Qed.

Lemma serve_twoParty now request db :
  wellFormed db → twoParty db → twoParty (serve now request db).
Proof.
  intros [integrity _] two. unfold twoParty, participantsOf.
  destruct (serve_membership now request db)
    as [after -> ->|after id -> ->
       |after c pid1 pid2 u1 u2 users freshC pids fresh1 fresh2 -> ->
       |after c -> ->]; intros cid Hcid.
  - now apply two.
  - destruct (two cid Hcid) as (p & q & rows & distinct).
    exists (Participant.updateWhere id now p), (Participant.updateWhere id now q).
    split.
    + rewrite filter_fmap_commute.
      * unfold participantsOf in rows. now rewrite rows.
      * intros x. now destruct (updateWhere_id id now x) as (_ & -> & _).
    + now destruct (updateWhere_id id now p) as (_ & _ & ->),
        (updateWhere_id id now q) as (_ & _ & ->).
  - rewrite filter_app. apply elem_of_app in Hcid as [old | ->%list_elem_of_singleton].
    + destruct (two cid old) as (p & q & rows & distinct).
      exists p, q. split; [|exact distinct].
      unfold participantsOf in rows. rewrite rows.
      assert (cid ≠ c) by (intros ->; contradiction).
      rewrite !filter_cons_False, filter_nil by (simpl; congruence).
      reflexivity.
    + exists (Participant.mk pid1 c u1 now), (Participant.mk pid2 c u2 now).
      split; [|exact users].
      rewrite (filter_none _ (participants db)).
      * now rewrite !filter_cons_True, filter_nil.
      * intros p Hp same. apply freshC. rewrite <- same. now apply integrity.
  - apply list_elem_of_filter in Hcid as [other old].
    destruct (two cid old) as (p & q & rows & distinct).
    exists p, q. split; [|exact distinct].
    rewrite list_filter_filter. unfold participantsOf in rows. rewrite <- rows.
    apply list_filter_iff. intros x. split; [tauto|].
    intros same. split; [exact same | congruence].
Qed.

Lemma keepsParticipants_same before after :
  participants after = participants before → keepsParticipants before after.
Proof. intros same u c. unfold prisma.someParticipant. now rewrite same. Qed.

Lemma keepsParticipants_read before after id now :
  participants after = Participant.updateWhere id now <$> participants before →
  keepsParticipants before after.
Proof.
  intros read u c. unfold prisma.someParticipant. rewrite read, !Exists_exists.
  intros (p & Hp & Hc & Hu). exists (Participant.updateWhere id now p).
  split; [now apply list_elem_of_fmap_2|].
  now destruct (updateWhere_id id now p) as (_ & -> & ->).
Qed.

Lemma keepsParticipants_more before after extra :
  participants after = participants before ++ extra →
  keepsParticipants before after.
Proof.
  intros more u c. unfold prisma.someParticipant. rewrite more, Exists_app.
  now left.
Qed.

Lemma keepsParticipants_trans a b c :
  keepsParticipants a b → keepsParticipants b c → keepsParticipants a c.
Proof. unfold keepsParticipants. eauto. Qed.

Lemma getOrCreateConversation_keeps ids now user1Id user2Id db :
  let after :=
    (MessageService.getOrCreateConversation ids now user1Id user2Id db).2 in
  keepsParticipants db after
  ∧ messages after = messages db ∧ reactions after = reactions db.
Proof.
  unfold MessageService.getOrCreateConversation,
    prisma.conversation.findFirstBetween, prisma.conversation.create.
  prisma_unfold.
  repeat (case_match || case_decide); simplify_eq/=; repeat split;
    first [now apply keepsParticipants_same
          | now eapply keepsParticipants_more].
Qed.

Ltac keeps_participants :=
  first [ now apply keepsParticipants_same
        | now eapply keepsParticipants_read
        | now eapply keepsParticipants_more ].

Lemma serve_storeStep now request db : StoreStep db (serve now request db).
Proof.
  destruct request; simpl.
  - destruct (getOrCreateConversation_keeps ids now user1Id user2Id db)
      as (keeps & sameM & sameR).
    now apply store_quiet.
  - unfold MessageService.getMessages, prisma.conversationParticipant.findFirst,
      prisma.message.findManyDesc, prisma.conversationParticipant.update.
    prisma_unfold.
    repeat (case_match || case_decide); simplify_eq/=;
      apply store_quiet; try reflexivity; keeps_participants.
  - destruct (MessageService.sendMessage ids messageId now senderId recipientId
                content db) as [[e|[m cid]] db'] eqn:sent.
    + destruct (getOrCreateConversation_keeps ids now senderId recipientId db)
        as (keeps & sameM & sameR).
      unfold MessageService.sendMessage, bind in sent.
      destruct (MessageService.getOrCreateConversation ids now senderId
                  recipientId db) as [[e'|c] db1] eqn:run; simpl in *.
      * injection sent as <- <-. now apply store_quiet.
      * apply getOrCreateConversation_returns in run as [stored _].
        unfold prisma.message.create, prisma.conversation.update, ret in sent.
        destruct (decide (messageId ∈ Message.id <$> messages db1)).
        -- injection sent as <- <-. now apply store_quiet.
        -- simpl in sent.
           rewrite decide_True in sent by now apply list_elem_of_fmap_2.
           discriminate sent.
    + pose proof (sendMessage_stores_facts _ _ _ _ _ _ _ _ _ _ sent)
        as (-> & more & sameR & _ & sender & _).
      simpl. apply store_sent with
        (Message.mk messageId (sanitizeString content) cid senderId now false None);
        try assumption.
      destruct (getOrCreateConversation_keeps ids now senderId recipientId db)
        as (keeps & _ & _).
      unfold MessageService.sendMessage, bind in sent.
      destruct (MessageService.getOrCreateConversation ids now senderId
                  recipientId db) as [[e'|c] db1]; simpl in *; [discriminate|].
      unfold prisma.message.create, prisma.conversation.update, ret in sent.
      repeat (case_match || case_decide); simplify_eq/=.
      eapply keepsParticipants_trans; [exact keeps|].
      now apply keepsParticipants_same.
  - unfold MessageService.editMessage, prisma.message.findUnique,
      prisma.message.update.
    prisma_unfold.
    repeat (case_match || case_decide); simplify_eq/=;
      try (apply store_quiet; try reflexivity; keeps_participants).
    eapply store_edited
      with (f := λ m', if decide (Message.id m' = messageId)
                       then prisma.message.edited (sanitizeString content) now m'
                       else m');
      try reflexivity; [|keeps_participants].
    intros m. now destruct (decide (Message.id m = messageId)).
  - unfold MessageService.deleteMessage, prisma.message.findUnique,
      prisma.message.delete.
    prisma_unfold.
    repeat (case_match || case_decide); simplify_eq/=;
      try (apply store_quiet; try reflexivity; keeps_participants).
    apply store_message_deleted with messageId; try reflexivity.
    keeps_participants.
  - unfold MessageService.addReaction, prisma.message.findUnique,
      prisma.reaction.findUnique, prisma.reaction.create, prisma.reaction.delete.
    prisma_unfold.
    repeat (case_match || case_decide); simplify_eq/=;
      try (apply store_quiet; try reflexivity; keeps_participants).
    + eapply store_unreacted; try reflexivity. keeps_participants.
    + match goal with
      | H : prisma.findFirst _ (messages db) = Some _ |- _ => rename H into found
      end.
      match goal with
      | H : negb (bool_decide _) = false |- _ => rename H into member
      end.
      apply findFirst_Some in found as [stored sameId].
      apply negb_false_iff, bool_decide_eq_true_1 in member.
      eapply store_reacted
        with (r := Reaction.mk reactionId messageId userId emoji);
        [| exact stored | exact sameId | exact member | reflexivity | reflexivity].
      keeps_participants.
  - unfold MessageService.deleteConversation, prisma.conversation.findUnique,
      prisma.conversation.delete.
    prisma_unfold.
    repeat (case_match || case_decide); simplify_eq/=;
      try (apply store_quiet; try reflexivity; keeps_participants).
    now apply store_conversation_deleted with conversationId.
  - unfold MessageService.markAsRead, prisma.conversationParticipant.findFirst,
      prisma.conversationParticipant.update.
    prisma_unfold.
    repeat (case_match || case_decide); simplify_eq/=;
      apply store_quiet; try reflexivity; keeps_participants.
Qed.

Lemma someParticipant_after_delete before after deleted userId conversationId :
  participants after
  = filter (λ p, Participant.conversationId p ≠ deleted) (participants before) →
  conversationId ≠ deleted →
  prisma.someParticipant before userId conversationId →
  prisma.someParticipant after userId conversationId.
Proof.
  intros gone other. unfold prisma.someParticipant.
  rewrite gone, !Exists_exists. intros (p & Hp & Hc & Hu).
  exists p. split; [|now split].
  apply list_elem_of_filter. split; [congruence | exact Hp].
Qed.

Lemma serve_sendersTakePart now request db :
  sendersTakePart db → sendersTakePart (serve now request db).
Proof.
  intros senders. unfold sendersTakePart.
  destruct (serve_storeStep now request db)
    as [after keeps -> _|after m keeps sender -> _|after f same keeps -> _
       |after mid keeps -> _|after r m keeps _ _ _ -> _|after rid keeps -> _
       |after c gone -> _].
  - intros m Hm. now apply keeps, senders.
  - intros m' [Hm | ->%list_elem_of_singleton]%elem_of_app;
      [now apply keeps, senders | exact sender].
  - intros m' (m & -> & Hm)%list_elem_of_fmap.
    destruct (same m) as (_ & -> & ->). now apply keeps, senders.
  - intros m [_ Hm]%list_elem_of_filter. now apply keeps, senders.
  - intros m' Hm. now apply keeps, senders.
  - intros m Hm. now apply keeps, senders.
  - intros m [other Hm]%list_elem_of_filter.
    eapply someParticipant_after_delete; eauto.
Qed.

Lemma serve_reactionsAttached now request db :
  reactionsAttached db → reactionsAttached (serve now request db).
Proof.
  intros attached. unfold reactionsAttached.
  destruct (serve_storeStep now request db)
    as [after keeps -> ->|after m keeps sender -> ->|after f same keeps -> ->
       |after mid keeps -> ->|after r m keeps stored sameId member -> ->
       |after rid keeps -> ->|after c gone -> ->].
  - intros r (m & Hm & Hid & Hp)%attached. exists m. auto.
  - intros r (m' & Hm & Hid & Hp)%attached. exists m'.
    split; [apply elem_of_app; now left | auto].
  - intros r (m & Hm & Hid & Hp)%attached. exists (f m).
    destruct (same m) as (-> & -> & _).
    split; [now apply list_elem_of_fmap_2 | auto].
  - intros r [other (m & Hm & Hid & Hp)%attached]%list_elem_of_filter.
    exists m. split; [|auto].
    apply list_elem_of_filter. split; [congruence | exact Hm].
  - intros r' [(m' & Hm & Hid & Hp)%attached | ->%list_elem_of_singleton]%elem_of_app.
    + exists m'. auto.
    + exists m. auto.
  - intros r [_ (m & Hm & Hid & Hp)%attached]%list_elem_of_filter.
    exists m. auto.
  - intros r [kept (m & Hm & Hid & Hp)%attached]%list_elem_of_filter.
    assert (Message.conversationId m ≠ c) as other.
    { intros same. apply kept. rewrite <- Hid.
      apply list_elem_of_fmap_2, list_elem_of_filter. now split. }
    exists m. split; [apply list_elem_of_filter; now split|].
    split; [exact Hid|].
    eapply someParticipant_after_delete; eauto.
Qed.

(** X10: in every store that the service reaches from the empty one, each
    conversation has exactly two participant rows, of two different users;
    each participant row belongs to a stored conversation; the sender of
    each message takes part in the message's conversation; and each reaction
    is on a stored message, by a user who takes part in that message's
    conversation. *)
Theorem reachable_store_consistent :
  ∀ history : list (Z * Request),
    let db := run history emptyDB in
    twoParty db ∧ referentialIntegrity db
    ∧ sendersTakePart db ∧ reactionsAttached db.
Proof.
  intros history.
  assert (invariant : ∀ db,
            wellFormed db ∧ twoParty db ∧ sendersTakePart db ∧ reactionsAttached db →
            let db' := run history db in
            wellFormed db' ∧ twoParty db' ∧ sendersTakePart db'
            ∧ reactionsAttached db').
  { unfold run. induction history as [|[now request] history IH]; intros db inv;
      [exact inv|].
    simpl. apply IH. destruct inv as (wf & two & senders & attached).
    split; [now apply serve_wellFormed|].
    split; [now apply serve_twoParty|].
    split; [now apply serve_sendersTakePart | now apply serve_reactionsAttached]. }
  destruct (invariant emptyDB) as ((integrity & _) & two & senders & attached).
  - split; [apply emptyDB_wellFormed|]. split; [|split].
    + intros c Hc. now apply not_elem_of_nil in Hc.
    + intros m Hm. now apply not_elem_of_nil in Hm.
    + intros r Hr. now apply not_elem_of_nil in Hr.
  - repeat split; assumption.
Qed.

(** ** The conversation list *)

Lemma head_merge_sort {A} (R : relation A) `{!∀ x y, Decision (R x y)}
    `{!Total R} `{!Transitive R} (l : list A) :
  match head (merge_sort R l) with
  | None => l = []
  | Some first => first ∈ l ∧ ∀ x, x ∈ l → R first x
  end.
Proof.
  pose proof (StronglySorted_merge_sort R l) as sorted.
  pose proof (merge_sort_Permutation R l) as same.
  destruct (merge_sort R l) as [|first rest]; simpl.
  - symmetry in same. now apply Permutation_nil_r in same.
  - split; [rewrite <- same; left|].
    intros x Hx. rewrite <- same in Hx.
    apply StronglySorted_cons in sorted as [above _].
    apply elem_of_cons in Hx as [-> | Hx].
    + destruct (total R first first); assumption.
    + rewrite Forall_forall in above. now apply above.
Qed.

(** X11: [getUserConversations] lists the conversations in which the user
    has a participant row, each once per stored row, most recently updated
    first; the message shown with an entry is one of the newest of that
    conversation, and there is none only if the conversation has no
    message. *)
Theorem getUserConversations_lists :
  ∀ (userId : string) (db : DB),
    ∃ list : list ConversationSummary.t,
      getUserConversations userId db = (inr list, db)
      ∧ ConversationSummary.id <$> list
        ≡ₚ Conversation.id <$>
             filter (λ c, prisma.someParticipant db userId (Conversation.id c))
                    (conversations db)
      ∧ StronglySorted
          (λ a b, ConversationSummary.updatedAt b ≤ ConversationSummary.updatedAt a)
          list
      ∧ ∀ entry, entry ∈ list →
          match ConversationSummary.lastMessage entry with
          | None => messagesOf db (ConversationSummary.id entry) = []
          | Some newest =>
              newest ∈ messagesOf db (ConversationSummary.id entry)
              ∧ ∀ m, m ∈ messagesOf db (ConversationSummary.id entry) →
                     Message.createdAt m ≤ Message.createdAt newest
          end.
Proof.
  intros userId db. eexists. split; [reflexivity|]. split; [|split].
  - rewrite <- list_fmap_compose.
    change (ConversationSummary.id ∘ summarise db userId) with Conversation.id.
    now rewrite merge_sort_Permutation.
  - apply (StronglySorted_fmap _ updatedFirst); [now intros a b|].
    apply StronglySorted_merge_sort; apply _.
  - intros entry (conv & -> & _)%list_elem_of_fmap. simpl.
    apply (head_merge_sort prisma.message.newerFirst).
Qed.

(** X12: in a store where every conversation has its two participant rows
    of two different users, each entry of a user's conversation list names
    the other participant, who is not the user and takes part in the
    conversation, and carries the user's own [lastReadAt]. *)
Theorem getUserConversations_other_user :
  ∀ (userId : string) (db : DB) (list : list ConversationSummary.t)
    (entry : ConversationSummary.t),
    twoParty db →
    (getUserConversations userId db).1 = inr list →
    entry ∈ list →
    ∃ (other : string) (own : Participant.t),
      ConversationSummary.otherUser entry = Some other
      ∧ other ≠ userId
      ∧ prisma.someParticipant db other (ConversationSummary.id entry)
      ∧ ConversationSummary.lastReadAt entry = Some (Participant.lastReadAt own)
      ∧ own ∈ participants db
      ∧ Participant.userId own = userId
      ∧ Participant.conversationId own = ConversationSummary.id entry.
Proof.
  intros userId db list entry two. unfold getUserConversations, gets. simpl.
  intros [= <-] (conv & -> & Hconv)%list_elem_of_fmap.
  rewrite (merge_sort_Permutation updatedFirst) in Hconv.
  apply list_elem_of_filter in Hconv as [member stored].
  destruct (two (Conversation.id conv)) as (p & q & rows & distinct);
    [now apply list_elem_of_fmap_2|].
  assert (inRows : ∀ x, x ∈ [p; q] ↔
            x ∈ participants db
            ∧ Participant.conversationId x = Conversation.id conv).
  { intros x. rewrite <- rows. unfold participantsOf.
    rewrite list_elem_of_filter. tauto. }
  assert (Hp : p ∈ participants db
               ∧ Participant.conversationId p = Conversation.id conv)
    by (apply inRows; left).
  assert (Hq : q ∈ participants db
               ∧ Participant.conversationId q = Conversation.id conv)
    by (apply inRows; right; left).
  assert (mine : Participant.userId p = userId ∨ Participant.userId q = userId).
  { unfold prisma.someParticipant in member.
    apply Exists_exists in member as (x & Hx & Hc & Hu).
    assert (x ∈ [p; q]) as [-> | [-> | Hnil]%elem_of_cons]%elem_of_cons
      by now apply inRows.
    - now left.
    - now right.
    - now apply not_elem_of_nil in Hnil. }
  assert (takes : ∀ x, x ∈ participants db →
            Participant.conversationId x = Conversation.id conv →
            prisma.someParticipant db (Participant.userId x) (Conversation.id conv)).
  { intros x Hx Hc. apply Exists_exists. now exists x. }
  unfold summarise. simpl. rewrite rows. unfold prisma.findFirst.
  rewrite !filter_cons, filter_nil.
  destruct mine as [own | own].
  - exists (Participant.userId q), p.
    rewrite (decide_False (P := Participant.userId p ≠ userId)) by tauto.
    rewrite (decide_True (P := Participant.userId q ≠ userId)) by congruence.
    rewrite (decide_True (P := Participant.userId p = userId)) by exact own.
    simpl. repeat split; try tauto; try congruence. now apply takes.
  - exists (Participant.userId p), q.
    rewrite (decide_True (P := Participant.userId p ≠ userId)) by congruence.
    rewrite (decide_False (P := Participant.userId p = userId)) by congruence.
    rewrite (decide_True (P := Participant.userId q = userId)) by exact own.
    simpl. repeat split; try tauto; try congruence. now apply takes.
Qed.

Lemma getUserConversations_other_user_witness :
  let db := mkDB [Conversation.mk "c1" 10]
                 [Participant.mk "p1" "c1" "alice" 7;
                  Participant.mk "p2" "c1" "bob" 9] [] [] in
  ∃ (other : string) (own : Participant.t),
    ConversationSummary.otherUser (summarise db "bob" (Conversation.mk "c1" 10))
    = Some other
    ∧ other ≠ "bob".
Proof.
  intros db.
  destruct (getUserConversations_other_user "bob" db
              [summarise db "bob" (Conversation.mk "c1" 10)]
              (summarise db "bob" (Conversation.mk "c1" 10)))
    as (other & own & named & differs & _).
  - intros c Hc. unfold conversationIds in Hc. simpl in Hc.
    apply list_elem_of_singleton in Hc as ->.
    exists (Participant.mk "p1" "c1" "alice" 7), (Participant.mk "p2" "c1" "bob" 9).
    split; [vm_compute; reflexivity | intros [=]].
  - vm_compute. reflexivity.
  - left.
  - now exists other, own.
Defined.

Lemma getOrCreateConversation_cases ids now user1Id user2Id db c db1 :
  MessageService.getOrCreateConversation ids now user1Id user2Id db = (inr c, db1) →
  (db1 = db ∧ c ∈ conversations db)
  ∨ (c = Conversation.mk (newConversationId ids) now
     ∧ conversations db1 = conversations db ++ [c]).
Proof.
  unfold MessageService.getOrCreateConversation,
    prisma.conversation.findFirstBetween, prisma.conversation.create.
  prisma_unfold.
  destruct (decide (user1Id = user2Id)); [discriminate|].
  destruct (prisma.findFirst _ (conversations db)) as [existing|] eqn:found.
  - intros [= <- <-]. left. split; [reflexivity|].
    now apply findFirst_Some in found as [stored _].
  - destruct (decide _); [discriminate|]. intros [= <- <-]. now right.
Qed.

Lemma sendMessage_conversations ids messageId now senderId recipientId content
    db db' message conversationId :
  MessageService.sendMessage ids messageId now senderId recipientId content db
  = (inr (message, conversationId), db') →
  ∀ c, c ∈ conversations db' →
       c ∈ conversations db ∨ c = Conversation.mk conversationId now.
Proof.
  unfold MessageService.sendMessage, bind.
  destruct (MessageService.getOrCreateConversation ids now senderId recipientId db)
    as [[e|conv] db1] eqn:run; [discriminate|].
  pose proof (getOrCreateConversation_returns _ _ _ _ _ _ _ run) as [stored _].
  apply getOrCreateConversation_cases in run as [[-> _] | [created grown]].
  all: unfold prisma.message.create, prisma.conversation.update, ret.
  all: destruct (decide (messageId ∈ Message.id <$> messages _));
    [discriminate|].
  all: simpl; rewrite decide_True by now apply list_elem_of_fmap_2.
  all: intros [= <- <- <-]; simpl.
  all: intros c (c0 & -> & Hc0)%list_elem_of_fmap.
  all: destruct (decide (Conversation.id c0 = Conversation.id conv))
    as [hit|miss]; [now right|].
  - now left.
  - rewrite grown in Hc0.
    apply elem_of_app in Hc0 as [old | ->%list_elem_of_singleton];
      [now left | now contradict miss].
Qed.

(** X13: when a message is sent at a time later than every stored
    conversation update and every stored message, its conversation comes
    first in the conversation list of the sender and of the recipient, with
    that message as the one shown. *)
Theorem sendMessage_tops_conversation_list :
  ∀ (ids : ConversationIds) (messageId : string) (now : Z)
    (senderId recipientId : string) (content : JsString) (db db' : DB)
    (message : Message.t) (conversationId reader : string),
    MessageService.sendMessage ids messageId now senderId recipientId content db
    = (inr (message, conversationId), db') →
    (∀ c, c ∈ conversations db → Conversation.updatedAt c < now) →
    (∀ m, m ∈ messages db → Message.createdAt m < now) →
    reader = senderId ∨ reader = recipientId →
    ∃ (first : ConversationSummary.t) (rest : list ConversationSummary.t),
      getUserConversations reader db' = (inr (first :: rest), db')
      ∧ ConversationSummary.id first = conversationId
      ∧ ConversationSummary.updatedAt first = now
      ∧ ConversationSummary.lastMessage first = Some message.
Proof.
  intros ids messageId now senderId recipientId content db db' message
    conversationId reader sent olderC olderM who.
  pose proof (sendMessage_conversations _ _ _ _ _ _ _ _ _ _ sent) as rows.
  pose proof (sendMessage_stores_facts _ _ _ _ _ _ _ _ _ _ sent)
    as (shape & more & _ & _ & sender & recipient & stored & bumped).
  assert (member : prisma.someParticipant db' reader conversationId)
    by (destruct who as [-> | ->]; assumption).
  unfold getUserConversations, gets.
  set (mine := filter (λ c, prisma.someParticipant db' reader (Conversation.id c))
                 (conversations db')).
  assert (listed : Conversation.mk conversationId now ∈ mine)
    by (apply list_elem_of_filter; now split).
  pose proof (head_merge_sort updatedFirst mine) as top.
  destruct (merge_sort updatedFirst mine) as [|conv others]; simpl in top.
  { rewrite top in listed. now apply not_elem_of_nil in listed. }
  destruct top as [Hconv above].
  apply list_elem_of_filter in Hconv as [_ Hconv].
  specialize (above _ listed). unfold updatedFirst in above. simpl in above.
  assert (conv = Conversation.mk conversationId now) as ->.
  { destruct (rows conv Hconv) as [old | ?]; [|assumption].
    specialize (olderC conv old). lia. }
  exists (summarise db' reader (Conversation.mk conversationId now)),
         (summarise db' reader <$> others).
  split; [reflexivity|]. split; [reflexivity|]. split; [reflexivity|].
  unfold summarise. simpl.
  pose proof (head_merge_sort prisma.message.newerFirst
                (messagesOf db' conversationId)) as newest.
  assert (here : message ∈ messagesOf db' conversationId).
  { unfold messagesOf. rewrite more. apply list_elem_of_filter.
    split; [now rewrite shape | apply elem_of_app; right; left]. }
  destruct (head _) as [top|]; [|rewrite newest in here;
                                  now apply not_elem_of_nil in here].
  destruct newest as [Htop latest].
  specialize (latest _ here). unfold prisma.message.newerFirst in latest.
  apply list_elem_of_filter in Htop as [_ Htop].
  rewrite more in Htop.
  apply elem_of_app in Htop as [old | ->%list_elem_of_singleton];
    [|reflexivity].
  specialize (olderM top old). rewrite shape in latest. simpl in latest. lia.
Qed.

Lemma sendMessage_tops_conversation_list_witness :
  let older := Conversation.mk "c0" 500 in
  let db := mkDB [older]
              [Participant.mk "q1" "c0" "alice" 500;
               Participant.mk "q2" "c0" "carol" 500] [] [] in
  let message := Message.mk "m1" (js "hi") "c1" "alice" 1000 false None in
  let db' := mkDB [older; Conversation.mk "c1" 1000]
               [Participant.mk "q1" "c0" "alice" 500;
                Participant.mk "q2" "c0" "carol" 500;
                Participant.mk "p1" "c1" "alice" 1000;
                Participant.mk "p2" "c1" "bob" 1000] [message] [] in
  ∃ (first : ConversationSummary.t) (rest : list ConversationSummary.t),
    getUserConversations "alice" db' = (inr (first :: rest), db')
    ∧ ConversationSummary.id first = "c1"
    ∧ ConversationSummary.updatedAt first = 1000
    ∧ ConversationSummary.lastMessage first = Some message.
Proof.
  intros older db message db'.
  apply (sendMessage_tops_conversation_list (mkConversationIds "c1" "p1" "p2")
           "m1" 1000 "alice" "bob" (js "hi") db db' message "c1" "alice").
  - vm_compute. reflexivity.
  - intros c ->%list_elem_of_singleton. simpl. lia.
  - intros m Hm. now apply not_elem_of_nil in Hm.
  - now left.
Defined.

(** ** The gateway's handlers *)

(** X14: each of [message:edit], [message:delete], [message:react] and
    [conversation:delete] leaves the presence registry alone, does to the
    store what the service call does, and answers through the callback
    exactly once when one was supplied and never otherwise, after its
    announcements.  When the service throws, nothing is announced, the store
    is unchanged and the reply is the failure with the error's message;
    otherwise the reply is a success. *)
Theorem handle_replies_once :
  ∀ (socket : Socket.t) (intent : Intent) (callback : bool) (srv : Server),
    let '(now, request) := requestOf socket intent in
    let '(srv', emitted) := handle socket intent callback srv in
    onlineUsers srv' = onlineUsers srv
    ∧ db srv' = serve now request (db srv)
    ∧ ∃ (notices : list Outbound) (reply : Reply),
        emitted = notices ++ acknowledge callback socket reply
        ∧ Forall (λ o, ¬ isAcknowledge o) notices
        ∧ match thrown now request (db srv) with
          | Some e =>
              notices = [] ∧ reply = Failed (errorMessage e)
              ∧ db srv' = db srv
          | None => ∀ message, reply ≠ Failed message
          end.
Proof.
  intros socket intent callback srv.
  destruct intent; simpl.
  - unfold Gateway.messageEdit.
    pose proof (thrown_request_facts now
                  (EditMessage messageId (Socket.userId socket) content) (db srv))
      as atomic.
    simpl in *.
    destruct (MessageService.editMessage _ _ _ _ _) as [[e|m] db'] eqn:run;
      simpl in *.
    + split; [reflexivity|]. split; [reflexivity|].
      exists [], (Failed (errorMessage e)). repeat split; try constructor.
      destruct (atomic e eq_refl) as [same | (? & ? & ? & ? & ? & [=] & _)].
      exact same.
    + split; [reflexivity|]. split; [reflexivity|].
      eexists [_], _. split; [reflexivity|].
      split; [repeat constructor; now intros []|]. discriminate.
  - unfold Gateway.messageDelete.
    pose proof (thrown_request_facts 0
                  (DeleteMessage messageId (Socket.userId socket)) (db srv))
      as atomic.
    simpl in *.
    destruct (MessageService.deleteMessage _ _ _) as [[e|c] db'] eqn:run;
      simpl in *.
    + split; [reflexivity|]. split; [reflexivity|].
      exists [], (Failed (errorMessage e)). repeat split; try constructor.
      destruct (atomic e eq_refl) as [same | (? & ? & ? & ? & ? & [=] & _)].
      exact same.
    + split; [reflexivity|]. split; [reflexivity|].
      eexists [_], _. split; [reflexivity|].
      split; [repeat constructor; now intros []|]. discriminate.
  - unfold Gateway.messageReact.
    pose proof (thrown_request_facts 0
                  (AddReaction reactionId messageId (Socket.userId socket) emoji)
                  (db srv)) as atomic.
    simpl in *.
    destruct (MessageService.addReaction _ _ _ _ _) as [[e|[action r]] db'] eqn:run;
      simpl in *.
    + split; [reflexivity|]. split; [reflexivity|].
      exists [], (Failed (errorMessage e)). repeat split; try constructor.
      destruct (atomic e eq_refl) as [same | (? & ? & ? & ? & ? & [=] & _)].
      exact same.
    + split; [reflexivity|]. split; [reflexivity|].
      eexists _, _. split; [reflexivity|]. split; [|discriminate].
      destruct (prisma.findFirst _ _); repeat constructor. now intros [].
  - unfold Gateway.conversationDelete.
    pose proof (thrown_request_facts 0
                  (DeleteConversation conversationId (Socket.userId socket))
                  (db srv)) as atomic.
    simpl in *.
    destruct (MessageService.deleteConversation _ _ _) as [[e|ps] db'] eqn:run;
      simpl in *.
    + split; [reflexivity|]. split; [reflexivity|].
      exists [], (Failed (errorMessage e)). repeat split; try constructor.
      destruct (atomic e eq_refl) as [same | (? & ? & ? & ? & ? & [=] & _)].
      exact same.
    + split; [reflexivity|]. split; [reflexivity|].
      eexists _, _. split; [reflexivity|]. split; [|discriminate].
      apply Forall_forall. intros o (u & Ho & _)%list_elem_of_bind.
      destruct (onlineUsers srv !! u) as [sid|];
        [|now apply not_elem_of_nil in Ho].
      destruct (decide (sid = EmptyString)); [now apply not_elem_of_nil in Ho|].
      apply list_elem_of_singleton in Ho as ->. now intros [].
Qed.

Lemma addReaction_accepts reactionId messageId userId emoji db result db' :
  MessageService.addReaction reactionId messageId userId emoji db
  = (inr result, db') →
  messages db' = messages db
  ∧ participants db' = participants db
  ∧ ∃ message,
      prisma.findFirst (λ m, Message.id m = messageId) (messages db)
      = Some message
      ∧ MessageService.isParticipant db (Message.conversationId message) userId.
Proof.
  unfold MessageService.addReaction, prisma.message.findUnique,
    prisma.reaction.findUnique, prisma.reaction.create, prisma.reaction.delete.
  prisma_unfold.
  destruct (prisma.findFirst _ (messages db)) as [message|]; [|discriminate].
  destruct (bool_decide _) eqn:member; [|discriminate].
  apply bool_decide_eq_true_1 in member. simpl.
  intros run. split; [|split; [|now exists message]];
    repeat (case_match || case_decide); simplify_eq/=; reflexivity.
Qed.

(** X15: a reaction that the service accepted is announced exactly when the
    message is still stored at the handler's second lookup.  When nothing
    else runs between the handler's two awaits the lookup finds the
    message, and the room of its conversation receives one
    [message:reaction] with the action and the reaction, before the
    acknowledgment.  When a participant's [deleteMessage] of that message
    is served in between, the reaction is acknowledged as a success and
    announced to nobody. *)
Theorem messageReact_announces :
  ∀ (socket : Socket.t) (reactionId messageId emoji : string) (callback : bool)
    (srv : Server) (action : ReactionAction) (reaction : Reaction.t) (db' : DB),
    MessageService.addReaction reactionId messageId (Socket.userId socket) emoji
      (db srv) = (inr (action, reaction), db') →
    let announcement (message : Message.t) :=
      Announce (room (Message.conversationId message)) "message:reaction"
        (MessageReaction messageId action reaction) in
    let reply :=
      acknowledge callback socket (SucceededWithReaction action reaction) in
    ∃ message : Message.t,
      prisma.findFirst (λ m, Message.id m = messageId) (messages db')
      = Some message
      ∧ MessageService.isParticipant db' (Message.conversationId message)
          (Socket.userId socket)
      ∧ Gateway.messageReact socket reactionId messageId emoji callback srv
        = (mkServer (onlineUsers srv) db', [announcement message] ++ reply)
      ∧ Gateway.messageReactAfter id socket reactionId messageId emoji callback
          srv
        = Gateway.messageReact socket reactionId messageId emoji callback srv
      ∧ (∀ meanwhile : DB → DB,
           Gateway.messageReactAfter meanwhile socket reactionId messageId emoji
             callback srv
           = (mkServer (onlineUsers srv) (meanwhile db'),
              match prisma.findFirst (λ m, Message.id m = messageId)
                      (messages (meanwhile db')) with
              | Some later => [announcement later]
              | None => []
              end ++ reply))
      ∧ ∀ actor : string,
          MessageService.isParticipant db' (Message.conversationId message)
            actor →
          Gateway.messageReactAfter
            (λ store, (MessageService.deleteMessage messageId actor store).2)
            socket reactionId messageId emoji callback srv
          = (mkServer (onlineUsers srv)
               (MessageService.deleteMessage messageId actor db').2,
             reply).
Proof.
  intros socket reactionId messageId emoji callback srv action reaction db' run
    announcement reply.
  destruct (addReaction_accepts _ _ _ _ _ _ _ run)
    as (same & members & message & found & member).
  assert (after : ∀ meanwhile : DB → DB,
            Gateway.messageReactAfter meanwhile socket reactionId messageId emoji
              callback srv
            = (mkServer (onlineUsers srv) (meanwhile db'),
               match prisma.findFirst (λ m, Message.id m = messageId)
                       (messages (meanwhile db')) with
               | Some later => [announcement later]
               | None => []
               end ++ reply)).
  { intros meanwhile. unfold Gateway.messageReactAfter. rewrite run.
    unfold prisma.message.findUnique, gets. simpl.
    now destruct (prisma.findFirst _ (messages (meanwhile db'))). }
  assert (now : Gateway.messageReact socket reactionId messageId emoji callback srv
                = (mkServer (onlineUsers srv) db', [announcement message] ++ reply)).
  { unfold Gateway.messageReact. rewrite run.
    unfold prisma.message.findUnique, gets. simpl. now rewrite same, found. }
  exists message. rewrite same.
  split; [exact found|]. split; [|split; [exact now|split; [|split; [exact after|]]]].
  - unfold MessageService.isParticipant, prisma.someParticipant in *.
    now rewrite members.
  - rewrite after, now. simpl. now rewrite same, found.
  - intros actor takesPart. rewrite after. f_equal.
    assert (deleted : messages (MessageService.deleteMessage messageId actor db').2
                      = filter (λ m, Message.id m ≠ messageId) (messages db')).
    { unfold MessageService.deleteMessage, prisma.message.findUnique,
        prisma.message.delete.
      prisma_unfold. rewrite same, found. simpl.
      rewrite bool_decide_eq_true_2 by exact takesPart. simpl.
      apply findFirst_Some in found as [stored <-].
      rewrite <- same in stored.
      rewrite decide_True by now apply list_elem_of_fmap_2.
      simpl. now rewrite same. }
    now rewrite deleted, findUnique_message_gone.
Qed.

Lemma messageReact_announces_witness :
  let db0 := mkDB [Conversation.mk "c1" 10]
               [Participant.mk "p1" "c1" "alice" 10;
                Participant.mk "p2" "c1" "bob" 10]
               [Message.mk "m1" (js "hello") "c1" "alice" 10 false None] [] in
  let reaction := Reaction.mk "r1" "m1" "bob" "+1" in
  let socket := Socket.mk "socket-2" "bob" in
  (Gateway.messageReact socket "r1" "m1" "+1" true (mkServer ∅ db0)).2
  = [Announce (room "c1") "message:reaction"
       (MessageReaction "m1" added reaction);
     Acknowledge "socket-2" (SucceededWithReaction added reaction)]
  ∧ (Gateway.messageReactAfter
       (λ store, (MessageService.deleteMessage "m1" "alice" store).2)
       socket "r1" "m1" "+1" true (mkServer ∅ db0)).2
    = [Acknowledge "socket-2" (SucceededWithReaction added reaction)].
Proof.
  intros db0 reaction socket.
  destruct (messageReact_announces socket "r1" "m1" "+1" true
              (mkServer ∅ db0) added reaction
              (mkDB (conversations db0) (participants db0) (messages db0)
                    [reaction]))
    as (message & found & _ & run & _ & _ & unannounced).
  - vm_compute. reflexivity.
  - injection found as <-. split.
    + now rewrite run.
    + rewrite (unannounced "alice"); [reflexivity | by_decision].
Defined.

(** X16: after a successful [conversation:delete], the announcements are
    exactly one [conversation:deleted] for each participant row whose user is
    registered, in the order of the rows, each sent to the socket registered
    for that user, and nothing else before the acknowledgment; participants
    who are not registered get nothing, and the presence registry is not
    changed. *)
Theorem conversationDelete_notifies :
  ∀ (socket : Socket.t) (conversationId : string) (callback : bool)
    (srv : Server) (participantIds : list string) (db' : DB),
    MessageService.deleteConversation conversationId (Socket.userId socket)
      (db srv) = (inr participantIds, db') →
    participantIds
    = Participant.userId <$> participantsOf (db srv) conversationId
    ∧ Socket.userId socket ∈ participantIds
    ∧ ∃ notices : list Outbound,
        Gateway.conversationDelete socket conversationId callback srv
        = (mkServer (onlineUsers srv) db',
           notices ++ acknowledge callback socket Succeeded)
        ∧ Forall2
            (λ userId o,
               ∃ socketId,
                 onlineUsers srv !! userId = Some socketId
                 ∧ socketId ≠ EmptyString
                 ∧ o = Announce socketId "conversation:deleted"
                         (ConversationDeleted conversationId))
            (filter (λ userId,
                       default EmptyString (onlineUsers srv !! userId)
                       ≠ EmptyString) participantIds)
            notices
        ∧ ∀ o, o ∈ notices ↔
               ∃ userId socketId,
                 userId ∈ participantIds
                 ∧ onlineUsers srv !! userId = Some socketId
                 ∧ socketId ≠ EmptyString
                 ∧ o = Announce socketId "conversation:deleted"
                         (ConversationDeleted conversationId).
Proof.
  intros socket conversationId callback srv participantIds db' run.
  assert (ids : participantIds
                = Participant.userId <$> participantsOf (db srv) conversationId
                ∧ Socket.userId socket ∈ participantIds).
  { revert run.
    unfold MessageService.deleteConversation, prisma.conversation.findUnique,
      prisma.conversation.delete.
    prisma_unfold.
    destruct (prisma.findFirst _ (conversations (db srv))); [|discriminate].
    destruct (bool_decide _) eqn:member; [|discriminate]. simpl.
    destruct (decide _); [|discriminate]. intros [= <- _].
    split; [reflexivity|].
    apply bool_decide_eq_true_1 in member.
    apply Exists_exists in member as (p & Hp & <-).
    now apply list_elem_of_fmap_2. }
  split; [apply ids|]. split; [apply ids|].
  unfold Gateway.conversationDelete. rewrite run.
  eexists. split; [reflexivity|]. split.
  - clear. induction participantIds as [|u rest IH]; [constructor|].
    rewrite filter_cons, bind_cons.
    destruct (decide (default EmptyString (onlineUsers srv !! u) ≠ EmptyString))
      as [named|unnamed];
      destruct (onlineUsers srv !! u) as [sid|] eqn:online; simpl in *.
    + rewrite decide_False by exact named.
      constructor; [now exists sid | exact IH].
    + now exfalso; apply named.
    + rewrite decide_True by now destruct (decide (sid = EmptyString)).
      exact IH.
    + exact IH.
  - intros o. rewrite list_elem_of_bind. split.
    + intros (u & Ho & Hu). exists u.
      destruct (onlineUsers srv !! u) as [sid|];
        [|now apply not_elem_of_nil in Ho].
      destruct (decide (sid = EmptyString)); [now apply not_elem_of_nil in Ho|].
      apply list_elem_of_singleton in Ho as ->. now exists sid.
    + intros (u & sid & Hu & online & named & ->). exists u.
      split; [|exact Hu]. rewrite online, decide_False by exact named. left.
Qed.

Lemma conversationDelete_notifies_witness :
  let db0 := mkDB [Conversation.mk "c1" 10]
               [Participant.mk "p1" "c1" "alice" 10;
                Participant.mk "p2" "c1" "bob" 10] [] [] in
  let srv := mkServer {[ "alice" := "socket-1" ]} db0 in
  Gateway.conversationDelete (Socket.mk "socket-2" "bob") "c1" true srv
  = (mkServer {[ "alice" := "socket-1" ]} emptyDB,
     [Announce "socket-1" "conversation:deleted" (ConversationDeleted "c1");
      Acknowledge "socket-2" Succeeded]).
Proof.
  intros db0 srv.
  destruct (conversationDelete_notifies (Socket.mk "socket-2" "bob") "c1" true srv
              ["alice"; "bob"] emptyDB)
    as (_ & _ & notices & run & each & _).
  - vm_compute. reflexivity.
  - rewrite run. clear run.
    apply Forall2_cons_inv_l in each as (o & rest & (sid & online & _ & ->) & none & ->).
    apply Forall2_nil_inv_l in none as ->.
    vm_compute in online. injection online as <-. reflexivity.
Defined.

(** ** Presence and delivery *)

(** X17: connecting and then disconnecting the same socket leaves the
    server as it was exactly when the user was not registered before; a
    user who was registered (on another session) ends up unregistered.
    Either way the others hear [user:online], then [user:offline]. *)
Theorem connection_then_disconnect :
  ∀ (socket : Socket.t) (srv : Server),
    let connected := Handlers.connection socket srv in
    let disconnected := Handlers.disconnect socket connected.1 in
    onlineUsers connected.1 !! Socket.userId socket = Some (Socket.id socket)
    ∧ (disconnected.1 = srv ↔ onlineUsers srv !! Socket.userId socket = None)
    ∧ onlineUsers disconnected.1 !! Socket.userId socket = None
    ∧ (∀ userId, userId ≠ Socket.userId socket →
         onlineUsers disconnected.1 !! userId = onlineUsers srv !! userId)
    ∧ connected.2 ++ disconnected.2
      = [BroadcastFrom (Socket.id socket) "user:online"
           (UserPayload (Socket.userId socket));
         BroadcastFrom (Socket.id socket) "user:offline"
           (UserPayload (Socket.userId socket))].
Proof.
  intros socket [online store]. simpl.
  split; [apply lookup_insert_eq|]. split; [|split; [|split]].
  - rewrite delete_insert_eq. split.
    + intros [= same]. rewrite <- same. apply lookup_delete_eq.
    + intros offline. now rewrite delete_id.
  - apply lookup_delete_eq.
  - intros userId other.
    rewrite lookup_delete_ne, lookup_insert_ne by congruence. reflexivity.
  - reflexivity.
Qed.

(** X18: a [message:send] that the service accepted announces the stored
    message to the room of the conversation the two users share, and sends
    [conversation:update] to the recipient's registered socket, and to
    nobody when the recipient is not registered; the sender is never the
    recipient. *)
Theorem messageSend_delivers :
  ∀ (socket : Socket.t) (ids : ConversationIds) (messageId : string) (now : Z)
    (recipientId : string) (content : JsString) (callback : bool) (srv : Server)
    (message : Message.t) (conversationId : string) (db' : DB),
    MessageService.sendMessage ids messageId now (Socket.userId socket)
      recipientId content (db srv) = (inr (message, conversationId), db') →
    let result :=
      Handlers.messageSend socket ids messageId now recipientId content callback
        srv in
    result.1 = mkServer (onlineUsers srv) db'
    ∧ recipientId ≠ Socket.userId socket
    ∧ message ∈ messagesOf db' conversationId
    ∧ MessageService.isParticipant db' conversationId recipientId
    ∧ head result.2
      = Some (EmitTo (room conversationId) "message:new" (MessagePayload message))
    ∧ ∀ target payload,
        EmitTo target "conversation:update" payload ∈ result.2
        ↔ onlineUsers srv !! recipientId = Some target
          ∧ target ≠ EmptyString
          ∧ payload = ConversationUpdatePayload conversationId message.
Proof.
  intros socket ids messageId now recipientId content callback srv message
    conversationId db' run result.
  destruct (sendMessage_stores_facts _ _ _ _ _ _ _ _ _ _ run)
    as (shape & stored & _ & distinct & _ & recipient & _).
  subst result. unfold Handlers.messageSend. rewrite run. simpl.
  split; [reflexivity|]. split; [congruence|]. split; [|split; [exact recipient|]].
  - unfold messagesOf. apply list_elem_of_filter. split.
    + now rewrite shape.
    + rewrite stored. apply elem_of_app. right. left.
  - split; [reflexivity|].
    intros target payload. rewrite elem_of_cons, elem_of_app. split.
    + intros [[=] | [update | ack]].
      * destruct (onlineUsers srv !! recipientId) as [sid|];
          [|now apply not_elem_of_nil in update].
        destruct (decide (sid = EmptyString));
          [now apply not_elem_of_nil in update|].
        apply list_elem_of_singleton in update as [= -> ->]. done.
      * destruct callback; [|now apply not_elem_of_nil in ack].
        now apply list_elem_of_singleton in ack.
    + intros (online & named & ->). right. left.
      rewrite online, decide_False by exact named. left.
Qed.

Lemma messageSend_delivers_witness :
  let socket := Socket.mk "socket-1" "alice" in
  let ids := mkConversationIds "c1" "p1" "p2" in
  let srv := mkServer {[ "bob" := "socket-2" ]} emptyDB in
  let message := Message.mk "m1" (js "hi") "c1" "alice" 1000 false None in
  EmitTo "socket-2" "conversation:update" (ConversationUpdatePayload "c1" message)
  ∈ (Handlers.messageSend socket ids "m1" 1000 "bob" (js " hi ") true srv).2.
Proof.
  intros socket ids srv message.
  destruct (messageSend_delivers socket ids "m1" 1000 "bob" (js " hi ") true srv
              message "c1"
              (mkDB [Conversation.mk "c1" 1000]
                    [Participant.mk "p1" "c1" "alice" 1000;
                     Participant.mk "p2" "c1" "bob" 1000]
                    [message] []))
    as (_ & _ & _ & _ & _ & told).
  - vm_compute. reflexivity.
  - apply told. repeat split. intros [=].
Defined.

(** * The feed *)

Lemma NoDup_fmap_unique {A B} (f : A → B) (l : list A) (x y : A) :
  NoDup (f <$> l) → x ∈ l → y ∈ l → f x = f y → x = y.
Proof.
  induction l as [|z l IH]; simpl; intros unique Hx Hy same;
    [now apply not_elem_of_nil in Hx|].
  apply NoDup_cons in unique as [fresh unique].
  apply elem_of_cons in Hx as [->|Hx], Hy as [->|Hy].
  - reflexivity.
  - exfalso. apply fresh. rewrite same. now apply list_elem_of_fmap_2.
  - exfalso. apply fresh. rewrite <- same. now apply list_elem_of_fmap_2.
  - now apply IH.
Qed.

Lemma NoDup_fmap_filter {A B} (f : A → B) (P : A → Prop)
    `{!∀ x, Decision (P x)} (l : list A) :
  NoDup (f <$> l) → NoDup (f <$> filter P l).
Proof.
  intros unique. eapply sublist_NoDup; [exact unique|].
  apply fmap_sublist, sublist_filter.
Qed.

Lemma NoDup_fmap_snoc {A B} (f : A → B) (l : list A) (x : A) :
  NoDup (f <$> l) → f x ∉ f <$> l → NoDup (f <$> l ++ [x]).
Proof.
  intros unique fresh. rewrite fmap_app. apply NoDup_app.
  split; [exact unique|]. split; [|apply NoDup_singleton].
  intros y Hy ->%list_elem_of_singleton. contradiction.
Qed.

Lemma filter_filter_skip {A} (P R : A → Prop)
    `{!∀ x, Decision (P x)} `{!∀ x, Decision (R x)} (l : list A) :
  (∀ x, x ∈ l → P x → R x) → filter P (filter R l) = filter P l.
Proof.
  induction l as [|x l IH]; intros kept; [reflexivity|].
  assert (rest : ∀ y, y ∈ l → P y → R y)
    by (intros y Hy; apply kept; now right).
  rewrite (filter_cons R), (filter_cons P).
  destruct (decide (R x)) as [yes|no], (decide (P x)) as [yes'|no'].
  - rewrite filter_cons_True by exact yes'. now rewrite IH.
  - rewrite filter_cons_False by exact no'. now apply IH.
  - exfalso. apply no, kept; [left|exact yes'].
  - now apply IH.
Qed.

(** Deleting the row with the key of [e] takes exactly [e] away. *)
Lemma filter_delete_key {A B} `{!EqDecision B} (f : A → B) (Q : A → Prop)
    `{!∀ x, Decision (Q x)} (l : list A) (e : A) :
  NoDup (f <$> l) → e ∈ l → Q e →
  S (length (filter Q (filter (λ x, f x ≠ f e) l))) = length (filter Q l).
Proof.
  induction l as [|x l IH]; simpl; intros unique He HQ;
    [now apply not_elem_of_nil in He|].
  apply NoDup_cons in unique as [fresh unique].
  apply elem_of_cons in He as [->|He].
  - rewrite filter_cons_False by (intros other; now apply other).
    rewrite (filter_all (λ y, f y ≠ f x)).
    + now rewrite filter_cons_True.
    + intros y Hy same. apply fresh. rewrite <- same.
      now apply list_elem_of_fmap_2.
  - assert (other : f x ≠ f e).
    { intros same. apply fresh. rewrite same. now apply list_elem_of_fmap_2. }
    rewrite (filter_cons_True (λ y, f y ≠ f e)) by exact other.
    rewrite !(filter_cons Q).
    destruct (decide (Q x)); simpl; now rewrite IH.
Qed.

Lemma isLiked_spec (db : FeedDB) (userId : string) (post : Post.t) :
  userId ≠ EmptyString →
  PostService.isLiked db (Some userId) post = true
  ↔ ∃ l, l ∈ likes db ∧ Like.postId l = Post.id post ∧ Like.userId l = userId.
Proof.
  intros named. unfold PostService.isLiked.
  rewrite decide_False by exact named. rewrite bool_decide_eq_true. split.
  - destruct (filter _ (likes db)) as [|l rest] eqn:matching; simpl; [lia|].
    intros _. exists l.
    assert (Hl : l ∈ filter (λ l, Like.postId l = Post.id post
                                  ∧ Like.userId l = userId) (likes db))
      by (rewrite matching; left).
    now apply list_elem_of_filter in Hl as [[? ?] ?].
  - intros (l & Hl & Hp & Hu).
    assert (Hl' : l ∈ filter (λ l, Like.postId l = Post.id post
                                   ∧ Like.userId l = userId) (likes db))
      by now apply list_elem_of_filter.
    destruct (filter _ (likes db)); [now apply not_elem_of_nil in Hl'|].
    simpl. lia.
Qed.

(** X19: [toggleLike] on an existing post flips the caller's like.  It
    returns the opposite of the [isLiked] flag the caller saw, the flag
    and the like count that [getFeed] and [getPost] show afterwards agree
    with it (the count moves by one), no other user's flag and no other
    post's flag changes, and posts and comments are untouched. *)
Theorem toggleLike_flips :
  ∀ (likeId postId userId : string) (db : FeedDB) (post : Post.t),
    feedKeys db →
    PostService.findPost postId db = Some post →
    likeId ∉ Like.id <$> likes db →
    userId ≠ EmptyString →
    let was := PostService.isLiked db (Some userId) post in
    ∃ db' : FeedDB,
      PostService.toggleLike likeId postId userId db = (inr (negb was), db')
      ∧ posts db' = posts db ∧ comments db' = comments db
      ∧ feedKeys db'
      ∧ PostService.isLiked db' (Some userId) post = negb was
      ∧ (if was
         then S (PostView.likeCount (PostService.counted db' post))
              = PostView.likeCount (PostService.counted db post)
         else PostView.likeCount (PostService.counted db' post)
              = S (PostView.likeCount (PostService.counted db post)))
      ∧ ∀ (other : string) (post' : Post.t),
          (other, Post.id post') ≠ (userId, postId) →
          PostService.isLiked db' (Some other) post'
          = PostService.isLiked db (Some other) post'.
Proof.
  intros likeId postId userId db post (postKeys & likeKeys & pairKeys & commentKeys)
    found fresh named was.
  pose proof (findFirst_Some _ _ _ found) as [_ idp].
  unfold PostService.toggleLike. rewrite found.
  destruct (PostService.findLike postId userId db) as [existing|] eqn:like.
  - pose proof (findFirst_Some _ _ _ like) as [stored [itsPost itsUser]].
    assert (liked : was = true).
    { apply isLiked_spec; [exact named|]. exists existing. now rewrite idp. }
    rewrite decide_True by now apply list_elem_of_fmap_2.
    rewrite liked. eexists. split; [reflexivity|].
    assert (only : ∀ l, l ∈ likes db → Like.id l = Like.id existing →
                        l = existing).
    { intros l Hl. now apply (NoDup_fmap_unique Like.id (likes db)). }
    split; [reflexivity|]. split; [reflexivity|]. split; [|split; [|split]].
    + repeat split; simpl; try assumption; now apply NoDup_fmap_filter.
    + apply not_true_is_false. intros still.
      apply isLiked_spec in still as (l & Hl & Hp & Hu); [|exact named].
      simpl in Hl. apply list_elem_of_filter in Hl as [differs Hl].
      apply differs. f_equal.
      apply (NoDup_fmap_unique (λ l, (Like.postId l, Like.userId l)) (likes db));
        [assumption..|].
      simpl. congruence.
    + unfold PostService.counted. simpl.
      apply (filter_delete_key Like.id); [assumption..|congruence].
    + intros other post' differs. unfold PostService.isLiked. simpl.
      destruct (decide (other = EmptyString)); [reflexivity|].
      rewrite filter_filter_skip; [reflexivity|].
      intros l Hl [Hp Hu] same. apply only in same; [|exact Hl]. subst l.
      apply differs. congruence.
  - pose proof (proj1 (findFirst_None _ _) like) as none.
    assert (unliked : was = false).
    { apply not_true_is_false. intros liked.
      apply isLiked_spec in liked as (l & Hl & Hp & Hu); [|exact named].
      apply (none l Hl). split; congruence. }
    rewrite decide_False.
    2:{ intros [taken | (l & Hl & HP)%Exists_exists]; [contradiction|].
        now apply (none l Hl). }
    rewrite unliked. eexists. split; [reflexivity|].
    split; [reflexivity|]. split; [reflexivity|]. split; [|split; [|split]].
    + repeat split; simpl; try assumption.
      * now apply NoDup_fmap_snoc.
      * apply NoDup_fmap_snoc; [assumption|]. simpl.
        intros (l & [= Hp Hu] & Hl)%list_elem_of_fmap.
        now apply (none l Hl).
    + apply isLiked_spec; [exact named|].
      exists (Like.mk likeId postId userId). simpl.
      split; [|now split]. apply elem_of_app. right. left.
    + unfold PostService.counted. simpl.
      rewrite filter_app, length_app, filter_cons_True by (simpl; congruence).
      simpl. lia.
    + intros other post' differs. unfold PostService.isLiked. simpl.
      destruct (decide (other = EmptyString)); [reflexivity|].
      rewrite filter_app, filter_cons_False, filter_nil, app_nil_r; [reflexivity|].
      simpl. intros [Hp Hu]. apply differs. congruence.
Qed.

Lemma toggleLike_flips_witness :
  let post := Post.mk "p1" (js "hello") None "alice" 10 in
  let db := mkFeedDB [post] [Like.mk "l1" "p1" "bob"] [] in
  ∃ db' : FeedDB,
    PostService.toggleLike "l2" "p1" "bob" db = (inr false, db')
    ∧ PostService.isLiked db' (Some "bob") post = false.
Proof.
  intros post db.
  destruct (toggleLike_flips "l2" "p1" "bob" db post)
    as (db' & run & _ & _ & _ & flag & _).
  - unfold feedKeys. by_decision.
  - reflexivity.
  - by_decision.
  - intros [=].
  - exists db'. split; [exact run | exact flag].
Defined.

Lemma serveFeed_feedKeys (r : FeedRequest) (db : FeedDB) :
  feedKeys db → feedKeys (serveFeed r db).
Proof.
  intros (postKeys & likeKeys & pairKeys & commentKeys).
  destruct r; simpl.
  - unfold PostService.createPost.
    destruct (decide (id ∈ Post.id <$> posts db)); simpl;
      [now repeat split|].
    repeat split; simpl; try assumption. now apply NoDup_fmap_snoc.
  - unfold PostService.updatePost.
    destruct (PostService.findPost postId db) as [post|]; [|now repeat split].
    destruct (decide (Post.authorId post ≠ userId)); [now repeat split|].
    repeat split; simpl; try assumption.
    rewrite <- list_fmap_compose.
    erewrite list_fmap_ext; [exact postKeys|].
    intros _ p _. simpl. now destruct (decide (Post.id p = postId)).
  - unfold PostService.toggleLike.
    destruct (PostService.findPost postId db) as [post|]; [|now repeat split].
    destruct (PostService.findLike postId userId db) as [existing|].
    + destruct (decide (Like.id existing ∈ Like.id <$> likes db));
        [|now repeat split].
      repeat split; simpl; try assumption; now apply NoDup_fmap_filter.
    + destruct (decide _) as [|free]; [now repeat split|].
      repeat split; simpl; try assumption.
      * apply NoDup_fmap_snoc; [assumption|]. simpl. tauto.
      * apply NoDup_fmap_snoc; [assumption|]. simpl.
        intros (l & [= Hp Hu] & Hl)%list_elem_of_fmap.
        apply free. right. apply Exists_exists. now exists l.
  - unfold PostService.addComment.
    destruct (PostService.findPost postId db) as [post|]; [|now repeat split].
    destruct (decide (commentId ∈ Comment.id <$> comments db));
      [now repeat split|].
    repeat split; simpl; try assumption. now apply NoDup_fmap_snoc.
  - unfold PostService.updateComment.
    destruct (PostService.findComment commentId db) as [comment|];
      [|now repeat split].
    destruct (decide (Comment.authorId comment ≠ userId)); [now repeat split|].
    repeat split; simpl; try assumption.
    rewrite <- list_fmap_compose.
    erewrite list_fmap_ext; [exact commentKeys|].
    intros _ c _. simpl. now destruct (decide (Comment.id c = commentId)).
  - unfold PostService.deleteComment.
    destruct (PostService.findComment commentId db) as [comment|];
      [|now repeat split].
    destruct (decide (Comment.authorId comment ≠ userId)); [now repeat split|].
    repeat split; simpl; try assumption. now apply NoDup_fmap_filter.
Qed.

Lemma runFeed_feedKeys (requests : list FeedRequest) (db : FeedDB) :
  feedKeys db → feedKeys (runFeed requests db).
Proof.
  unfold runFeed. revert db.
  induction requests as [|r requests IH]; intros db keys; [exact keys|].
  simpl. now apply IH, serveFeed_feedKeys.
Qed.

(** X20: no write of [PostService] touches what belongs to somebody else:
    after any request, served or refused, every post and every comment
    written by another user, and every like of another user, is still
    stored as it was. *)
Theorem feed_rows_of_others_stay :
  ∀ (r : FeedRequest) (db : FeedDB),
    feedKeys db →
    let db' := serveFeed r db in
    (∀ p, p ∈ posts db → Post.authorId p ≠ requester r → p ∈ posts db')
    ∧ (∀ c, c ∈ comments db → Comment.authorId c ≠ requester r →
            c ∈ comments db')
    ∧ (∀ l, l ∈ likes db → Like.userId l ≠ requester r → l ∈ likes db').
Proof.
  intros r db (postKeys & likeKeys & pairKeys & commentKeys).
  destruct r; simpl.
  - unfold PostService.createPost.
    destruct (decide (id ∈ Post.id <$> posts db)); simpl; [now repeat split|].
    repeat split; try done. intros p Hp _. apply elem_of_app. now left.
  - unfold PostService.updatePost.
    destruct (PostService.findPost postId db) as [post|] eqn:found;
      [|now repeat split].
    destruct (decide (Post.authorId post ≠ userId)) as [|own];
      [now repeat split|].
    apply findFirst_Some in found as [stored itsId].
    simpl. repeat split; try done.
    intros p Hp theirs. apply list_elem_of_fmap. exists p. split; [|exact Hp].
    destruct (decide (Post.id p = postId)) as [same|]; [|reflexivity].
    exfalso. apply theirs.
    rewrite (NoDup_fmap_unique Post.id (posts db) p post) by congruence.
    now destruct (decide (Post.authorId post = userId)); [|exfalso; apply own].
  - unfold PostService.toggleLike.
    destruct (PostService.findPost postId db) as [post|]; [|now repeat split].
    destruct (PostService.findLike postId userId db) as [existing|] eqn:like.
    + destruct (decide (Like.id existing ∈ Like.id <$> likes db));
        [|now repeat split].
      apply findFirst_Some in like as [stored [_ itsUser]].
      simpl. repeat split; try done.
      intros l Hl theirs. apply list_elem_of_filter. split; [|exact Hl].
      intros same. apply theirs.
      now rewrite (NoDup_fmap_unique Like.id (likes db) l existing).
    + destruct (decide _); [now repeat split|].
      simpl. repeat split; try done.
      intros l Hl _. apply elem_of_app. now left.
  - unfold PostService.addComment.
    destruct (PostService.findPost postId db) as [post|]; [|now repeat split].
    destruct (decide (commentId ∈ Comment.id <$> comments db));
      [now repeat split|].
    simpl. repeat split; try done.
    intros c Hc _. apply elem_of_app. now left.
  - unfold PostService.updateComment.
    destruct (PostService.findComment commentId db) as [comment|] eqn:found;
      [|now repeat split].
    destruct (decide (Comment.authorId comment ≠ userId)) as [|own];
      [now repeat split|].
    apply findFirst_Some in found as [stored itsId].
    simpl. repeat split; try done.
    intros c Hc theirs. apply list_elem_of_fmap. exists c. split; [|exact Hc].
    destruct (decide (Comment.id c = commentId)) as [same|]; [|reflexivity].
    exfalso. apply theirs.
    rewrite (NoDup_fmap_unique Comment.id (comments db) c comment) by congruence.
    now destruct (decide (Comment.authorId comment = userId));
      [|exfalso; apply own].
  - unfold PostService.deleteComment.
    destruct (PostService.findComment commentId db) as [comment|] eqn:found;
      [|now repeat split].
    destruct (decide (Comment.authorId comment ≠ userId)) as [|own];
      [now repeat split|].
    apply findFirst_Some in found as [stored itsId].
    simpl. repeat split; try done.
    intros c Hc theirs. apply list_elem_of_filter. split; [|exact Hc].
    intros same. apply theirs.
    rewrite (NoDup_fmap_unique Comment.id (comments db) c comment) by congruence.
    now destruct (decide (Comment.authorId comment = userId));
      [|exfalso; apply own].
Qed.

Lemma feed_rows_of_others_stay_witness :
  let post := Post.mk "p1" (js "hello") None "alice" 10 in
  let db := mkFeedDB [post] [] [Comment.mk "k1" (js "nice") "p1" "bob" 11] in
  post ∈ posts (serveFeed (UpdatePost "p1" "bob" (js "mine now")) db).
Proof.
  intros post db.
  destruct (feed_rows_of_others_stay (UpdatePost "p1" "bob" (js "mine now")) db)
    as (kept & _).
  - unfold feedKeys. by_decision.
  - apply kept; [left | intros [=]].
Defined.

(** ** Paging *)

Lemma getFeed_page (database : FindMany.t) (userId : option string)
    (page limit : Z) (db : FeedDB) :
  1 ≤ page → 0 ≤ limit →
  PostService.getFeed database userId (Some page) (Some limit) db
  = (inr (PostService.transformed db userId <$>
            take (Z.to_nat limit)
              (drop (Z.to_nat ((page - 1) * limit))
                 (FindMany.ordered database))), db).
Proof.
  intros Hpage Hlimit. unfold PostService.getFeed, FindMany.run. simpl.
  now rewrite (decide_True (P := 0 ≤ (page - 1) * limit ∧ 0 ≤ limit)) by nia.
Qed.

Lemma transformed_post (db : FeedDB) (userId : option string)
    (l : list Post.t) :
  FeedItem.post <$> (PostService.transformed db userId <$> l) = l.
Proof.
  rewrite <- list_fmap_compose. rewrite <- (list_fmap_id l) at 2.
  now apply list_fmap_ext.
Qed.

(** With creation times all different there is one order, newest first. *)
Lemma newestFirstOf_unique (db : FeedDB) (rows : list Post.t) :
  NoDup (Post.createdAt <$> posts db) →
  newestFirstOf db rows →
  rows = merge_sort postNewerFirst (posts db).
Proof.
  intros distinct [same sorted].
  apply (StronglySorted_unique_strong postNewerFirst).
  - intros x y Hx Hy older newer.
    rewrite same in Hx. rewrite merge_sort_Permutation in Hy.
    apply (NoDup_fmap_unique Post.createdAt (posts db)); try assumption.
    unfold postNewerFirst in *. lia.
  - exact sorted.
  - apply StronglySorted_merge_sort; apply _.
  - now rewrite merge_sort_Permutation.
Qed.

(** X21: reading the feed page by page shows every post once, provided no
    two posts were created at the same time.  Then, with a page size above
    zero and no write in between, pages [1] to [n] put one after the other
    are the [n * limit] newest posts, newest first and none twice, whatever
    order the database gives each query; once [n * limit] reaches the number
    of posts they are all the posts.  With two posts of the same creation
    time the database may order them differently for two queries, and then
    pages [1] and [2] can show one of them twice and the other never. *)
Theorem getFeed_pages_cover :
  (∀ (database : nat → FindMany.t) (userId : option string) (limit : Z)
     (n : nat) (db : FeedDB),
     0 < limit →
     NoDup (Post.createdAt <$> posts db) →
     (∀ k, newestFirstOf db (FindMany.ordered (database k))) →
     let pagePosts (k : nat) : list Post.t :=
       match (PostService.getFeed (database k) userId (Some (Z.of_nat k))
                (Some limit) db).1 with
       | inr items => FeedItem.post <$> items
       | inl _ => []
       end in
     let shown := mjoin (pagePosts <$> seq 1 n) in
     shown = take (n * Z.to_nat limit) (merge_sort postNewerFirst (posts db))
     ∧ StronglySorted postNewerFirst shown
     ∧ NoDup shown
     ∧ ((length (posts db) ≤ n * Z.to_nat limit)%nat → shown ≡ₚ posts db)
     ∧ ∀ k, (PostService.getFeed (database k) userId (Some (Z.of_nat k))
               (Some limit) db).2 = db)
  ∧ ∃ (database : nat → FindMany.t) (db : FeedDB) (shownTwice never : Post.t),
      posts db = [shownTwice; never]
      ∧ shownTwice ≠ never
      ∧ (∀ k, newestFirstOf db (FindMany.ordered (database k)))
      ∧ mjoin ((λ k : nat,
                  match (PostService.getFeed (database k) None
                           (Some (Z.of_nat k)) (Some 1) db).1 with
                  | inr items => FeedItem.post <$> items
                  | inl _ => []
                  end) <$> seq 1 2)
        = [shownTwice; shownTwice].
Proof.
  split.
  - intros database userId limit n db positive distinct orders pagePosts shown.
    assert (prefix : shown
                     = take (n * Z.to_nat limit)
                         (merge_sort postNewerFirst (posts db))).
    { subst shown. induction n as [|n IH]; [reflexivity|].
      rewrite seq_S, fmap_app, join_app, IH. simpl. rewrite app_nil_r.
      unfold pagePosts. rewrite getFeed_page by lia. simpl.
      rewrite transformed_post.
      rewrite (newestFirstOf_unique db _ distinct (orders (S n))).
      replace (Z.to_nat ((Z.of_nat (S n) - 1) * limit))
        with (n * Z.to_nat limit)%nat by nia.
      rewrite take_take_drop. f_equal. lia. }
    assert (unique : NoDup (merge_sort postNewerFirst (posts db))).
    { rewrite merge_sort_Permutation. now apply NoDup_fmap_1 in distinct. }
    split; [exact prefix|]. split; [|split; [|split]].
    + rewrite prefix. apply StronglySorted_take.
      apply StronglySorted_merge_sort; apply _.
    + rewrite prefix. eapply sublist_NoDup; [exact unique|apply sublist_take].
    + intros enough. rewrite prefix, take_ge.
      * apply merge_sort_Permutation.
      * now rewrite merge_sort_Permutation.
    + intros k. unfold PostService.getFeed.
      now destruct (FindMany.run _ _ _).
  - set (p := Post.mk "p1" (js "first") None "alice" 10).
    set (q := Post.mk "p2" (js "second") None "bob" 10).
    exists (λ k, if decide (k = 1%nat)
                 then FindMany.mk [p; q] (λ _ _, inr [])
                 else FindMany.mk [q; p] (λ _ _, inr [])),
           (mkFeedDB [p; q] [] []), p, q.
    split; [reflexivity|]. split; [discriminate|]. split; [|reflexivity].
    intros k. destruct (decide (k = 1%nat)); split; simpl.
    + reflexivity.
    + repeat constructor; unfold postNewerFirst; simpl; lia.
    + apply Permutation_swap.
    + repeat constructor; unfold postNewerFirst; simpl; lia.
Qed.

Lemma getFeed_pages_cover_witness :
  let post id time := Post.mk id (js "hello") None "alice" time in
  let db := mkFeedDB [post "p1" 10; post "p3" 30; post "p2" 20] [] [] in
  let database (k : nat) :=
    FindMany.mk [post "p3" 30; post "p2" 20; post "p1" 10] (λ _ _, inr []) in
  mjoin ((λ k : nat,
            match (PostService.getFeed (database k) None (Some (Z.of_nat k))
                     (Some 2) db).1 with
            | inr items => FeedItem.post <$> items
            | inl _ => []
            end) <$> seq 1 2)
  = [post "p3" 30; post "p2" 20; post "p1" 10].
Proof.
  intros post db database.
  destruct (proj1 getFeed_pages_cover database None 2 2%nat db)
    as (prefix & _).
  - lia.
  - by_decision.
  - intros k. split; simpl.
    + rewrite (Permutation_swap (post "p3" 30) (post "p1" 10)
                 [post "p2" 20]).
      apply perm_skip, Permutation_swap.
    + repeat constructor; unfold postNewerFirst; simpl; lia.
  - rewrite prefix. reflexivity.
Defined.

(** The length of one page of a list, against the number of rows. *)
Lemma page_full {A} (l : list A) (page limit : nat) :
  (0 < limit)%nat → (1 ≤ page)%nat →
  length (take limit (drop ((page - 1) * limit) l)) = limit
  ↔ (page * limit ≤ length l)%nat.
Proof.
  intros Hlimit Hpage. rewrite length_take, length_drop. nia.
Qed.

Lemma page_empty {A} (l : list A) (page limit : nat) :
  (0 < limit)%nat →
  take limit (drop (page * limit) l) = [] ↔ (length l ≤ page * limit)%nat.
Proof.
  intros Hlimit. split.
  - intros empty. apply (f_equal length) in empty.
    rewrite length_take, length_drop in empty. simpl in empty. lia.
  - intros short. rewrite drop_ge by exact short. apply take_nil.
Qed.

Lemma getMessages_run (now : Z) (conversationId userId : string)
    (page limit : Z) (db : DB) (participant : Participant.t) :
  prisma.findFirst (λ p, Participant.conversationId p = conversationId
                         ∧ Participant.userId p = userId) (participants db)
  = Some participant →
  1 ≤ page → 0 ≤ limit →
  MessageService.getMessages now conversationId userId page limit db
  = (inr (reverse (take (Z.to_nat limit)
                     (drop (Z.to_nat ((page - 1) * limit))
                        (merge_sort prisma.message.newerFirst
                           (messagesOf db conversationId))))),
     markedRead (Participant.id participant) now db).
Proof.
  intros found Hpage Hlimit.
  pose proof (findFirst_Some _ _ _ found) as [stored _].
  unfold MessageService.getMessages, prisma.conversationParticipant.findFirst,
    prisma.message.findManyDesc, prisma.conversationParticipant.update.
  prisma_unfold. rewrite found.
  rewrite (decide_False (P := (page - 1) * limit < 0)) by nia.
  rewrite decide_True by now apply list_elem_of_fmap_2.
  unfold prisma.message.window. now rewrite decide_True.
Qed.

(** X22: what [hasMore] of [GET /api/conversations/:id/messages] tells a
    participant who pages forward with a positive page size.  [hasMore] is
    true exactly when the conversation has at least [page * limit]
    messages, and the next page is empty exactly when it has at most
    that many: after [hasMore = false] the next page is always empty, but
    [hasMore = true] is also answered when the conversation ends with this
    page.  A page or page size of [0], or one that does not parse, is
    replaced by [1] and [50]. *)
Theorem getMessages_hasMore :
  ∀ (now later : Z) (id userId : string) (pageQuery limitQuery : option Z)
    (db : DB) (participant : Participant.t),
    (prisma.conversationParticipant.findFirst id userId db).1
    = inr (Some participant) →
    let page := orElse pageQuery 1 in
    let limit := orElse limitQuery 50 in
    1 ≤ page → 0 < limit →
    ∃ (messages next : list Message.t) (more : bool) (db' db'' : DB),
      MessageController.getMessages now id userId pageQuery limitQuery db
      = (inr (messages, mkPagination page limit more), db')
      ∧ MessageService.getMessages later id userId (page + 1) limit db'
        = (inr next, db'')
      ∧ (more = true ↔ page * limit ≤ Z.of_nat (length (messagesOf db id)))
      ∧ (next = [] ↔ Z.of_nat (length (messagesOf db id)) ≤ page * limit)
      ∧ (more = false → next = []).
Proof.
  intros now later id userId pageQuery limitQuery db participant found
    page limit Hpage Hlimit.
  unfold prisma.conversationParticipant.findFirst, gets in found.
  injection found as found.
  set (db' := markedRead (Participant.id participant) now db).
  assert (found' : prisma.findFirst
                     (λ p, Participant.conversationId p = id
                           ∧ Participant.userId p = userId) (participants db')
                   = Some (Participant.updateWhere (Participant.id participant)
                             now participant)).
  { subst db'. unfold markedRead. simpl.
    rewrite findFirst_fmap, found; [reflexivity|].
    intros p. unfold Participant.updateWhere.
    now destruct (decide (Participant.id p = Participant.id participant)). }
  assert (same : messagesOf db' id = messagesOf db id) by reflexivity.
  set (sorted := merge_sort prisma.message.newerFirst (messagesOf db id)).
  assert (size : length sorted = length (messagesOf db id))
    by (subst sorted; now rewrite merge_sort_Permutation).
  exists (reverse (take (Z.to_nat limit)
                     (drop (Z.to_nat ((page - 1) * limit)) sorted))),
         (reverse (take (Z.to_nat limit)
                     (drop (Z.to_nat ((page + 1 - 1) * limit)) sorted))),
         (bool_decide
            (Z.of_nat (length (reverse (take (Z.to_nat limit)
                         (drop (Z.to_nat ((page - 1) * limit)) sorted))))
             = limit)),
         db', (markedRead (Participant.id
                 (Participant.updateWhere (Participant.id participant) now
                    participant)) later db').
  assert (full : bool_decide
            (Z.of_nat (length (reverse (take (Z.to_nat limit)
                         (drop (Z.to_nat ((page - 1) * limit)) sorted))))
             = limit) = true
          ↔ page * limit ≤ Z.of_nat (length (messagesOf db id))).
  { rewrite bool_decide_eq_true, length_reverse, <- size.
    replace (Z.to_nat ((page - 1) * limit))
      with ((Z.to_nat page - 1) * Z.to_nat limit)%nat by nia.
    pose proof (page_full sorted (Z.to_nat page) (Z.to_nat limit)
                  ltac:(lia) ltac:(lia)) as count.
    split; intros H.
    - assert ((Z.to_nat page * Z.to_nat limit ≤ length sorted)%nat); [|nia].
      apply count. lia.
    - assert (length (take (Z.to_nat limit)
                        (drop ((Z.to_nat page - 1) * Z.to_nat limit) sorted))
              = Z.to_nat limit); [|lia].
      apply count. nia. }
  assert (empty : reverse (take (Z.to_nat limit)
                     (drop (Z.to_nat ((page + 1 - 1) * limit)) sorted)) = []
          ↔ Z.of_nat (length (messagesOf db id)) ≤ page * limit).
  { rewrite <- size.
    replace (Z.to_nat ((page + 1 - 1) * limit))
      with (Z.to_nat page * Z.to_nat limit)%nat by nia.
    pose proof (page_empty sorted (Z.to_nat page) (Z.to_nat limit)
                  ltac:(lia)) as count.
    split; intros H.
    - assert ((length sorted ≤ Z.to_nat page * Z.to_nat limit)%nat); [|nia].
      apply count. apply (f_equal reverse) in H.
      now rewrite reverse_involutive in H.
    - assert (none : take (Z.to_nat limit)
                       (drop (Z.to_nat page * Z.to_nat limit) sorted) = [])
        by (apply count; nia).
      now rewrite none. }
  split; [|split; [|split; [exact full|split; [exact empty|]]]].
  - unfold MessageController.getMessages, bind, ret.
    fold page limit.
    now rewrite (getMessages_run now id userId page limit db participant)
      by (assumption || lia).
  - rewrite (getMessages_run later id userId (page + 1) limit db' _ found')
      by lia.
    now rewrite same.
  - intros less. apply empty.
    destruct (decide (page * limit ≤ Z.of_nat (length (messagesOf db id))))
      as [enough|]; [|lia].
    apply full in enough. congruence.
Qed.

Lemma getMessages_hasMore_witness :
  let message id time := Message.mk id (js "hi") "c1" "alice" time false None in
  let db := mkDB [Conversation.mk "c1" 10]
                 [Participant.mk "p1" "c1" "alice" 10;
                  Participant.mk "p2" "c1" "bob" 10]
                 [message "m1" 10; message "m2" 20] [] in
  ∃ (messages : list Message.t) (db' db'' : DB),
    MessageController.getMessages 100 "c1" "bob" None (Some 2) db
    = (inr (messages, mkPagination 1 2 true), db')
    ∧ MessageService.getMessages 101 "c1" "bob" 2 2 db' = (inr [], db'').
Proof.
  intros message db.
  destruct (getMessages_hasMore 100 101 "c1" "bob" None (Some 2) db
              (Participant.mk "p2" "c1" "bob" 10))
    as (messages & next & more & db' & db'' & run & run' & full & empty & _).
  - vm_compute. reflexivity.
  - vm_compute. discriminate.
  - reflexivity.
  - exists messages, db', db''.
    assert (more = true) as -> by (apply full; vm_compute; discriminate).
    assert (next = []) as -> by (apply empty; vm_compute; discriminate).
    split; [exact run | exact run'].
Defined.

(** X23: [GET /api/posts] for a positive page size and a page number above
    zero, whatever order the database gives to posts of the same creation
    time.  A page number of [0], or one that does not parse, reads page [1].
    The store is left as it is; the entries are stored posts, newest
    first, namely the page's window of the database's order, each with the
    counts and the flag of the store; and [hasMore] is true exactly when
    there are at least [page * limit] posts, so also when the feed ends
    with this page. *)
Theorem getFeed_hasMore :
  ∀ (database : FindMany.t) (userId : option string)
    (pageQuery limitQuery : option Z) (db : FeedDB),
    let page := orElse pageQuery 1 in
    let limit := orElse limitQuery 20 in
    0 < limit →
    0 < page →
    newestFirstOf db (FindMany.ordered database) →
    (pageQuery = None ∨ pageQuery = Some 0 → page = 1)
    ∧ ∃ (items : list FeedItem.t) (more : bool),
        PostController.getFeed database userId pageQuery limitQuery db
        = (inr (items, mkPagination page limit more), db)
        ∧ FeedItem.post <$> items
          = take (Z.to_nat limit)
              (drop (Z.to_nat ((page - 1) * limit)) (FindMany.ordered database))
        ∧ StronglySorted postNewerFirst (FeedItem.post <$> items)
        ∧ (∀ item, item ∈ items →
             FeedItem.post item ∈ posts db
             ∧ item = PostService.transformed db userId (FeedItem.post item))
        ∧ (more = true ↔ page * limit ≤ Z.of_nat (length (posts db))).
Proof.
  intros database userId pageQuery limitQuery db page limit Hlimit Hpage
    [same sorted].
  split.
  - subst page. now intros [-> | ->].
  - set (rows := FindMany.ordered database) in *.
    assert (size : length rows = length (posts db)) by now rewrite same.
    eexists _, _. split; [|split; [|split; [|split]]].
    + unfold PostController.getFeed. fold page limit.
      rewrite getFeed_page by lia. reflexivity.
    + apply transformed_post.
    + rewrite transformed_post.
      now apply StronglySorted_take, StronglySorted_drop.
    + intros item (post & -> & Hpost)%list_elem_of_fmap.
      split; [|reflexivity]. simpl. rewrite <- same.
      now apply subseteq_take, subseteq_drop in Hpost.
    + rewrite bool_decide_eq_true, length_fmap, <- size. fold rows.
      replace (Z.to_nat ((page - 1) * limit))
        with ((Z.to_nat page - 1) * Z.to_nat limit)%nat by nia.
      pose proof (page_full rows (Z.to_nat page) (Z.to_nat limit)
                    ltac:(lia) ltac:(lia)) as count.
      split; intros H.
      * assert ((Z.to_nat page * Z.to_nat limit ≤ length rows)%nat); [|nia].
        apply count. lia.
      * assert (length (take (Z.to_nat limit)
                          (drop ((Z.to_nat page - 1) * Z.to_nat limit) rows))
                = Z.to_nat limit); [|lia].
        apply count. nia.
Qed.

Lemma getFeed_hasMore_witness :
  let post id time := Post.mk id (js "hello") None "alice" time in
  let db := mkFeedDB [post "p1" 10; post "p2" 20] [] [] in
  let database :=
    FindMany.mk [post "p2" 20; post "p1" 10] (λ _ _, inr []) in
  ∃ items : list FeedItem.t,
    PostController.getFeed database None None (Some 2) db
    = (inr (items, mkPagination 1 2 true), db)
    ∧ FeedItem.post <$> items = [post "p2" 20; post "p1" 10].
Proof.
  intros post db database.
  destruct (getFeed_hasMore database None None (Some 2) db)
    as (_ & items & more & run & window & _ & _ & full).
  - reflexivity.
  - reflexivity.
  - split; simpl.
    + apply Permutation_swap.
    + repeat constructor; unfold postNewerFirst; simpl; lia.
  - exists items.
    assert (more = true) as -> by (apply full; vm_compute; discriminate).
    split; [exact run | exact window].
Defined.

(** ** What the feed stores *)

Lemma serveFeed_sanitised (r : FeedRequest) (db : FeedDB) :
  (∀ p, p ∈ posts db → isSanitised (Post.content p) = true) →
  (∀ c, c ∈ comments db → isSanitised (Comment.content c) = true) →
  (∀ p, p ∈ posts (serveFeed r db) → isSanitised (Post.content p) = true)
  ∧ (∀ c, c ∈ comments (serveFeed r db) →
          isSanitised (Comment.content c) = true).
Proof.
  intros cleanPosts cleanComments.
  destruct r; simpl.
  - unfold PostService.createPost.
    destruct (decide (id ∈ Post.id <$> posts db)); simpl; [now split|].
    split; [|assumption].
    intros p [Hp | ->%list_elem_of_singleton]%elem_of_app; [now apply cleanPosts|].
    apply sanitizeString_isSanitised.
  - unfold PostService.updatePost.
    destruct (PostService.findPost postId db) as [post|]; [|now split].
    destruct (decide (Post.authorId post ≠ userId)); [now split|].
    simpl. split; [|assumption].
    intros p (q & -> & Hq)%list_elem_of_fmap.
    destruct (decide (Post.id q = postId)); [|now apply cleanPosts].
    apply sanitizeString_isSanitised.
  - unfold PostService.toggleLike.
    destruct (PostService.findPost postId db) as [post|]; [|now split].
    destruct (PostService.findLike postId userId db) as [existing|].
    + now destruct (decide _).
    + now destruct (decide _).
  - unfold PostService.addComment.
    destruct (PostService.findPost postId db) as [post|]; [|now split].
    destruct (decide (commentId ∈ Comment.id <$> comments db)); [now split|].
    simpl. split; [assumption|].
    intros c [Hc | ->%list_elem_of_singleton]%elem_of_app;
      [now apply cleanComments|].
    apply sanitizeString_isSanitised.
  - unfold PostService.updateComment.
    destruct (PostService.findComment commentId db) as [comment|]; [|now split].
    destruct (decide (Comment.authorId comment ≠ userId)); [now split|].
    simpl. split; [assumption|].
    intros c (q & -> & Hq)%list_elem_of_fmap.
    destruct (decide (Comment.id q = commentId)); [|now apply cleanComments].
    apply sanitizeString_isSanitised.
  - unfold PostService.deleteComment.
    destruct (PostService.findComment commentId db) as [comment|]; [|now split].
    destruct (decide (Comment.authorId comment ≠ userId)); [now split|].
    simpl. split; [assumption|].
    intros c [_ Hc]%list_elem_of_filter. now apply cleanComments.
Qed.

(** X24: whatever requests [PostService] has served since the feed was
    empty, every stored post and comment holds sanitised content (no white
    space but single spaces between other code units), and no two posts,
    likes or comments share an id, nor two likes their post and user. *)
Theorem reachable_feed_clean :
  ∀ requests : list FeedRequest,
    let db := runFeed requests emptyFeedDB in
    feedKeys db
    ∧ (∀ p, p ∈ posts db → sanitised (Post.content p))
    ∧ (∀ c, c ∈ comments db → sanitised (Comment.content c)).
Proof.
  intros requests db.
  split.
  - apply runFeed_feedKeys. repeat split; constructor.
  - assert (clean : (∀ p, p ∈ posts db → isSanitised (Post.content p) = true)
                    ∧ (∀ c, c ∈ comments db →
                            isSanitised (Comment.content c) = true)).
    { subst db. unfold runFeed.
      assert (step : ∀ start,
                 (∀ p, p ∈ posts start → isSanitised (Post.content p) = true)
                 ∧ (∀ c, c ∈ comments start →
                         isSanitised (Comment.content c) = true) →
                 (∀ p, p ∈ posts (foldl (λ db r, serveFeed r db) start requests) →
                       isSanitised (Post.content p) = true)
                 ∧ (∀ c, c ∈ comments (foldl (λ db r, serveFeed r db) start
                                         requests) →
                         isSanitised (Comment.content c) = true)).
      { induction requests as [|r requests IH]; intros start clean;
          [exact clean|].
        simpl. apply IH. now apply serveFeed_sanitised. }
      apply (step emptyFeedDB).
      split; intros x Hx; now apply not_elem_of_nil in Hx. }
    destruct clean as [cleanPosts cleanComments].
    split; intros x Hx; apply isSanitised_sound; auto.
Qed.

(** ** Comments *)

(** X25: a comment added to an existing post, under a fresh id, shows when
    the post is read next: [getPost] lists the post's comments oldest
    first, the new one with its content sanitised among them and the
    earlier ones all still there, and the comment count is one higher.  On
    a post that does not exist [addComment] fails with [NotFoundError] and
    stores nothing. *)
Theorem addComment_shows_in_post :
  ∀ (commentId : string) (createdAt : Z) (postId userId : string)
    (content : JsString) (viewer : option string) (db : FeedDB),
    (PostService.findPost postId db = None →
     PostService.addComment commentId createdAt postId userId content db
     = (inl (NotFoundError "Post not found"), db))
    ∧ ∀ post : Post.t,
        PostService.findPost postId db = Some post →
        commentId ∉ Comment.id <$> comments db →
        let comment :=
          Comment.mk commentId (sanitizeString content) postId userId createdAt in
        ∃ (db' : FeedDB) (before after : PostDetail.t),
          PostService.addComment commentId createdAt postId userId content db
          = (inr comment, db')
          ∧ PostService.getPost postId viewer db = (inr before, db)
          ∧ PostService.getPost postId viewer db' = (inr after, db')
          ∧ StronglySorted commentOlderFirst (PostDetail.comments after)
          ∧ PostDetail.comments after ≡ₚ comment :: PostDetail.comments before
          ∧ PostView.commentCount (FeedItem.view (PostDetail.item after))
            = S (PostView.commentCount (FeedItem.view (PostDetail.item before)))
          ∧ FeedItem.isLiked (PostDetail.item after)
            = FeedItem.isLiked (PostDetail.item before).
Proof.
  intros commentId createdAt postId userId content viewer db. split.
  - intros missing. unfold PostService.addComment. now rewrite missing.
  - intros post found fresh comment.
    pose proof (findFirst_Some _ _ _ found) as [_ itsId].
    set (db1 := mkFeedDB (posts db) (likes db) (comments db ++ [comment])).
    exists db1,
      (PostDetail.mk (PostService.transformed db viewer post)
         (merge_sort commentOlderFirst
            (filter (λ c, Comment.postId c = Post.id post) (comments db)))),
      (PostDetail.mk (PostService.transformed db1 viewer post)
         (merge_sort commentOlderFirst
            (filter (λ c, Comment.postId c = Post.id post) (comments db1)))).
    split; [|split; [|split]].
    { unfold PostService.addComment.
      now rewrite found, decide_False by exact fresh. }
    { unfold PostService.getPost. now rewrite found. }
    { unfold PostService.getPost.
      change (PostService.findPost postId db1)
        with (PostService.findPost postId db).
      now rewrite found. }
    simpl.
    rewrite !filter_app, !filter_cons_True by (simpl; congruence).
    rewrite filter_nil.
    split; [|split; [|split]].
    + apply StronglySorted_merge_sort; apply _.
    + rewrite !merge_sort_Permutation.
      now rewrite <- Permutation_cons_append.
    + rewrite length_app. simpl. lia.
    + reflexivity.
Qed.

Lemma addComment_shows_in_post_witness :
  let post := Post.mk "p1" (js "hello") None "alice" 10 in
  let db := mkFeedDB [post] [] [Comment.mk "k2" (js "later") "p1" "bob" 30] in
  ∃ (db' : FeedDB) (after : PostDetail.t),
    PostService.getPost "p1" None db' = (inr after, db')
    ∧ PostDetail.comments after
      ≡ₚ [Comment.mk "k1" (js "so nice") "p1" "carol" 20;
          Comment.mk "k2" (js "later") "p1" "bob" 30].
Proof.
  intros post db.
  destruct (proj2 (addComment_shows_in_post "k1" 20 "p1" "carol" (js " so  nice ")
                     None db) post)
    as (db' & before & after & _ & read & read' & _ & all & _).
  - reflexivity.
  - by_decision.
  - exists db', after. split; [exact read'|].
    rewrite all. injection read as <-. reflexivity.
Defined.

(** X26: a comment can be taken back by its author and by nobody else.
    After [addComment] under a fresh id, [deleteComment] by the same user
    restores the store as it was before the comment; by any other user it
    fails with [ForbiddenError] and the comment stays; and a comment id
    that is not stored is answered with [NotFoundError]. *)
Theorem deleteComment_undoes_addComment :
  ∀ (commentId : string) (createdAt : Z) (postId userId other : string)
    (content : JsString) (db db' : FeedDB) (comment : Comment.t),
    commentId ∉ Comment.id <$> comments db →
    PostService.addComment commentId createdAt postId userId content db
    = (inr comment, db') →
    PostService.deleteComment commentId userId db' = (inr tt, db)
    ∧ (other ≠ userId →
       PostService.deleteComment commentId other db'
       = (inl (ForbiddenError "You can only delete your own comments"), db'))
    ∧ PostService.deleteComment commentId other db
      = (inl (NotFoundError "Comment not found"), db).
Proof.
  intros commentId createdAt postId userId other content db db' comment fresh.
  unfold PostService.addComment.
  destruct (PostService.findPost postId db) as [post|]; [|discriminate].
  rewrite decide_False by exact fresh. intros [= <- <-].
  assert (absent : prisma.findFirst (λ c, Comment.id c = commentId) (comments db)
                   = None).
  { apply findFirst_None. intros c Hc same. apply fresh. rewrite <- same.
    now apply list_elem_of_fmap_2. }
  assert (found : PostService.findComment commentId
                    (mkFeedDB (posts db) (likes db)
                       (comments db
                        ++ [Comment.mk commentId (sanitizeString content) postId
                              userId createdAt]))
                  = Some (Comment.mk commentId (sanitizeString content) postId
                            userId createdAt)).
  { unfold PostService.findComment. simpl.
    rewrite findFirst_app_None by exact absent.
    unfold prisma.findFirst. now rewrite filter_cons_True. }
  split; [|split].
  - unfold PostService.deleteComment. rewrite found. simpl.
    rewrite decide_False by (intros differs; now apply differs).
    rewrite filter_app, filter_cons_False, filter_nil, app_nil_r
      by (simpl; intros differs; now apply differs).
    rewrite filter_all; [now destruct db|].
    intros c Hc same. apply fresh. rewrite <- same.
    now apply list_elem_of_fmap_2.
  - intros differs. unfold PostService.deleteComment. rewrite found. simpl.
    now rewrite decide_True by congruence.
  - unfold PostService.deleteComment, PostService.findComment.
    now rewrite absent.
Qed.

Lemma deleteComment_undoes_addComment_witness :
  let db := mkFeedDB [Post.mk "p1" (js "hello") None "alice" 10] [] [] in
  let db' := mkFeedDB (posts db) []
               [Comment.mk "k1" (js "so nice") "p1" "carol" 20] in
  PostService.deleteComment "k1" "carol" db' = (inr tt, db)
  ∧ PostService.deleteComment "k1" "alice" db'
    = (inl (ForbiddenError "You can only delete your own comments"), db').
Proof.
  intros db db'.
  destruct (deleteComment_undoes_addComment "k1" 20 "p1" "carol" "alice"
              (js " so  nice ") db db'
              (Comment.mk "k1" (js "so nice") "p1" "carol" 20))
    as (undone & refused & _).
  - by_decision.
  - vm_compute. reflexivity.
  - split; [exact undone|]. apply refused. intros [=].
Defined.

(** * The client's chat store *)

Lemma ChatState_conversations_ext (s t : ChatState.t) :
  ChatState.conversations s = ChatState.conversations t →
  ChatState.activeConversationId s = ChatState.activeConversationId t →
  ChatState.onlineUsers s = ChatState.onlineUsers t →
  ChatState.typingUsers s = ChatState.typingUsers t →
  s = t.
Proof. destruct s, t. simpl. now intros -> -> -> ->. Qed.

Lemma fmap_fixed {A} (f : A → A) (l : list A) :
  (∀ x, x ∈ l → f x = x) → f <$> l = l.
Proof.
  intros fixed. rewrite <- (list_fmap_id l) at 2.
  apply list_fmap_ext. intros i x Hx. apply fixed.
  now apply list_elem_of_lookup_2 in Hx.
Qed.

(** X27: [addMessage] never shows a message twice.  Adding the same
    message again changes nothing, so a replayed [message:new] is
    harmless; conversations whose messages carry different ids keep that
    property; the list of conversations stays the same, in the same order;
    and a message for a conversation that is not in the list is dropped. *)
Theorem addMessage_dedupes :
  ∀ (message : ChatMessage.t) (state : ChatState.t),
    let after := useChatStore.addMessage message state in
    useChatStore.addMessage message after = after
    ∧ ChatConversation.id <$> ChatState.conversations after
      = ChatConversation.id <$> ChatState.conversations state
    ∧ ((∀ c, c ∈ ChatState.conversations state →
             NoDup (ChatMessage.id <$> ChatConversation.messages c)) →
       ∀ c, c ∈ ChatState.conversations after →
            NoDup (ChatMessage.id <$> ChatConversation.messages c))
    ∧ ((∀ c, c ∈ ChatState.conversations state →
             ChatConversation.id c ≠ ChatMessage.conversationId message) →
       after = state).
Proof.
  intros message state after. subst after.
  split; [|split; [|split]].
  - unfold useChatStore.addMessage. simpl. f_equal.
    rewrite <- list_fmap_compose. apply list_fmap_ext. intros _ c _. simpl.
    destruct (decide (ChatConversation.id c
                      = ChatMessage.conversationId message)) as [here|there];
      [|now rewrite decide_False].
    destruct (decide (Exists _ (ChatConversation.messages c))) as [known|new].
    + now rewrite decide_True, decide_True.
    + simpl. rewrite decide_True by exact here.
      rewrite decide_True; [reflexivity|].
      apply Exists_app. right. now constructor.
  - unfold useChatStore.addMessage. simpl.
    rewrite <- list_fmap_compose. apply list_fmap_ext. intros _ c _. simpl.
    now repeat case_decide.
  - intros unique c (c0 & -> & Hc0)%list_elem_of_fmap.
    specialize (unique c0 Hc0).
    destruct (decide (ChatConversation.id c0
                      = ChatMessage.conversationId message)); [|exact unique].
    destruct (decide (Exists _ (ChatConversation.messages c0))) as [|new];
      [exact unique|].
    simpl. apply NoDup_fmap_snoc; [exact unique|].
    intros (m & same & Hm)%list_elem_of_fmap. apply new.
    apply Exists_exists. now exists m.
  - intros unknown. apply ChatState_conversations_ext; try reflexivity.
    simpl. apply fmap_fixed. intros c Hc.
    now rewrite decide_False by now apply unknown.
Qed.

(** X28: removing a message that [addMessage] has just appended gives every
    conversation its earlier messages back, but not the earlier
    [lastMessageAt]: the conversation keeps the time of the removed
    message. *)
Theorem removeMessage_after_addMessage :
  ∀ (message : ChatMessage.t) (state : ChatState.t),
    (∀ c, c ∈ ChatState.conversations state →
          ChatConversation.id c = ChatMessage.conversationId message →
          ChatMessage.id message
          ∉ ChatMessage.id <$> ChatConversation.messages c) →
    ChatState.conversations
      (useChatStore.removeMessage (ChatMessage.id message)
         (ChatMessage.conversationId message)
         (useChatStore.addMessage message state))
    = (λ c, if decide (ChatConversation.id c
                       = ChatMessage.conversationId message)
            then ChatConversation.mk (ChatConversation.id c)
                   (ChatConversation.participants c)
                   (ChatConversation.messages c)
                   (ChatMessage.createdAt message)
            else c) <$> ChatState.conversations state.
Proof.
  intros message state fresh.
  unfold useChatStore.removeMessage, useChatStore.addMessage. simpl.
  rewrite <- list_fmap_compose. apply list_fmap_ext.
  intros i c Hc%list_elem_of_lookup_2. simpl.
  destruct (decide (ChatConversation.id c
                    = ChatMessage.conversationId message)) as [here|there];
    [|now rewrite decide_False].
  specialize (fresh c Hc here).
  destruct (decide (Exists _ (ChatConversation.messages c))) as [known|new].
  { exfalso. apply Exists_exists in known as (m & Hm & same).
    apply fresh. rewrite <- same. now apply list_elem_of_fmap_2. }
  simpl. rewrite decide_True by exact here. f_equal.
  rewrite filter_app, filter_cons_False, filter_nil, app_nil_r
    by (intros differs; now apply differs).
  apply filter_all. intros m Hm same. apply fresh. rewrite <- same.
  now apply list_elem_of_fmap_2.
Qed.

Lemma removeMessage_after_addMessage_witness :
  let first := ChatMessage.mk "m1" "hi" "alice" "c1" "2024-01-01T10:00" in
  let second := ChatMessage.mk "m2" "oops" "bob" "c1" "2024-01-01T10:05" in
  let state :=
    ChatState.mk [ChatConversation.mk "c1" ["alice"; "bob"] [first]
                    "2024-01-01T10:00"] None [] ∅ in
  ChatState.conversations
    (useChatStore.removeMessage "m2" "c1" (useChatStore.addMessage second state))
  = [ChatConversation.mk "c1" ["alice"; "bob"] [first] "2024-01-01T10:05"].
Proof.
  intros first second state.
  refine (removeMessage_after_addMessage second state _).
  intros c ->%list_elem_of_singleton _. by_decision.
Defined.

(** X29: once [removeConversation] has run, the conversation is gone and
    stays gone: no entry has its id, the other entries are kept in order,
    the active selection is cleared exactly when it pointed there and
    otherwise kept, and a message that arrives for it, a later edit and
    a later removal all leave the state as it is. *)
Theorem removeConversation_forgets :
  ∀ (conversationId : string) (state : ChatState.t),
    let after := useChatStore.removeConversation conversationId state in
    ChatState.conversations after
    = filter (λ c, ChatConversation.id c ≠ conversationId)
        (ChatState.conversations state)
    ∧ (conversationId ∉ ChatConversation.id <$> ChatState.conversations after)
    ∧ ChatState.activeConversationId after ≠ Some conversationId
    ∧ (ChatState.activeConversationId state ≠ Some conversationId →
       ChatState.activeConversationId after
       = ChatState.activeConversationId state)
    ∧ (∀ message, ChatMessage.conversationId message = conversationId →
         useChatStore.addMessage message after = after
         ∧ useChatStore.updateMessage message after = after)
    ∧ (∀ messageId,
         useChatStore.removeMessage messageId conversationId after = after)
    ∧ useChatStore.removeConversation conversationId after = after.
Proof.
  intros conversationId state after.
  assert (gone : ∀ c, c ∈ ChatState.conversations after →
                      ChatConversation.id c ≠ conversationId).
  { intros c Hc. subst after. simpl in Hc.
    now apply list_elem_of_filter in Hc as [? _]. }
  assert (unselected : ChatState.activeConversationId after
                       ≠ Some conversationId).
  { subst after. simpl. now destruct (decide _). }
  split; [reflexivity|]. split; [|split; [exact unselected|split; [|split; [|split]]]].
  - intros (c & same & Hc)%list_elem_of_fmap. now apply (gone c Hc).
  - intros other. subst after. simpl. now rewrite decide_False.
  - intros message <-. split.
    + apply ChatState_conversations_ext; try reflexivity.
      simpl. apply fmap_fixed. intros c Hc.
      now rewrite decide_False by now apply gone.
    + apply ChatState_conversations_ext; try reflexivity.
      simpl. apply fmap_fixed. intros c Hc.
      now rewrite decide_False by now apply gone.
  - intros messageId. apply ChatState_conversations_ext; try reflexivity.
    simpl. apply fmap_fixed. intros c Hc.
    now rewrite decide_False by now apply gone.
  - apply ChatState_conversations_ext; try reflexivity.
    + simpl. fold (ChatState.conversations after). now apply filter_all.
    + simpl. fold (ChatState.activeConversationId after).
      now rewrite decide_False.
Qed.

Lemma fromSet_spec (l : list string) :
  NoDup (fromSet l) ∧ ∀ x, x ∈ fromSet l ↔ x ∈ l.
Proof.
  unfold fromSet.
  assert (general : ∀ seen : list string,
            NoDup seen →
            NoDup (foldl (λ seen x, if decide (x ∈ seen) then seen
                                    else seen ++ [x]) seen l)
            ∧ ∀ x, x ∈ foldl (λ seen x, if decide (x ∈ seen) then seen
                                          else seen ++ [x]) seen l
                   ↔ x ∈ seen ∨ x ∈ l).
  { induction l as [|y l IH]; intros seen unique; simpl.
    - split; [exact unique|]. intros x. rewrite elem_of_nil. tauto.
    - destruct (decide (y ∈ seen)) as [old|new].
      + destruct (IH seen unique) as [nodup members].
        split; [exact nodup|]. intros x. rewrite members, elem_of_cons.
        split; [tauto|]. intros [?|[->|?]]; tauto.
      + destruct (IH (seen ++ [y])) as [nodup members].
        { apply NoDup_app. split; [exact unique|].
          split; [|apply NoDup_singleton].
          intros x Hx ->%list_elem_of_singleton. contradiction. }
        split; [exact nodup|]. intros x.
        rewrite members, elem_of_app, list_elem_of_singleton, elem_of_cons.
        tauto. }
  destruct (general [] (NoDup_nil_2)) as [nodup members].
  split; [exact nodup|]. intros x. rewrite members, elem_of_nil. tauto.
Qed.

Lemma setTyping_spec (conversationId userId : string) (isTyping : bool)
    (state : ChatState.t) :
  let entry := ChatState.typingUsers state !! conversationId in
  match useChatStore.setTyping conversationId userId isTyping state with
  | None => conversationId ∈ inheritedKeys ∧ entry = None
  | Some state' =>
      ChatState.typingUsers state'
      = <[conversationId :=
            if isTyping then fromSet (default [] entry ++ [userId])
            else filter (λ id, id ≠ userId) (default [] entry)]>
          (ChatState.typingUsers state)
      ∧ (conversationId ∈ inheritedKeys → is_Some entry)
  end.
Proof.
  unfold useChatStore.setTyping, useChatStore.typingIn. simpl.
  destruct (ChatState.typingUsers state !! conversationId) as [l|]; simpl.
  - split; [reflexivity|]. now intros _.
  - destruct (decide (conversationId ∈ inheritedKeys)); simpl; [now split|].
    split; [reflexivity|]. intros inherited. contradiction.
Qed.

(** X30: the typing list of a conversation, after any sequence of typing
    events applied to the initial state, holds exactly the users whose
    latest event for that conversation is a [typing:start], each of them
    once, unless the conversation id is the name of a property that every
    object inherits ([constructor], [toString], [__proto__] and the like):
    for such an id every [setTyping] throws and nothing is ever stored. *)
Theorem setTyping_tracks_latest :
  ∀ (events : list TypingEvent) (conversationId userId : string),
    let state := foldl applyTyping useChatStore.initial events in
    let entry := ChatState.typingUsers state !! conversationId in
    let typing := default [] entry in
    NoDup typing
    ∧ (conversationId ∉ inheritedKeys →
       ∀ isTyping,
         ∃ state',
           useChatStore.setTyping conversationId userId isTyping state
           = Some state'
           ∧ (userId ∈ default [] (ChatState.typingUsers state' !! conversationId)
              ↔ isTyping = true))
    ∧ (conversationId ∉ inheritedKeys →
       (userId ∈ typing
        ↔ typingStarted <$>
            last (filter (λ e, typingConversation e = conversationId
                               ∧ typingUser e = userId) events)
          = Some true))
    ∧ (conversationId ∈ inheritedKeys →
       entry = None
       ∧ ∀ isTyping,
           useChatStore.setTyping conversationId userId isTyping state = None).
Proof.
  intros events conversationId userId. simpl.
  assert (tracked :
    ∀ conversationId userId,
      let entry :=
        ChatState.typingUsers (foldl applyTyping useChatStore.initial events)
        !! conversationId in
      NoDup (default [] entry)
      ∧ (conversationId ∉ inheritedKeys →
         (userId ∈ default [] entry
          ↔ typingStarted <$>
              last (filter (λ e, typingConversation e = conversationId
                                 ∧ typingUser e = userId) events)
            = Some true))
      ∧ (conversationId ∈ inheritedKeys → entry = None)).
  { clear. induction events as [|e events IH] using rev_ind;
      intros conversationId userId.
    - simpl. rewrite lookup_empty. simpl.
      split; [constructor|]. split; [|reflexivity].
      intros _. rewrite elem_of_nil. split; [tauto|discriminate].
    - rewrite foldl_app. simpl.
      set (state := foldl applyTyping useChatStore.initial events) in *.
      rewrite filter_app. unfold applyTyping at 1 2 3.
      pose proof (setTyping_spec (typingConversation e) (typingUser e)
                    (typingStarted e) state) as update.
      destruct (useChatStore.setTyping (typingConversation e) (typingUser e)
                  (typingStarted e) state) as [state'|]; simpl in *.
      + destruct update as [-> own].
        destruct (decide (typingConversation e = conversationId))
          as [here|there].
        * rewrite here in *. rewrite lookup_insert_eq. simpl.
          destruct (IH conversationId userId) as (unique & latest & none).
          set (current := default [] (ChatState.typingUsers state
                                      !! conversationId)) in *.
          split; [|split].
          -- destruct (typingStarted e);
               [apply fromSet_spec | now apply NoDup_filter].
          -- intros ordinary. specialize (latest ordinary).
             destruct (typingStarted e) eqn:started.
             ++ destruct (fromSet_spec (current ++ [typingUser e]))
                  as [_ members].
                rewrite members, elem_of_app, list_elem_of_singleton.
                destruct (decide (typingUser e = userId)) as [same|differs].
                ** rewrite filter_cons_True, filter_nil, last_snoc by done.
                   simpl. rewrite started. split; [reflexivity|]. now right.
                ** rewrite filter_cons_False, filter_nil, app_nil_r by tauto.
                   rewrite <- latest. split; [|tauto].
                   intros [?|?]; [assumption|congruence].
             ++ rewrite list_elem_of_filter.
                destruct (decide (typingUser e = userId)) as [same|differs].
                ** rewrite filter_cons_True, filter_nil, last_snoc by done.
                   simpl. rewrite started. split; [|discriminate].
                   intros [other _]. congruence.
                ** rewrite filter_cons_False, filter_nil, app_nil_r by tauto.
                   rewrite <- latest. split; [tauto|].
                   intros ?. split; [congruence|assumption].
          -- intros inherited. exfalso.
             destruct (own inherited) as [l stored].
             rewrite (none inherited) in stored. discriminate.
        * rewrite lookup_insert_ne by exact there.
          rewrite filter_cons_False, filter_nil, app_nil_r by tauto.
          apply IH.
      + destruct (decide (typingConversation e = conversationId))
          as [here|there].
        * rewrite here in *. destruct update as [inherited none].
          destruct (IH conversationId userId) as (unique & _ & _).
          split; [exact unique|]. split; [|now intros _].
          intros ordinary. contradiction.
        * rewrite filter_cons_False, filter_nil, app_nil_r by tauto.
          apply IH. }
  destruct (tracked conversationId userId) as (unique & latest & none).
  set (state := foldl applyTyping useChatStore.initial events) in *.
  split; [exact unique|]. split; [|split; [exact latest|]].
  - intros ordinary isTyping.
    pose proof (setTyping_spec conversationId userId isTyping state) as update.
    destruct (useChatStore.setTyping conversationId userId isTyping state)
      as [state'|]; simpl in update; [|now destruct update].
    exists state'. split; [reflexivity|].
    destruct update as [-> _]. rewrite lookup_insert_eq. simpl.
    destruct isTyping.
    + destruct (fromSet_spec
                  (default [] (ChatState.typingUsers state !! conversationId)
                   ++ [userId])) as [_ members].
      rewrite members, elem_of_app, list_elem_of_singleton. tauto.
    + rewrite list_elem_of_filter. split; [|discriminate].
      intros [differs _]. now exfalso; apply differs.
  - intros inherited. split; [now apply none|].
    intros isTyping.
    unfold useChatStore.setTyping, useChatStore.typingIn.
    rewrite (none inherited). now rewrite decide_True by exact inherited.
Qed.
